(** * prelimspyqs: the question-paper converter and the id re-indexer

    A shallow embedding of [src/info/convert.py] (the line-oriented parser
    [parse_text] with its helpers, the text utilities, and the text of a
    document from its paragraphs and tables on) and of
    [src/info/id_corrector.py] (the re-indexing loop of
    [reindex_polity_questions], on a mapping of the expected shape and on
    any JSON value), followed by the properties proved about them.

    Conventions of the embedding.
    - A Python [str] is a list of characters.  Characters are the code points
      0..255 ([ascii]); the character classes below are Python's classes
      restricted to that range.
    - A Python [dict] is an insertion-ordered association list whose keys are
      kept distinct by the operations ([PyDict]).
    - The three patterns of [convert.py] are matched by functions written
      after them ([Convert.YEAR_RE_match] and its like); [RegexFacts] proves
      that these agree with the parses of the patterns ([Regex]).
    - The only operation of [parse_text] that can raise is [int(...)]; the
      parser therefore lives in an error monad ([result]). *)

From Stdlib Require Import List Ascii String Bool Arith NArith Lia.
From Stdlib Require Import Sorting.Sorted Sorting.Permutation.
From Stdlib Require Import DecimalString DecimalN.
Import ListNotations.

(* ================================================================= *)
(** * Python values used by both programs *)

Module Py.

(** ** Strings *)

Abbreviation str := (list ascii).

(** A string literal. *)
Definition lit (s : string) : str := list_ascii_of_string s.

Fixpoint str_eqb (s t : str) : bool :=
  match s, t with
  | [], [] => true
  | c :: s', d :: t' => Ascii.eqb c d && str_eqb s' t'
  | _, _ => false
  end.

(** Truth value of a string: [bool(s)]. *)
Definition str_truthy (s : str) : bool :=
  match s with [] => false | _ :: _ => true end.

Definition code (c : ascii) : nat := nat_of_ascii c.

Definition in_range (lo hi : nat) (c : ascii) : bool :=
  (lo <=? code c) && (code c <=? hi).

(** [str.isspace] on one character, which is also the class [\s] of [re] for
    [str] patterns: TAB..CR, FS..US, SPACE, NEL (0x85), NBSP (0xA0). *)
Definition isspace (c : ascii) : bool :=
  in_range 9 13 c || in_range 28 32 c || (code c =? 133) || (code c =? 160).

(** The class [\d] of [re]: decimal digits; below 256 these are 0..9. *)
Definition isdigit (c : ascii) : bool := in_range 48 57 c.

(** Line boundaries of [str.splitlines]: LF, VT, FF, CR, FS, GS, RS, NEL. *)
Definition islinebreak (c : ascii) : bool :=
  in_range 10 13 c || in_range 28 30 c || (code c =? 133).

Definition LF : ascii := ascii_of_nat 10.
Definition CR : ascii := ascii_of_nat 13.
Definition SP : ascii := ascii_of_nat 32.

Definition is_LF (c : ascii) : bool := Ascii.eqb c LF.

Fixpoint dropwhile (p : ascii -> bool) (s : str) : str :=
  match s with
  | [] => []
  | c :: s' => if p c then dropwhile p s' else s
  end.

(** [s.lstrip()], [s.rstrip()], [s.strip()]. *)
Definition lstrip (s : str) : str := dropwhile isspace s.
Definition rstrip (s : str) : str := rev (dropwhile isspace (rev s)).
Definition strip (s : str) : str := rstrip (lstrip s).

(** [sep.join(parts)]. *)
Fixpoint join (sep : str) (parts : list str) : str :=
  match parts with
  | [] => []
  | [p] => p
  | p :: rest => p ++ sep ++ join sep rest
  end.

(** [text.splitlines()]: [acc] holds the current line, reversed.  A line is
    ended by a line boundary, CR LF counting as one; the text after the last
    boundary is a line only when it is not empty. *)
Fixpoint splitlines_from (acc : str) (s : str) : list str :=
  match s with
  | [] => match acc with [] => [] | _ :: _ => [rev acc] end
  | c :: s' =>
      if islinebreak c then
        rev acc ::
          match s' with
          | d :: s'' =>
              if Ascii.eqb c CR && Ascii.eqb d LF
              then splitlines_from [] s''
              else splitlines_from [] s'
          | [] => splitlines_from [] s'
          end
      else splitlines_from (c :: acc) s'
  end.

Definition splitlines (text : str) : list str := splitlines_from [] text.

(** [re.sub(r'\s+', ' ', s)]: every maximal run of whitespace becomes one
    space.  [in_run] tells that the previous character was whitespace. *)
Fixpoint sub_ws_runs (in_run : bool) (s : str) : str :=
  match s with
  | [] => []
  | c :: s' =>
      if isspace c
      then (if in_run then sub_ws_runs true s' else SP :: sub_ws_runs true s')
      else c :: sub_ws_runs false s'
  end.

(** ** Exceptions *)

Inductive exn : Type := ValueError | KeyError.

Inductive result (A : Type) : Type :=
| Ok (a : A)
| Raise (e : exn).

Arguments Ok {A} a.
Arguments Raise {A} e.

Definition bind {A B : Type} (r : result A) (k : A -> result B) : result B :=
  match r with
  | Ok a => k a
  | Raise e => Raise e
  end.

(** ** Integers and their formatting *)

Definition digit_value (c : ascii) : N := N.of_nat (code c - 48).

(** The number that a string of decimal digits denotes. *)
Definition digits_value (s : str) : N :=
  fold_left (fun acc c => (10 * acc + digit_value c)%N) s 0%N.

(** [sys.int_info.default_max_str_digits]: the longest string of digits
    that [int] converts in an interpreter left at its default (CPython 3.11
    and later). *)
Definition int_max_str_digits : nat := 4300.

(** [int(s)] for a string of decimal digits.  Python also accepts a sign,
    surrounding whitespace and underscores; those arguments, which the
    parser never builds, are counted as a [ValueError] here.  A string of
    more than [int_max_str_digits] digits, leading zeros counted, raises
    [ValueError]. *)
Definition py_int (s : str) : result N :=
  if str_truthy s && forallb isdigit s
  then (if List.length s <=? int_max_str_digits
        then Ok (digits_value s)
        else Raise ValueError)
  else Raise ValueError.

(** [str(n)] for a natural number. *)
Definition decimal (n : N) : str :=
  lit (NilZero.string_of_uint (N.to_uint n)).

(** [format(n, '0<width>d')] for a natural number: zeros on the left up to
    [width] characters. *)
Definition zero_pad (width : nat) (n : N) : str :=
  let d := decimal n in
  repeat (ascii_of_nat 48) (width - List.length d) ++ d.

End Py.

(* ================================================================= *)
(** * Python dictionaries with string keys *)

Module PyDict.
Import Py.

Section Dict.
Variable V : Type.

(** Entries in insertion order. *)
Definition dict := list (str * V).

(** [d.get(k)], [None] when the key is absent. *)
Fixpoint get (k : str) (d : dict) : option V :=
  match d with
  | [] => None
  | (k', v) :: d' => if str_eqb k' k then Some v else get k d'
  end.

(** [k in d]. *)
Definition contains (k : str) (d : dict) : bool :=
  match get k d with Some _ => true | None => false end.

(** [d.get(k, dflt)]. *)
Definition get_default (k : str) (dflt : V) (d : dict) : V :=
  match get k d with Some v => v | None => dflt end.

(** [d[k] = v]: the entry keeps its place when the key is present and is
    added at the end otherwise. *)
Fixpoint set (k : str) (v : V) (d : dict) : dict :=
  match d with
  | [] => [(k, v)]
  | (k', v') :: d' =>
      if str_eqb k' k then (k', v) :: d' else (k', v') :: set k v d'
  end.

(** [d.setdefault(k, dflt)]: the value now stored under [k], and the
    dictionary. *)
Definition setdefault (k : str) (dflt : V) (d : dict) : V * dict :=
  match get k d with
  | Some v => (v, d)
  | None => (dflt, set k dflt d)
  end.

(** [list(d.keys())]. *)
Definition keys (d : dict) : list str := map fst d.

(** [bool(d)]. *)
Definition truthy (d : dict) : bool :=
  match d with [] => false | _ :: _ => true end.
End Dict.

Arguments get {V} k d.
Arguments contains {V} k d.
Arguments get_default {V} k dflt d.
Arguments set {V} k v d.
Arguments setdefault {V} k dflt d.
Arguments keys {V} d.
Arguments truthy {V} d.

End PyDict.

(* ================================================================= *)
(** * Regular expressions

    The part of Python's [re] syntax that the three patterns of
    [convert.py] use, with the parses of a pattern as a relation.  A pattern
    of [re] may have several parses of one text, of which the engine takes
    the first in its order of preference; what is proved of every parse
    holds of that one. *)

Module Regex.
Import Py.

Inductive regex : Type :=
| Class (p : ascii -> bool)          (* one character of a class *)
| Seq (r1 r2 : regex)                (* r1 r2 *)
| Star (r : regex)                   (* r* *)
| Maybe (r : regex)                  (* r? *)
| Group (n : nat) (r : regex)        (* (r), the n-th group *)
| EndOfString.                       (* $ *)

(** The text of each group, [None] for a group that took no part. *)
Definition groups := nat -> option str.

Definition no_groups : groups := fun _ => None.

(** The groups of two parts of a parse; the later part wins. *)
Definition merge (g1 g2 : groups) : groups :=
  fun n => match g2 n with Some s => Some s | None => g1 n end.

Definition with_group (n : nat) (s : str) (g : groups) : groups :=
  fun k => if k =? n then Some s else g k.

(** [parses r s rest g]: [r] matches [s] where the text goes on with
    [rest], and the groups are [g].  [$] matches at the end of the text and
    before a line feed that ends it. *)
Inductive parses : regex -> str -> str -> groups -> Prop :=
| parses_class p c rest :
    p c = true -> parses (Class p) [c] rest no_groups
| parses_seq r1 r2 s1 s2 rest g1 g2 :
    parses r1 s1 (s2 ++ rest) g1 -> parses r2 s2 rest g2 ->
    parses (Seq r1 r2) (s1 ++ s2) rest (merge g1 g2)
| parses_star_stop r rest :
    parses (Star r) [] rest no_groups
| parses_star_more r s1 s2 rest g1 g2 :
    parses r s1 (s2 ++ rest) g1 -> parses (Star r) s2 rest g2 ->
    parses (Star r) (s1 ++ s2) rest (merge g1 g2)
| parses_maybe_not r rest :
    parses (Maybe r) [] rest no_groups
| parses_maybe r s rest g :
    parses r s rest g -> parses (Maybe r) s rest g
| parses_group n r s rest g :
    parses r s rest g -> parses (Group n r) s rest (with_group n s g)
| parses_end rest :
    rest = [] \/ rest = [LF] -> parses EndOfString [] rest no_groups.

(** [pattern.match(line)] can return the groups [g]: the pattern parses a
    prefix of the line.  ([^] holds at the start, where [match] begins.) *)
Definition matches (r : regex) (line : str) (g : groups) : Prop :=
  exists s rest, line = s ++ rest /\ parses r s rest g.

(** [\s], [\d], [\S], [.] and a literal character. *)
Definition space : regex := Class isspace.
Definition digit : regex := Class isdigit.
Definition nonspace : regex := Class (fun c => negb (isspace c)).
Definition any : regex := Class (fun c => negb (is_LF c)).
Definition char (c : ascii) : regex := Class (Ascii.eqb c).

(** [\s*(.*\S)?\s*$], the end of two of the patterns. *)
Definition TAIL : regex :=
  Seq (Star space)
    (Seq (Maybe (Group 2 (Seq (Star any) nonspace)))
       (Seq (Star space) EndOfString)).

(** [YEAR_RE = ^\s*(\d{4})\s*$]. *)
Definition YEAR_RE : regex :=
  Seq (Star space)
    (Seq (Group 1 (Seq digit (Seq digit (Seq digit digit))))
       (Seq (Star space) EndOfString)).

(** [QSTART_RE = ^\s*(\d+)\.\s*(.*\S)?\s*$]. *)
Definition QSTART_RE : regex :=
  Seq (Star space)
    (Seq (Group 1 (Seq digit (Star digit)))
       (Seq (char ".") TAIL)).

(** [OPT_RE = ^\s*\(?([a-d])[\).]\s*(.*\S)?\s*$]. *)
Definition OPT_RE : regex :=
  Seq (Star space)
    (Seq (Maybe (char "("))
       (Seq (Group 1 (Class (in_range 97 100)))
          (Seq (Class (fun c => Ascii.eqb c ")" || Ascii.eqb c "."))
             TAIL))).

End Regex.

(* ================================================================= *)
(** * convert.py *)

Module Convert.
Import Py.

Notation "x <- r ;; k" := (bind r (fun x => k))
  (at level 61, r at next level, right associativity).

(** ** Matching the patterns

    Each matcher follows its pattern ([Regex.YEAR_RE], [Regex.QSTART_RE],
    [Regex.OPT_RE]) token by token and returns the groups of [re.match],
    [None] for a group that took no part in the match.  In all three
    patterns a greedy token is followed by a token that accepts none of the
    characters the greedy one accepts, so the first choice of the
    backtracking search is the only one that can succeed.  [RegexFacts]
    proves that a matcher succeeds exactly when its pattern has a parse, and
    that every parse has the matcher's group 1 and, up to the whitespace
    that [parse_text] strips, its group 2. *)

(** The common tail [\s*(.*\S)?\s*$]: group 2 is the rest without the
    whitespace around it, and absent when nothing else is left.  [.]
    accepts every character but LF, so a rest whose body spans an LF has no
    match. *)
Definition tail_match (rest : str) : option (option str) :=
  let body := strip rest in
  if str_truthy body
  then (if existsb is_LF body then None else Some (Some body))
  else Some None.

(** [YEAR_RE = ^\s*(\d{4})\s*$]. *)
Definition YEAR_RE_match (line : str) : option str :=
  let s := lstrip line in
  let g1 := firstn 4 s in
  if (List.length g1 =? 4) && forallb isdigit g1 && forallb isspace (skipn 4 s)
  then Some g1
  else None.

(** The digits at the front of [s], and what follows them: [(\d+)] when the
    first component is not empty. *)
Fixpoint span_digits (s : str) : str * str :=
  match s with
  | [] => ([], [])
  | c :: s' =>
      if isdigit c
      then (let (ds, r) := span_digits s' in (c :: ds, r))
      else ([], s)
  end.

(** [QSTART_RE = ^\s*(\d+)\.\s*(.*\S)?\s*$]. *)
Definition QSTART_RE_match (line : str) : option (str * option str) :=
  let (g1, r) := span_digits (lstrip line) in
  match g1, r with
  | _ :: _, c :: rest =>
      if Ascii.eqb c "."
      then match tail_match rest with
           | Some g2 => Some (g1, g2)
           | None => None
           end
      else None
  | _, _ => None
  end.

(** [OPT_RE = ^\s*\(?([a-d])[\).]\s*(.*\S)?\s*$]. *)
Definition OPT_RE_match (line : str) : option (str * option str) :=
  let s := lstrip line in
  let s := match s with
           | c :: s' => if Ascii.eqb c "(" then s' else s
           | [] => s
           end in
  match s with
  | c :: d :: rest =>
      if in_range 97 100 c && (Ascii.eqb d ")" || Ascii.eqb d ".")
      then match tail_match rest with
           | Some g2 => Some ([c], g2)
           | None => None
           end
      else None
  | _ => None
  end.

(** [m.group(2) or '']. *)
Definition group_or_empty (g : option str) : str :=
  match g with
  | Some s => if str_truthy s then s else []
  | None => []
  end.

(** ** Text utilities *)

(** [not ln.strip()]. *)
Definition blank (ln : str) : bool := negb (str_truthy (strip ln)).

(** The first loop of [finalize_question_text]: [lines.pop(0)] while the
    first line is blank. *)
Fixpoint pop_blank_front (lines : list str) : list str :=
  match lines with
  | [] => []
  | ln :: rest => if blank ln then pop_blank_front rest else lines
  end.

(** The second loop: [lines.pop()] while the last line is blank. *)
Definition pop_blank_back (lines : list str) : list str :=
  rev (pop_blank_front (rev lines)).

(** The third loop, which fills [out]. *)
Fixpoint squeeze (prev_blank : bool) (lines : list str) : list str :=
  match lines with
  | [] => []
  | ln :: rest =>
      if str_eqb (strip ln) []
      then (if prev_blank then squeeze true rest else [] :: squeeze true rest)
      else rstrip ln :: squeeze false rest
  end.

(** The list [out] of [finalize_question_text]. *)
Definition finalize_out (lines : list str) : list str :=
  squeeze false (pop_blank_back (pop_blank_front lines)).

Definition finalize_question_text (lines : list str) : str :=
  join [LF] (finalize_out lines).

Definition normalize_inline (s : str) : str :=
  strip (sub_ws_runs false s).

(** [letter.upper()], for the letters of the ASCII alphabet. *)
Definition upper_char (c : ascii) : ascii :=
  if in_range 97 122 c then ascii_of_nat (code c - 32) else c.

Definition upper (s : str) : str := map upper_char s.

(** ** Question records and the parser state *)

(** The dictionary appended to a year's list; the fields are its keys
    ["id"], ["question"], ["options"], ["answer"], ["explanation"] and
    ["difficulty"]. *)
Record Question : Type := {
  q_id : str;
  q_question : str;
  q_options : list str;
  q_answer : str;
  q_explanation : str;
  q_difficulty : str
}.

Definition Years := PyDict.dict (list Question).

(** The local variables of [parse_text]. *)
Record State : Type := {
  years : Years;
  current_year : option str;
  current_qnum : option str;
  q_lines : list str;
  options : PyDict.dict str;
  current_opt : option str;
  in_options : bool
}.

Definition init_state : State := {|
  years := [];
  current_year := None;
  current_qnum := None;
  q_lines := [];
  options := [];
  current_opt := None;
  in_options := false
|}.

(** Truth value of a variable that is [None] or a string. *)
Definition opt_truthy (o : option str) : bool :=
  match o with Some s => str_truthy s | None => false end.

Definition is_none {A : Type} (o : option A) : bool :=
  match o with Some _ => false | None => true end.

Definition letters : list str := [lit "a"; lit "b"; lit "c"; lit "d"].

(** [fallback not in options or not options[fallback].strip()]. *)
Definition slot_free (opts : PyDict.dict str) (letter : str) : bool :=
  match PyDict.get letter opts with
  | Some t => blank t
  | None => true
  end.

(** [place_option(letter, text_val)], as a function of [options]. *)
Definition place_option (letter text_val : str) (opts : PyDict.dict str)
  : PyDict.dict str :=
  let letter :=
    if negb (slot_free opts letter)
    then match find (slot_free opts) letters with
         | Some fallback => fallback
         | None => letter
         end
    else letter in
  PyDict.set letter text_val opts.

(** One entry of [opt_list]. *)
Definition render_option (opts : PyDict.dict str) (letter : str) : str :=
  let t := normalize_inline (PyDict.get_default letter [] opts) in
  if str_truthy t
  then upper letter ++ lit ". " ++ t
  else upper letter ++ lit ". ".

(** [years.setdefault(year, []).append(q)]. *)
Definition append_question (year : str) (q : Question) (ys : Years) : Years :=
  let (lst, ys') := PyDict.setdefault year [] ys in
  PyDict.set year (lst ++ [q]) ys'.

(** The dictionary literal of [flush_question], for the question number
    [n = int(current_qnum)]. *)
Definition make_record (st : State) (year : str) (n : N) : Question :=
  {| q_id := lit "POL-" ++ year ++ lit "-" ++ zero_pad 2 n;
     q_question := finalize_question_text (q_lines st);
     q_options := map (render_option (options st)) letters;
     q_answer := [];
     q_explanation := [];
     q_difficulty := lit "M" |}.

(** The state after the record for question number [n] has been appended
    and the per-question variables have been reset. *)
Definition after_flush (st : State) (year : str) (n : N) : State :=
  {| years := append_question year (make_record st year n) (years st);
     current_year := current_year st;
     current_qnum := None;
     q_lines := [];
     options := [];
     current_opt := None;
     in_options := false |}.

Definition flush_question (st : State) : result State :=
  match current_qnum st, current_year st with
  | Some qnum, Some year =>
      n <- py_int qnum ;;
      Ok (after_flush st year n)
  | _, _ => Ok st
  end.

(** ** The loop body of [parse_text] *)

Definition set_current_year (y : str) (st : State) : State :=
  {| years := years st; current_year := Some y;
     current_qnum := current_qnum st; q_lines := q_lines st;
     options := options st; current_opt := current_opt st;
     in_options := in_options st |}.

Definition append_q_line (ln : str) (st : State) : State :=
  {| years := years st; current_year := current_year st;
     current_qnum := current_qnum st; q_lines := q_lines st ++ [ln];
     options := options st; current_opt := current_opt st;
     in_options := in_options st |}.

(** The assignments that open question [qnum] after the flush. *)
Definition open_question (qnum first_part : str) (st : State) : State :=
  {| years := years st; current_year := current_year st;
     current_qnum := Some qnum;
     q_lines := if str_truthy first_part
                then q_lines st ++ [first_part]
                else q_lines st;
     options := options st; current_opt := None;
     in_options := false |}.

(** The assignments of the option-marker branch. *)
Definition mark_option (letter opt_text : str) (st : State) : State :=
  {| years := years st; current_year := current_year st;
     current_qnum := current_qnum st; q_lines := q_lines st;
     options := place_option letter opt_text (options st);
     current_opt := Some letter;
     in_options := true |}.

Definition set_options (opts : PyDict.dict str) (st : State) : State :=
  {| years := years st; current_year := current_year st;
     current_qnum := current_qnum st; q_lines := q_lines st;
     options := opts; current_opt := current_opt st;
     in_options := in_options st |}.

(** The continuation branch: the line goes to the active option, or to the
    stem. *)
Definition continuation (line : str) (st : State) : State :=
  if in_options st && opt_truthy (current_opt st)
  then
    match current_opt st with
    | Some letter =>
        if str_truthy (strip line)
        then set_options
               (PyDict.set letter
                  (strip (PyDict.get_default letter [] (options st)
                          ++ lit " " ++ strip line))
                  (options st)) st
        else st
    | None => st
    end
  else append_q_line line st.

(** One iteration of [for raw in text.splitlines()]. *)
Definition step (st : State) (raw : str) : result State :=
  let line := rstrip raw in
  match YEAR_RE_match line with
  | Some year =>
      st' <- flush_question st ;;
      Ok (set_current_year year st')
  | None =>
      let m_q := if opt_truthy (current_year st)
                 then QSTART_RE_match line else None in
      match m_q with
      | Some (qnum, g2) =>
          if is_none (current_qnum st) || PyDict.truthy (options st)
          then
            st' <- flush_question st ;;
            Ok (open_question qnum (strip (group_or_empty g2)) st')
          else Ok (append_q_line line st)
      | None =>
          if opt_truthy (current_year st) && negb (is_none (current_qnum st))
          then
            match OPT_RE_match line with
            | Some (letter, g2) =>
                Ok (mark_option letter (strip (group_or_empty g2)) st)
            | None => Ok (continuation line st)
            end
          else Ok st
      end
  end.

Fixpoint run (st : State) (lines : list str) : result State :=
  match lines with
  | [] => Ok st
  | raw :: rest => st' <- step st raw ;; run st' rest
  end.

Definition parse_text (text : str) : result Years :=
  st <- run init_state (splitlines text) ;;
  st' <- flush_question st ;;
  Ok (years st').

End Convert.

(* ================================================================= *)
(** * id_corrector.py *)

Module IdCorrector.
Import Py.

(** What [json.load] returns.  A number is kept as its literal: the
    re-indexer never looks at one. *)
#[warnings="-register-all"]
Inductive json : Type :=
| JNull
| JBool (b : bool)
| JNum (literal : str)
| JStr (s : str)
| JList (items : list json)
| JDict (entries : list (str * json)).

(** A question object and the value of [data['years']]. *)
Definition Question := PyDict.dict json.
Definition Years := PyDict.dict (list Question).

(** Python orders strings by code point, character by character. *)
Fixpoint str_compare (s t : str) : comparison :=
  match s, t with
  | [], [] => Eq
  | [], _ :: _ => Lt
  | _ :: _, [] => Gt
  | c :: s', d :: t' =>
      match Nat.compare (code c) (code d) with
      | Eq => str_compare s' t'
      | o => o
      end
  end.

(** [s <= t]. *)
Definition str_leb (s t : str) : bool :=
  match str_compare s t with Gt => false | _ => true end.

(** [sorted(keys, reverse=True)], by insertion from the right; equal keys
    keep their order, as in Python. *)
Fixpoint insert_desc (k : str) (l : list str) : list str :=
  match l with
  | [] => [k]
  | x :: l' => if str_leb x k then k :: l else x :: insert_desc k l'
  end.

Definition sorted_desc (l : list str) : list str :=
  fold_right insert_desc [] l.

(** [f"ENVI-{year}-{global_id_counter:03}"]. *)
Definition new_id (year : str) (counter : N) : str :=
  lit "ENVI-" ++ year ++ lit "-" ++ zero_pad 3 counter.

(** The inner loop [for question in questions_list], from counter value
    [counter]: the list with its questions updated, and the counter. *)
Fixpoint reindex_list (year : str) (counter : N) (questions_list : list Question)
  : list Question * N :=
  match questions_list with
  | [] => ([], counter)
  | question :: rest =>
      let question' := PyDict.set (lit "id") (JStr (new_id year counter)) question in
      let (rest', counter') := reindex_list year (counter + 1) rest in
      (question' :: rest', counter')
  end.

(** The outer loop [for year in years_sorted].  The questions are updated in
    place, so the year's list in [ys] is the updated one afterwards. *)
Fixpoint reindex_years (years_sorted : list str) (ys : Years) (counter : N)
  : result (Years * N) :=
  match years_sorted with
  | [] => Ok (ys, counter)
  | year :: rest =>
      match PyDict.get year ys with
      | Some questions_list =>
          let (questions_list', counter') :=
            reindex_list year counter questions_list in
          reindex_years rest (PyDict.set year questions_list' ys) counter'
      | None => Raise KeyError
      end
  end.

(** Steps 3 and 4 of [reindex_polity_questions] on [data['years']]: the
    mapping that is written out and the final [global_id_counter]. *)
Definition reindex (ys : Years) : result (Years * N) :=
  reindex_years (sorted_desc (PyDict.keys ys)) ys 1%N.

End IdCorrector.

(* ================================================================= *)
(** * id_corrector.py on any JSON value *)

Module ReindexData.
Import Py IdCorrector.

(** The exceptions that leave steps 3 and 4 of [reindex_polity_questions],
    which no handler catches: [AttributeError] ([get] or [keys] on a value
    that is no dictionary), [TypeError] (a value that cannot be iterated, or
    an item that takes no assignment to ['id']) and [KeyError]. *)
Inductive crash : Type := AttributeError | TypeError | MissingKey.

Inductive outcome (A : Type) : Type :=
| Done (a : A)
| Crashed (e : crash).

Arguments Done {A} a.
Arguments Crashed {A} e.

(** [for question in questions_list] over the items of a list: an item that
    is a dictionary gets its ['id'], any other item raises. *)
Fixpoint renumber (year : str) (counter : N) (items : list json)
  : outcome (list json * N) :=
  match items with
  | [] => Done ([], counter)
  | JDict question :: rest =>
      match renumber year (counter + 1) rest with
      | Done (rest', counter') =>
          Done (JDict (PyDict.set (lit "id") (JStr (new_id year counter)) question)
                  :: rest',
                counter')
      | Crashed e => Crashed e
      end
  | _ :: _ => Crashed TypeError
  end.

(** The inner loop on the value stored under a year.  A list is gone
    through; an empty dictionary and an empty string give no iteration; a
    dictionary or a string that is not empty yields strings, which take no
    assignment; the other values cannot be iterated. *)
Definition renumber_value (year : str) (counter : N) (v : json)
  : outcome (json * N) :=
  match v with
  | JList items =>
      match renumber year counter items with
      | Done (items', counter') => Done (JList items', counter')
      | Crashed e => Crashed e
      end
  | JDict [] => Done (v, counter)
  | JStr [] => Done (v, counter)
  | _ => Crashed TypeError
  end.

(** The outer loop [for year in years_sorted] on the entries of
    [data['years']]. *)
Fixpoint renumber_years (years_sorted : list str) (ys : list (str * json))
  (counter : N) : outcome (list (str * json) * N) :=
  match years_sorted with
  | [] => Done (ys, counter)
  | year :: rest =>
      match PyDict.get year ys with
      | Some v =>
          match renumber_value year counter v with
          | Done (v', counter') =>
              renumber_years rest (PyDict.set year v' ys) counter'
          | Crashed e => Crashed e
          end
      | None => Crashed MissingKey
      end
  end.

(** Steps 3 and 4 on the value [data] that [json.load] returned: the value
    that is written out and the final [global_id_counter].
    [data.get('years', {})] is a fresh empty dictionary when the key is
    absent, and [data] is then left as it is. *)
Definition reindex_data (data : json) : outcome (json * N) :=
  match data with
  | JDict entries =>
      match PyDict.get (lit "years") entries with
      | None => Done (data, 1%N)
      | Some (JDict ys) =>
          match renumber_years (sorted_desc (PyDict.keys ys)) ys 1%N with
          | Done (ys', total) =>
              Done (JDict (PyDict.set (lit "years") (JDict ys') entries), total)
          | Crashed e => Crashed e
          end
      | Some _ => Crashed AttributeError
      end
  | _ => Crashed AttributeError
  end.

End ReindexData.

(* ================================================================= *)
(** * convert.py: the text utilities and the reading of a document *)

Module SmartQuotes.

(** A Python [str] as the list of its code points, of any size. *)
Abbreviation ustr := (list N).

(** [s.replace(k, v)] for strings [k] and [v] of one character. *)
Definition replace_char (k v : N) (s : ustr) : ustr :=
  map (fun c => if (c =? k)%N then v else c) s.

(** The dictionary [repl], in the order of its literal: the curly quotes,
    the dashes and the no-break space. *)
Definition repl : list (N * N) :=
  [(0x2018, 39); (0x2019, 39); (0x201C, 34); (0x201D, 34);
   (0x2013, 45); (0x2014, 45); (0xA0, 32)]%N.

(** [for k, v in repl.items(): s = s.replace(k, v)]. *)
Definition smart_quotes_to_ascii (s : ustr) : ustr :=
  fold_left (fun s kv => replace_char (fst kv) (snd kv) s) repl s.

End SmartQuotes.

Module Docx.
Import Py Convert.

(** [smart_quotes_to_ascii] on a string of the code points 0..255. *)
Definition smart_quotes_str (s : str) : str :=
  map ascii_of_N (SmartQuotes.smart_quotes_to_ascii (map N_of_ascii s)).

(** A cell of a table: the [text] of each of its paragraphs, which may be
    [None]; a table: its rows, each the list of its cells. *)
Definition cell := list (option str).
Definition table := list (list cell).

(** The texts [p.text.strip()], made plain, of the paragraphs whose text is
    not [None]. *)
Fixpoint paragraph_texts (c : cell) : list str :=
  match c with
  | [] => []
  | Some t :: c' => smart_quotes_str (strip t) :: paragraph_texts c'
  | None :: c' => paragraph_texts c'
  end.

(** The text [txt] of a cell. *)
Definition cell_text (c : cell) : str :=
  strip (sub_ws_runs false (join (lit " ") (paragraph_texts c))).

(** ["| " + " | ".join(r) + " |"]. *)
Definition table_line (r : list str) : str :=
  lit "| " ++ join (lit " | ") r ++ lit " |".

(** [r + [''] * (col_count - len(r))]. *)
Definition pad_row (col_count : nat) (r : list str) : list str :=
  r ++ repeat [] (col_count - List.length r).

(** The list [lines] of [table_to_markdown], for rows that are not empty. *)
Definition table_lines (rows : list (list str)) : list str :=
  let col_count := list_max (map (@List.length str) rows) in
  let rows := map (pad_row col_count) rows in
  match rows with
  | [] => []
  | first :: others =>
      table_line first
      :: table_line (repeat (lit "---") col_count)
      :: map table_line others
  end.

Definition table_to_markdown (tbl : table) : str :=
  let rows := map (map cell_text) tbl in
  match rows with
  | [] => []
  | _ :: _ => join [LF] (table_lines rows)
  end.

(** A block of the document, as [iter_block_items] yields them. *)
Inductive block : Type :=
| Paragraph (text : option str)
| Table (tbl : table).

(** [s.replace("\r", "\n")]. *)
Definition cr_to_lf (s : str) : str :=
  map (fun c => if Ascii.eqb c CR then LF else c) s.

(** [re.sub(r'\n{3,}', '\n\n', text)]: of a run of line feeds the first two
    are kept.  [run] counts the line feeds just passed. *)
Fixpoint sub_newlines (run : nat) (s : str) : str :=
  match s with
  | [] => []
  | c :: s' =>
      if is_LF c
      then (if run <? 2 then c :: sub_newlines (S run) s' else sub_newlines run s')
      else c :: sub_newlines 0 s'
  end.

(** The list [blocks] of [read_docx_text]. *)
Fixpoint block_texts (doc : list block) : list str :=
  match doc with
  | [] => []
  | Paragraph text :: doc' =>
      smart_quotes_str
        (cr_to_lf (match text with
                   | Some t => if str_truthy t then t else []
                   | None => []
                   end))
      :: block_texts doc'
  | Table tbl :: doc' =>
      let md := table_to_markdown tbl in
      if str_truthy (strip md) then md :: block_texts doc' else block_texts doc'
  end.

(** [read_docx_text], from the blocks of the document on. *)
Definition read_docx_text (doc : list block) : str :=
  sub_newlines 0 (join [LF] (block_texts doc)).

End Docx.

(* ================================================================= *)
(** * convert.py: what [main] writes *)

Module Main.
Import Py.

(** The dictionary that [flush_question] appends, as [json.dumps] writes it
    and [json.load] reads it back: the six keys in the order of the
    literal. *)
Definition record_json (q : Convert.Question) : IdCorrector.Question :=
  [(lit "id", IdCorrector.JStr (Convert.q_id q));
   (lit "question", IdCorrector.JStr (Convert.q_question q));
   (lit "options",
    IdCorrector.JList (map IdCorrector.JStr (Convert.q_options q)));
   (lit "answer", IdCorrector.JStr (Convert.q_answer q));
   (lit "explanation", IdCorrector.JStr (Convert.q_explanation q));
   (lit "difficulty", IdCorrector.JStr (Convert.q_difficulty q))].

(** The value under ["years"] in the file [main] writes, which is
    [data['years']] for the re-indexer. *)
Definition years_json (ys : Convert.Years) : IdCorrector.Years :=
  map (fun entry => (fst entry, map record_json (snd entry))) ys.

End Main.

(* ================================================================= *)
(** * The stem as the specification words it *)

Module StemSpec.
Import Py.

(** A fully blank line: nothing but whitespace. *)
Definition fully_blank (ln : str) : bool := forallb isspace ln.

Fixpoint trim_leading (lines : list str) : list str :=
  match lines with
  | [] => []
  | ln :: rest => if fully_blank ln then trim_leading rest else lines
  end.

Definition trim_trailing (lines : list str) : list str :=
  rev (trim_leading (rev lines)).

(** Every run of two or more consecutive blank lines becomes one blank
    line: a blank line followed by a blank line is left out. *)
Fixpoint collapse_runs (lines : list str) : list str :=
  match lines with
  | [] => []
  | ln :: rest =>
      match rest with
      | next :: _ =>
          if fully_blank ln && fully_blank next
          then collapse_runs rest
          else ln :: collapse_runs rest
      | [] => [ln]
      end
  end.

Definition stem (lines : list str) : str :=
  join [LF] (collapse_runs (trim_trailing (trim_leading lines))).

End StemSpec.

(* ================================================================= *)
(** * The embedding at work

    Values of the embedded functions on small inputs, as Python gives them. *)

Module Examples.
Import Py Convert.

(** ["ab\r\ncd\n\ne\r".splitlines() == ['ab', 'cd', '', 'e']]. *)
Example splitlines_mixed :
  splitlines (lit "ab" ++ [CR; LF] ++ lit "cd" ++ [LF; LF] ++ lit "e" ++ [CR])
  = [lit "ab"; lit "cd"; []; lit "e"].
Proof. reflexivity. Qed.

Example splitlines_empty : splitlines [] = [] /\ splitlines [LF] = [[]].
Proof. split; reflexivity. Qed.

Example year_heading :
  YEAR_RE_match (lit " 2020 ") = Some (lit "2020")
  /\ YEAR_RE_match (lit "20201") = None
  /\ YEAR_RE_match (lit "2020 1") = None
  /\ YEAR_RE_match (lit "2020.") = None.
Proof. repeat split; reflexivity. Qed.

Example question_start :
  QSTART_RE_match (lit " 12.  foo bar  ") = Some (lit "12", Some (lit "foo bar"))
  /\ QSTART_RE_match (lit "12.") = Some (lit "12", None)
  /\ QSTART_RE_match (lit "12") = None
  /\ QSTART_RE_match (lit "1.2.3 x") = Some (lit "1", Some (lit "2.3 x"))
  /\ QSTART_RE_match (lit "1. a" ++ [LF] ++ lit "b") = None
  /\ QSTART_RE_match (lit "1. a" ++ [LF; LF]) = Some (lit "1", Some (lit "a")).
Proof. repeat split; reflexivity. Qed.

Example option_marker :
  OPT_RE_match (lit "(a) x") = Some (lit "a", Some (lit "x"))
  /\ OPT_RE_match (lit "a. x") = Some (lit "a", Some (lit "x"))
  /\ OPT_RE_match (lit "a)x") = Some (lit "a", Some (lit "x"))
  /\ OPT_RE_match (lit "(a)") = Some (lit "a", None)
  /\ OPT_RE_match (lit "(a))") = Some (lit "a", Some (lit ")"))
  /\ OPT_RE_match (lit "((a) x") = None
  /\ OPT_RE_match (lit "( a) x") = None
  /\ OPT_RE_match (lit "(a x") = None
  /\ OPT_RE_match (lit "e) x") = None
  /\ OPT_RE_match (lit "A. x") = None.
Proof. repeat split; reflexivity. Qed.

Example formats :
  zero_pad 2 7 = lit "07" /\ zero_pad 2 0 = lit "00" /\ zero_pad 2 123 = lit "123"
  /\ zero_pad 3 7 = lit "007" /\ zero_pad 3 1234 = lit "1234"
  /\ py_int (lit "0012") = Ok 12%N /\ py_int [] = Raise ValueError.
Proof. repeat split; reflexivity. Qed.

Example inline_text :
  normalize_inline (lit "  sea   lion ") = lit "sea lion".
Proof. reflexivity. Qed.

(** A paper with text before the first year, a stem of several lines with
    a numbered sub-point, a repeated label, a continuation line, and years
    that come back. *)
Definition sample_text : str :=
  join [LF]
    (map lit
       ["junk"; "2020"; "1. Q one"; "  more"; ""; "2. Right to Equality";
        "(a) cats"; "(a) dogs"; "cont"; "c. sea  lion"; "2. Next"; "A. no";
        "d) x"; "2021"; "7. z"; "2020"; "12. last"]%string).

Definition record (ident stem : str) (opts : list string) : Question :=
  {| q_id := ident; q_question := stem; q_options := map lit opts;
     q_answer := []; q_explanation := []; q_difficulty := lit "M" |}.

Example parse_sample :
  parse_text sample_text
  = Ok [(lit "2020",
         [record (lit "POL-2020-01")
            (lit "Q one" ++ [LF] ++ lit "  more" ++ [LF; LF]
             ++ lit "2. Right to Equality")
            ["A. cats cont"; "B. dogs"; "C. sea lion"; "D. "]%string;
          record (lit "POL-2020-02") (lit "Next" ++ [LF] ++ lit "A. no")
            ["A. "; "B. "; "C. "; "D. x"]%string;
          record (lit "POL-2020-12") (lit "last")
            ["A. "; "B. "; "C. "; "D. "]%string]);
        (lit "2021",
         [record (lit "POL-2021-07") (lit "z")
            ["A. "; "B. "; "C. "; "D. "]%string])].
Proof. vm_compute. reflexivity. Qed.

End Examples.

(* ================================================================= *)
(** * Facts about strings *)

Module PyFacts.
Import Py.

(** Decides the comparisons of a goal about character codes. *)
Ltac code_cases :=
  repeat match goal with
         | |- context [?a <=? ?b] => destruct (Nat.leb_spec a b)
         | |- context [?a =? ?b] => destruct (Nat.eqb_spec a b)
         | H : context [?a <=? ?b] |- _ => destruct (Nat.leb_spec a b)
         | H : context [?a =? ?b] |- _ => destruct (Nat.eqb_spec a b)
         end;
  simpl in *; try reflexivity; try discriminate; try lia.

Lemma str_eqb_eq (s t : str) : str_eqb s t = true <-> s = t.
Proof.
  revert t; induction s as [|c s IH]; intros [|d t]; simpl;
    try (split; congruence).
  rewrite andb_true_iff, Ascii.eqb_eq, IH. split.
  - intros [-> ->]; reflexivity.
  - intros E; injection E; auto.
Qed.

Lemma str_eqb_refl (s : str) : str_eqb s s = true.
Proof. apply str_eqb_eq; reflexivity. Qed.

Lemma str_eqb_neq (s t : str) : str_eqb s t = false <-> s <> t.
Proof.
  rewrite <- str_eqb_eq. destruct (str_eqb s t); split; congruence.
Qed.

Lemma str_eqb_sym (s t : str) : str_eqb s t = str_eqb t s.
Proof.
  destruct (str_eqb s t) eqn:E.
  - apply str_eqb_eq in E; subst; symmetry; apply str_eqb_refl.
  - symmetry; apply str_eqb_neq; apply str_eqb_neq in E; congruence.
Qed.

Lemma str_eqb_nil_r (s : str) : str_eqb s [] = negb (str_truthy s).
Proof. destruct s; reflexivity. Qed.

Lemma str_truthy_false (s : str) : str_truthy s = false <-> s = [].
Proof. destruct s; simpl; split; congruence. Qed.

Lemma digit_not_space (c : Ascii.ascii) : isdigit c = true -> isspace c = false.
Proof. unfold isdigit, isspace, in_range. intros H. code_cases. Qed.

Lemma linebreak_is_space (c : Ascii.ascii) : islinebreak c = true -> isspace c = true.
Proof. unfold islinebreak, isspace, in_range. intros H. code_cases. Qed.

Section Dropwhile.
Variable p : Ascii.ascii -> bool.

Lemma dropwhile_nil_iff (s : str) : dropwhile p s = [] <-> forallb p s = true.
Proof.
  induction s as [|c s IH]; simpl; [tauto|].
  destruct (p c); simpl; [exact IH | split; discriminate].
Qed.

Lemma dropwhile_head (s : str) c r : dropwhile p s = c :: r -> p c = false.
Proof.
  induction s as [|d s IH]; simpl; [discriminate|].
  destruct (p d) eqn:E; [exact IH|]. intros H; injection H as -> _; exact E.
Qed.

Lemma dropwhile_idem (s : str) : dropwhile p (dropwhile p s) = dropwhile p s.
Proof.
  destruct (dropwhile p s) as [|c r] eqn:E; [reflexivity|].
  simpl. rewrite (dropwhile_head s c r E). reflexivity.
Qed.

Lemma dropwhile_split (s : str) :
  exists pre, s = pre ++ dropwhile p s /\ forallb p pre = true.
Proof.
  induction s as [|c s [pre [E F]]]; simpl.
  - exists []; auto.
  - destruct (p c) eqn:Hc.
    + exists (c :: pre); simpl; rewrite Hc, F; split; [congruence|reflexivity].
    + exists []; auto.
Qed.

Lemma dropwhile_app_stop (s t : str) c :
  p c = false -> dropwhile p (s ++ c :: t) = dropwhile p s ++ c :: t.
Proof.
  intros Hc. induction s as [|d s IH]; simpl; [rewrite Hc; reflexivity|].
  destruct (p d); [exact IH | reflexivity].
Qed.
End Dropwhile.

Lemma forallb_rev_eq (p : Ascii.ascii -> bool) (s : str) :
  forallb p (rev s) = forallb p s.
Proof.
  induction s as [|c s IH]; simpl; [reflexivity|].
  rewrite forallb_app, IH. simpl. rewrite andb_true_r. apply andb_comm.
Qed.

Lemma rstrip_idem (s : str) : rstrip (rstrip s) = rstrip s.
Proof. unfold rstrip. rewrite rev_involutive, dropwhile_idem. reflexivity. Qed.

Lemma rstrip_nil_iff (s : str) : rstrip s = [] <-> forallb isspace s = true.
Proof.
  unfold rstrip. rewrite <- (forallb_rev_eq isspace s).
  rewrite <- dropwhile_nil_iff. split.
  - intros H. apply (f_equal (@rev _)) in H. rewrite rev_involutive in H. exact H.
  - intros ->; reflexivity.
Qed.

Lemma rstrip_snoc_keep (s : str) c : isspace c = false -> rstrip (s ++ [c]) = s ++ [c].
Proof.
  intros Hc. unfold rstrip. rewrite rev_app_distr. simpl. rewrite Hc.
  simpl. rewrite rev_involutive. reflexivity.
Qed.

Lemma rstrip_snoc_drop (s : str) c : isspace c = true -> rstrip (s ++ [c]) = rstrip s.
Proof.
  intros Hc. unfold rstrip. rewrite rev_app_distr. simpl. rewrite Hc. reflexivity.
Qed.

(** A string that [rstrip] leaves alone is empty or ends in a character that
    is not whitespace. *)
Lemma rstrip_fixed_iff (s : str) :
  rstrip s = s <-> s = [] \/ exists s' c, s = s' ++ [c] /\ isspace c = false.
Proof.
  split.
  - intros H. destruct (rev s) as [|c r] eqn:E.
    + left. apply (f_equal (@rev _)) in E. rewrite rev_involutive in E. exact E.
    + right. exists (rev r), c.
      assert (Es : s = rev r ++ [c]).
      { apply (f_equal (@rev _)) in E. rewrite rev_involutive in E. exact E. }
      split; [exact Es|].
      destruct (isspace c) eqn:Hc; [|reflexivity].
      exfalso. unfold rstrip in H. rewrite E in H. simpl in H. rewrite Hc in H.
      apply (f_equal (@List.length _)) in H.
      rewrite Es, length_rev, length_app in H. simpl in H.
      destruct (dropwhile_split isspace r) as [pre [Hp _]].
      apply (f_equal (@List.length _)) in Hp. rewrite length_app in Hp.
      rewrite length_rev in H. lia.
  - intros [-> | [s' [c [-> Hc]]]]; [reflexivity | apply rstrip_snoc_keep; exact Hc].
Qed.

Lemma lstrip_nil_iff (s : str) : lstrip s = [] <-> forallb isspace s = true.
Proof. apply dropwhile_nil_iff. Qed.

Lemma forallb_dropwhile (p : Ascii.ascii -> bool) (s : str) :
  forallb p s = true -> forallb p (dropwhile p s) = true.
Proof. intros H. apply dropwhile_nil_iff in H. rewrite H. reflexivity. Qed.

Lemma strip_nil_iff (s : str) : strip s = [] <-> forallb isspace s = true.
Proof.
  unfold strip. rewrite rstrip_nil_iff. unfold lstrip.
  destruct (dropwhile_split isspace s) as [pre [E F]].
  split; intros H.
  - rewrite E, forallb_app, F, H. reflexivity.
  - apply forallb_dropwhile; exact H.
Qed.

Lemma rstrip_strip (s : str) : rstrip (strip s) = strip s.
Proof. unfold strip. apply rstrip_idem. Qed.

(** A string left alone by [rstrip] is whitespace only when it is empty. *)
Lemma rstripped_space_nil (s : str) :
  rstrip s = s -> forallb isspace s = true -> s = [].
Proof. intros H F. apply rstrip_nil_iff in F. congruence. Qed.


(** ** Formatting a number *)

(** Reading a string of digits back, leading zeros included. *)
Definition read_back (s : str) : option N :=
  option_map N.of_uint (NilEmpty.uint_of_string (string_of_list_ascii s)).

Lemma read_back_zero (s : str) :
  read_back (ascii_of_nat 48 :: s) = read_back s.
Proof.
  unfold read_back. simpl.
  destruct (NilEmpty.uint_of_string (string_of_list_ascii s)); reflexivity.
Qed.

Lemma read_back_zeros (k : nat) (s : str) :
  read_back (repeat (ascii_of_nat 48) k ++ s) = read_back s.
Proof.
  induction k as [|k IH]; [reflexivity|].
  simpl repeat. rewrite <- app_comm_cons, read_back_zero. exact IH.
Qed.

Lemma read_back_decimal (n : N) : read_back (decimal n) = Some n.
Proof.
  unfold read_back, decimal, lit. rewrite string_of_list_ascii_of_string.
  rewrite <- (DecimalN.Unsigned.of_to n) at 2.
  destruct (N.to_uint n) as [|d|d|d|d|d|d|d|d|d|d]; [reflexivity | ..];
    unfold NilZero.string_of_uint; rewrite NilEmpty.usu; reflexivity.
Qed.

Lemma zero_pad_read_back (w : nat) (n : N) : read_back (zero_pad w n) = Some n.
Proof. unfold zero_pad. rewrite read_back_zeros. apply read_back_decimal. Qed.

(** Two numbers with the same padded form are the same number. *)
Lemma zero_pad_inj (w : nat) (n m : N) : zero_pad w n = zero_pad w m -> n = m.
Proof.
  intros H. apply (f_equal read_back) in H.
  rewrite !zero_pad_read_back in H. congruence.
Qed.

Lemma zero_pad_length (w : nat) (n : N) : w <= List.length (zero_pad w n).
Proof. unfold zero_pad. rewrite length_app, repeat_length. lia. Qed.

(** ** Whitespace around a string *)

Lemma dropwhile_app_all (p : Ascii.ascii -> bool) (a t : str) :
  forallb p a = true -> dropwhile p (a ++ t) = dropwhile p t.
Proof.
  induction a as [|c a IH]; simpl; [reflexivity|].
  intros H. apply andb_true_iff in H as [Hc Ha]. rewrite Hc. apply IH, Ha.
Qed.

Lemma lstrip_app_space (a t : str) :
  forallb isspace a = true -> lstrip (a ++ t) = lstrip t.
Proof. apply dropwhile_app_all. Qed.

Lemma rstrip_app_space (t b : str) :
  forallb isspace b = true -> rstrip (t ++ b) = rstrip t.
Proof.
  intros H. unfold rstrip. rewrite rev_app_distr, dropwhile_app_all; [reflexivity|].
  rewrite forallb_rev_eq. exact H.
Qed.

(** A string with no whitespace at either end. *)
Definition tight (m : str) : Prop := lstrip m = m /\ rstrip m = m.

Lemma lstrip_fixed_head (c : Ascii.ascii) (m : str) :
  lstrip (c :: m) = c :: m -> isspace c = false.
Proof.
  unfold lstrip. simpl. destruct (isspace c) eqn:Hc; [|reflexivity].
  intros H. exfalso.
  destruct (dropwhile_split isspace m) as [pre [E _]].
  apply (f_equal (@List.length _)) in E. rewrite length_app in E.
  apply (f_equal (@List.length _)) in H. simpl in H. lia.
Qed.

Lemma strip_sandwich (a m b : str) :
  forallb isspace a = true -> forallb isspace b = true -> tight m ->
  strip (a ++ m ++ b) = m.
Proof.
  intros Ha Hb [L R]. unfold strip. rewrite (lstrip_app_space a _ Ha).
  destruct m as [|c m].
  - simpl. apply lstrip_nil_iff in Hb. rewrite Hb. reflexivity.
  - pose proof (lstrip_fixed_head c m L) as Hc.
    unfold lstrip. simpl. rewrite Hc.
    change (c :: m ++ b) with ((c :: m) ++ b).
    rewrite (rstrip_app_space _ b Hb). exact R.
Qed.

Lemma strip_tight (m : str) : tight m -> strip m = m.
Proof.
  intros T. rewrite <- (strip_sandwich [] m [] eq_refl eq_refl T) at 2.
  rewrite List.app_nil_r. reflexivity.
Qed.

Lemma lstrip_snoc_tight (x : str) (c : Ascii.ascii) :
  isspace c = false -> tight (lstrip (x ++ [c])) /\ lstrip (x ++ [c]) = lstrip x ++ [c].
Proof.
  intros Hc.
  assert (E : lstrip (x ++ [c]) = lstrip x ++ [c]).
  { unfold lstrip. apply dropwhile_app_stop. exact Hc. }
  split; [|exact E]. split.
  - unfold lstrip. apply dropwhile_idem.
  - rewrite E. apply rstrip_snoc_keep. exact Hc.
Qed.

Lemma strip_is_tight (s : str) : tight (strip s).
Proof.
  unfold strip. split; [|apply rstrip_idem].
  destruct (rev (lstrip s)) as [|c r] eqn:E.
  - apply (f_equal (@rev _)) in E. rewrite rev_involutive in E. rewrite E. reflexivity.
  - unfold rstrip. rewrite E.
    destruct (lstrip s) as [|d m] eqn:L; [discriminate E|].
    pose proof (dropwhile_head isspace s d m L) as Hd.
    destruct (dropwhile isspace (c :: r)) as [|c' r'] eqn:D; [reflexivity|].
    destruct (dropwhile_split isspace (c :: r)) as [pre [Ep _]].
    rewrite D in Ep. rewrite <- E in Ep.
    apply (f_equal (@rev _)) in Ep.
    rewrite rev_involutive, rev_app_distr in Ep.
    destruct (rev (c' :: r')) as [|e t] eqn:Er.
    + apply (f_equal (@rev _)) in Er. rewrite rev_involutive in Er. discriminate Er.
    + simpl in Ep. injection Ep as <- _. unfold lstrip. simpl. rewrite Hd. reflexivity.
Qed.

Lemma strip_idem (s : str) : strip (strip s) = strip s.
Proof. apply strip_tight, strip_is_tight. Qed.

Lemma strip_decompose (s : str) :
  exists a b, s = a ++ strip s ++ b
              /\ forallb isspace a = true /\ forallb isspace b = true.
Proof.
  destruct (dropwhile_split isspace s) as [a [Ea Fa]].
  destruct (dropwhile_split isspace (rev (lstrip s))) as [b [Eb Fb]].
  exists a, (rev b). split; [|split; [exact Fa | rewrite forallb_rev_eq; exact Fb]].
  unfold strip, rstrip. rewrite <- rev_app_distr, <- Eb, rev_involutive. exact Ea.
Qed.
End PyFacts.

(* ================================================================= *)
(** * Facts about dictionaries *)

Module DictFacts.
Import Py PyFacts PyDict.

Section Facts.
Variable V : Type.
Implicit Types (d : dict V) (k : str) (v : V).

Lemma get_set_same k v d : get k (set k v d) = Some v.
Proof.
  induction d as [|[k' v'] d IH]; simpl.
  - rewrite str_eqb_refl; reflexivity.
  - destruct (str_eqb k' k) eqn:E; simpl; rewrite E; [reflexivity | exact IH].
Qed.

Lemma get_set_other k k' v d : k <> k' -> get k' (set k v d) = get k' d.
Proof.
  intros N. induction d as [|[k0 v0] d IH]; simpl.
  - apply str_eqb_neq in N. rewrite N; reflexivity.
  - destruct (str_eqb k0 k) eqn:E; simpl.
    + apply str_eqb_eq in E; subst k0.
      apply str_eqb_neq in N. rewrite N; reflexivity.
    + destruct (str_eqb k0 k'); [reflexivity | exact IH].
Qed.

Lemma get_none_iff k d : get k d = None <-> ~ In k (keys d).
Proof.
  induction d as [|[k' v'] d IH]; simpl; [tauto|].
  destruct (str_eqb k' k) eqn:E.
  - apply str_eqb_eq in E. split; [discriminate | intros H; exfalso; auto].
  - apply str_eqb_neq in E. rewrite IH. tauto.
Qed.

Lemma get_some_in k v d : get k d = Some v -> In (k, v) d.
Proof.
  induction d as [|[k' v'] d IH]; simpl; [discriminate|].
  destruct (str_eqb k' k) eqn:E.
  - apply str_eqb_eq in E. intros H; left; congruence.
  - intros H; right; auto.
Qed.

Lemma in_get k v d : NoDup (keys d) -> In (k, v) d -> get k d = Some v.
Proof.
  induction d as [|[k' v'] d IH]; simpl; [tauto|].
  intros ND [H | H].
  - injection H as -> ->. rewrite str_eqb_refl; reflexivity.
  - inversion ND as [|? ? Hn ND']; subst.
    destruct (str_eqb k' k) eqn:E.
    + apply str_eqb_eq in E; subst k'. exfalso; apply Hn.
      change k with (fst (k, v)). apply in_map; exact H.
    + apply IH; assumption.
Qed.

Lemma keys_set_present k v d :
  In k (keys d) -> keys (set k v d) = keys d.
Proof.
  induction d as [|[k' v'] d IH]; simpl; [tauto|].
  intros H. destruct (str_eqb k' k) eqn:E; simpl; [reflexivity|].
  f_equal. apply IH. destruct H as [H|H]; [|exact H].
  apply str_eqb_neq in E; congruence.
Qed.

Lemma keys_set_absent k v d :
  ~ In k (keys d) -> keys (set k v d) = keys d ++ [k].
Proof.
  induction d as [|[k' v'] d IH]; simpl; [reflexivity|].
  intros H. destruct (str_eqb k' k) eqn:E; simpl.
  - apply str_eqb_eq in E; exfalso; auto.
  - f_equal. apply IH. tauto.
Qed.

Lemma keys_set k v d :
  keys (set k v d) = if contains k d then keys d else keys d ++ [k].
Proof.
  unfold contains. destruct (get k d) eqn:E.
  - apply keys_set_present. destruct (in_dec (list_eq_dec Ascii.ascii_dec) k (keys d)) as [H|H];
      [exact H|]. apply get_none_iff in H. congruence.
  - apply keys_set_absent. apply get_none_iff; exact E.
Qed.

Lemma NoDup_keys_set k v d : NoDup (keys d) -> NoDup (keys (set k v d)).
Proof.
  intros ND. rewrite keys_set. destruct (contains k d) eqn:E; [exact ND|].
  unfold contains in E. destruct (get k d) eqn:G; [discriminate|].
  apply get_none_iff in G.
  apply NoDup_app; [exact ND | constructor; [simpl; tauto | constructor] |].
  intros x Hx [<- | []]. auto.
Qed.

Lemma length_set_ge k v d : List.length d <= List.length (set k v d).
Proof.
  induction d as [|[k' v'] d IH]; simpl; [lia|].
  destruct (str_eqb k' k); simpl; lia.
Qed.
End Facts.

End DictFacts.

(* ================================================================= *)
(** * Facts about the converter *)

Module ConvertFacts.
Import Py PyFacts Convert.

(** ** The patterns *)

Lemma span_digits_spec (s : str) :
  forall ds r, span_digits s = (ds, r) ->
    s = ds ++ r /\ forallb isdigit ds = true.
Proof.
  induction s as [|c s IH]; simpl; intros ds r H.
  - injection H as <- <-; auto.
  - destruct (isdigit c) eqn:Hc.
    + destruct (span_digits s) as [ds' r'] eqn:E. injection H as <- <-.
      destruct (IH _ _ eq_refl) as [-> F]. simpl. rewrite Hc, F. auto.
    + injection H as <- <-; auto.
Qed.

Lemma span_digits_app (ds r : str) :
  forallb isdigit ds = true ->
  match r with [] => True | c :: _ => isdigit c = false end ->
  span_digits (ds ++ r) = (ds, r).
Proof.
  intros F Hr. induction ds as [|d ds IH]; simpl.
  - destruct r as [|c r]; simpl; [reflexivity | rewrite Hr; reflexivity].
  - simpl in F. apply andb_true_iff in F as [Hd F].
    rewrite Hd, (IH F). reflexivity.
Qed.

(** Group 1 of a question start is a non-empty string of digits. *)
Lemma QSTART_group1 (line g1 : str) g2 :
  QSTART_RE_match line = Some (g1, g2) ->
  str_truthy g1 = true /\ forallb isdigit g1 = true.
Proof.
  unfold QSTART_RE_match.
  destruct (span_digits (lstrip line)) as [ds r] eqn:E.
  destruct ds as [|d ds]; [discriminate|].
  destruct r as [|c rest]; [discriminate|].
  destruct (Ascii.eqb c "."); [|discriminate].
  destruct (tail_match rest); [|discriminate].
  intros H; injection H as <- <-.
  split; [reflexivity | apply (span_digits_spec _ _ _ E)].
Qed.

(** Group 1 of a year heading is four digits. *)
Lemma YEAR_group1 (line y : str) :
  YEAR_RE_match line = Some y ->
  List.length y = 4 /\ forallb isdigit y = true.
Proof.
  unfold YEAR_RE_match.
  destruct (List.length (firstn 4 (lstrip line)) =? 4) eqn:L; [|discriminate].
  destruct (forallb isdigit (firstn 4 (lstrip line))) eqn:D; [|discriminate].
  destruct (forallb isspace (skipn 4 (lstrip line))); [|discriminate].
  simpl. intros H; injection H as <-. apply Nat.eqb_eq in L. auto.
Qed.

(** No line is both a year heading and a question start: after the digits a
    year heading has whitespace or nothing, a question start a period. *)
Lemma YEAR_excludes_QSTART (line y : str) :
  YEAR_RE_match line = Some y -> QSTART_RE_match line = None.
Proof.
  unfold YEAR_RE_match, QSTART_RE_match.
  set (s := lstrip line).
  destruct (List.length (firstn 4 s) =? 4) eqn:L; [|discriminate].
  destruct (forallb isdigit (firstn 4 s)) eqn:D; [|discriminate].
  destruct (forallb isspace (skipn 4 s)) eqn:W; [|discriminate].
  intros _. rewrite <- (firstn_skipn 4 s).
  rewrite span_digits_app; [| exact D |].
  - destruct (firstn 4 s); [reflexivity|].
    destruct (skipn 4 s) as [|c rest]; [reflexivity|].
    simpl in W. apply andb_true_iff in W as [Wc _].
    destruct (Ascii.eqb_spec c "."); [subst c; discriminate | reflexivity].
  - destruct (skipn 4 s) as [|c rest]; [exact I|].
    simpl in W. apply andb_true_iff in W as [Wc _].
    destruct (isdigit c) eqn:Dc; [|reflexivity].
    apply digit_not_space in Dc. congruence.
Qed.

Lemma QSTART_excludes_YEAR (line : str) m :
  QSTART_RE_match line = Some m -> YEAR_RE_match line = None.
Proof.
  intros H. destruct (YEAR_RE_match line) eqn:E; [|reflexivity].
  apply YEAR_excludes_QSTART in E. congruence.
Qed.

(** A question start holds a digit, so it is not a blank line. *)
Lemma QSTART_not_blank (line : str) m :
  QSTART_RE_match line = Some m -> forallb isspace line = false.
Proof.
  unfold QSTART_RE_match. intros H.
  destruct (span_digits (lstrip line)) as [ds r] eqn:E.
  destruct ds as [|d ds]; [discriminate|].
  destruct (span_digits_spec _ _ _ E) as [Es F].
  destruct (forallb isspace line) eqn:W; [|reflexivity].
  apply lstrip_nil_iff in W. rewrite W in Es. discriminate.
Qed.

(** ** Case analysis of a flush and of a step *)

Inductive flush_case (st : State) : State -> Prop :=
| flush_nothing :
    current_qnum st = None \/ current_year st = None ->
    flush_case st st
| flush_record qnum year n :
    current_qnum st = Some qnum ->
    current_year st = Some year ->
    py_int qnum = Ok n ->
    flush_case st (after_flush st year n).

Lemma flush_inv (st st' : State) :
  flush_question st = Ok st' -> flush_case st st'.
Proof.
  unfold flush_question.
  destruct (current_qnum st) as [qnum|] eqn:Q.
  - destruct (current_year st) as [year|] eqn:Y.
    + destruct (py_int qnum) as [n|e] eqn:E; simpl; [|discriminate].
      intros H; injection H as <-. eapply flush_record; eauto.
    + intros H; injection H as <-. apply flush_nothing; auto.
  - intros H; injection H as <-. apply flush_nothing; auto.
Qed.

Inductive step_case (st : State) (line : str) : State -> Prop :=
| step_year year st1 :
    YEAR_RE_match line = Some year ->
    flush_case st st1 ->
    step_case st line (set_current_year year st1)
| step_open qnum g2 st1 :
    opt_truthy (current_year st) = true ->
    QSTART_RE_match line = Some (qnum, g2) ->
    is_none (current_qnum st) || PyDict.truthy (options st) = true ->
    flush_case st st1 ->
    step_case st line (open_question qnum (strip (group_or_empty g2)) st1)
| step_subpoint m :
    opt_truthy (current_year st) = true ->
    QSTART_RE_match line = Some m ->
    is_none (current_qnum st) = false ->
    options st = [] ->
    step_case st line (append_q_line line st)
| step_option letter g2 :
    opt_truthy (current_year st) = true ->
    is_none (current_qnum st) = false ->
    OPT_RE_match line = Some (letter, g2) ->
    step_case st line (mark_option letter (strip (group_or_empty g2)) st)
| step_continuation :
    opt_truthy (current_year st) = true ->
    is_none (current_qnum st) = false ->
    YEAR_RE_match line = None ->
    QSTART_RE_match line = None ->
    OPT_RE_match line = None ->
    step_case st line (continuation line st)
| step_discard :
    opt_truthy (current_year st) && negb (is_none (current_qnum st)) = false ->
    step_case st line st.

Lemma step_inv (st st' : State) (raw : str) :
  step st raw = Ok st' -> step_case st (rstrip raw) st'.
Proof.
  unfold step. set (line := rstrip raw).
  destruct (YEAR_RE_match line) as [year|] eqn:Y.
  - destruct (flush_question st) as [st1|e] eqn:F; simpl; [|discriminate].
    intros H; injection H as <-. apply step_year; [exact Y | apply flush_inv; exact F].
  - destruct (opt_truthy (current_year st)) eqn:T.
    + destruct (QSTART_RE_match line) as [[qnum g2]|] eqn:Q.
      * destruct (is_none (current_qnum st) || PyDict.truthy (options st)) eqn:C.
        -- destruct (flush_question st) as [st1|e] eqn:F; simpl; [|discriminate].
           intros H; injection H as <-.
           eapply step_open; eauto using flush_inv.
        -- intros H; injection H as <-.
           apply orb_false_iff in C as [C1 C2].
           eapply step_subpoint; eauto.
           destruct (options st); [reflexivity | discriminate].
      * simpl. destruct (is_none (current_qnum st)) eqn:N; simpl.
        -- intros H; injection H as <-. apply step_discard. rewrite T, N; reflexivity.
        -- destruct (OPT_RE_match line) as [[letter g2]|] eqn:O;
             intros H; injection H as <-.
           ++ eapply step_option; eauto.
           ++ apply step_continuation; auto.
    + simpl. intros H; injection H as <-. apply step_discard. rewrite T; reflexivity.
Qed.

(** An invariant of the steps holds after any run. *)
Lemma run_invariant (P : State -> Prop) :
  (forall st raw st', P st -> step st raw = Ok st' -> P st') ->
  forall lines st st', P st -> run st lines = Ok st' -> P st'.
Proof.
  intros Hstep. induction lines as [|raw lines IH]; simpl; intros st st' HP H.
  - injection H as <-; exact HP.
  - destruct (step st raw) as [st1|e] eqn:E; simpl in H; [|discriminate].
    eapply IH; [eapply Hstep; eauto | exact H].
Qed.

Lemma run_app (l1 l2 : list str) (st : State) :
  run st (l1 ++ l2) = (st1 <- run st l1 ;; run st1 l2).
Proof.
  revert st. induction l1 as [|raw l1 IH]; simpl; intros st; [reflexivity|].
  destruct (step st raw); simpl; [apply IH | reflexivity].
Qed.


(** ** The question number and [int] *)

(** A string that [int] converts: decimal digits, not empty, no more than
    the limit. *)
Definition readable (s : str) : Prop :=
  str_truthy s = true /\ forallb isdigit s = true
  /\ List.length s <= int_max_str_digits.

Lemma py_int_readable (s : str) : readable s -> py_int s = Ok (digits_value s).
Proof.
  intros [T [D L]]. unfold py_int. rewrite T, D. cbn [andb].
  apply Nat.leb_le in L. rewrite L. reflexivity.
Qed.

Lemma py_int_Ok (s : str) (n : N) :
  py_int s = Ok n -> readable s /\ n = digits_value s.
Proof.
  unfold py_int, readable.
  destruct (str_truthy s); [|discriminate].
  destruct (forallb isdigit s); [|discriminate]. cbn [andb].
  destruct (Nat.leb_spec (List.length s) int_max_str_digits) as [L|L]; [|discriminate].
  intros H. injection H as <-. auto.
Qed.

Lemma py_int_long (s : str) :
  int_max_str_digits < List.length s -> py_int s = Raise ValueError.
Proof.
  intros L. unfold py_int.
  destruct (str_truthy s && forallb isdigit s); [|reflexivity].
  destruct (Nat.leb_spec (List.length s) int_max_str_digits) as [L'|_]; [lia | reflexivity].
Qed.

(** The number of the open question can be converted. *)
Definition qnum_ok (st : State) : Prop :=
  forall qnum, current_qnum st = Some qnum -> readable qnum.

(** The line is no question start with a number beyond the limit of
    [int]. *)
Definition short_number (raw : str) : Prop :=
  forall g1 g2, QSTART_RE_match (rstrip raw) = Some (g1, g2) ->
                List.length g1 <= int_max_str_digits.

Lemma flush_total (st : State) :
  qnum_ok st -> exists st', flush_question st = Ok st'.
Proof.
  intros H. unfold flush_question.
  destruct (current_qnum st) as [qnum|] eqn:Q; [|eauto].
  destruct (current_year st) as [year|]; [|eauto].
  rewrite (py_int_readable _ (H _ Q)). simpl. eauto.
Qed.

Lemma flush_case_qnum_ok (st st' : State) :
  flush_case st st' -> qnum_ok st -> qnum_ok st'.
Proof.
  intros [H | qnum year n Q Y E] Hok; [exact Hok|].
  intros q; simpl; discriminate.
Qed.

Lemma step_case_qnum_ok (st st' : State) (line : str) :
  step_case st line st' -> qnum_ok st ->
  (forall g1 g2, QSTART_RE_match line = Some (g1, g2) ->
                 List.length g1 <= int_max_str_digits) ->
  qnum_ok st'.
Proof.
  intros C Hok Short. destruct C; try exact Hok.
  - apply (flush_case_qnum_ok _ _ H0) in Hok. exact Hok.
  - intros q; simpl. intros E; injection E as <-.
    destruct (QSTART_group1 _ _ _ H0) as [T D].
    split; [exact T|]. split; [exact D|]. eapply Short; eauto.
  - unfold continuation.
    destruct (in_options st && opt_truthy (current_opt st)); [|exact Hok].
    destruct (current_opt st); [|exact Hok].
    destruct (str_truthy (strip line)); exact Hok.
Qed.

Lemma step_total (st : State) (raw : str) :
  qnum_ok st -> exists st', step st raw = Ok st'.
Proof.
  intros Hok. unfold step.
  destruct (flush_total st Hok) as [st1 F].
  destruct (YEAR_RE_match (rstrip raw)); [rewrite F; simpl; eauto|].
  destruct (if opt_truthy (current_year st) then QSTART_RE_match (rstrip raw) else None)
    as [[qnum g2]|].
  - destruct (is_none (current_qnum st) || PyDict.truthy (options st));
      [rewrite F; simpl; eauto | eauto].
  - destruct (opt_truthy (current_year st) && negb (is_none (current_qnum st)));
      [|eauto].
    destruct (OPT_RE_match (rstrip raw)) as [[letter g2]|]; eauto.
Qed.

Lemma run_total (lines : list str) :
  Forall short_number lines ->
  forall st, qnum_ok st -> exists st', run st lines = Ok st' /\ qnum_ok st'.
Proof.
  induction 1 as [|raw lines Short F IH]; simpl; intros st Hok; [eauto|].
  destruct (step_total st raw Hok) as [st1 E]. rewrite E. simpl.
  apply IH. eapply step_case_qnum_ok; [apply step_inv; exact E | exact Hok | exact Short].
Qed.

Lemma init_qnum_ok : qnum_ok init_state.
Proof. intros q; simpl; discriminate. Qed.

(** [parse_text] raises on no text whose question numbers [int] converts. *)
Lemma parse_text_ok (text : str) :
  Forall short_number (splitlines text) -> exists ys, parse_text text = Ok ys.
Proof.
  intros Short. unfold parse_text.
  destruct (run_total (splitlines text) Short init_state init_qnum_ok) as [st [R Hok]].
  rewrite R. simpl.
  destruct (flush_total st Hok) as [st' F]. rewrite F. simpl. eauto.
Qed.


(** ** What a step does to [years] *)

Lemma get_append_same (year : str) (q : Question) (ys : Years) :
  PyDict.get year (append_question year q ys)
  = Some (PyDict.get_default year [] ys ++ [q]).
Proof.
  unfold append_question, PyDict.setdefault, PyDict.get_default.
  destruct (PyDict.get year ys); apply DictFacts.get_set_same.
Qed.

Lemma get_append_other (year y : str) (q : Question) (ys : Years) :
  year <> y -> PyDict.get y (append_question year q ys) = PyDict.get y ys.
Proof.
  intros N. unfold append_question, PyDict.setdefault.
  destruct (PyDict.get year ys);
    repeat rewrite DictFacts.get_set_other by exact N; reflexivity.
Qed.

Lemma NoDup_keys_append (year : str) (q : Question) (ys : Years) :
  NoDup (PyDict.keys ys) -> NoDup (PyDict.keys (append_question year q ys)).
Proof.
  intros ND. unfold append_question, PyDict.setdefault.
  destruct (PyDict.get year ys); repeat apply DictFacts.NoDup_keys_set; exact ND.
Qed.

(** The list of a year, empty when the year has no entry. *)
Definition questions_of (y : str) (ys : Years) : list Question :=
  PyDict.get_default y [] ys.

Lemma questions_of_append (year y : str) (q : Question) (ys : Years) :
  questions_of y (append_question year q ys)
  = if str_eqb year y then questions_of y ys ++ [q] else questions_of y ys.
Proof.
  unfold questions_of, PyDict.get_default at 1.
  destruct (str_eqb year y) eqn:E.
  - apply str_eqb_eq in E; subst y. rewrite get_append_same. reflexivity.
  - apply str_eqb_neq in E. rewrite (get_append_other _ _ q ys E). reflexivity.
Qed.

(** How [years] changes in a flush, and so in a step: not at all, or by the
    record of the open question, appended under the current year. *)
Inductive years_case (st : State) : Years -> Prop :=
| years_same : years_case st (years st)
| years_append qnum year n :
    current_qnum st = Some qnum ->
    current_year st = Some year ->
    py_int qnum = Ok n ->
    years_case st (append_question year (make_record st year n) (years st)).

Lemma flush_case_years (st st' : State) :
  flush_case st st' -> years_case st (years st').
Proof.
  intros [H | qnum year n Q Y E]; [constructor|].
  simpl. econstructor; eauto.
Qed.

Lemma continuation_years (line : str) (st : State) :
  years (continuation line st) = years st.
Proof.
  unfold continuation.
  destruct (in_options st && opt_truthy (current_opt st)); [|reflexivity].
  destruct (current_opt st); [|reflexivity].
  destruct (str_truthy (strip line)); reflexivity.
Qed.

Lemma step_case_years (st st' : State) (line : str) :
  step_case st line st' -> years_case st (years st').
Proof.
  intros C. destruct C; simpl;
    try (apply flush_case_years; assumption); try constructor.
  rewrite continuation_years. constructor.
Qed.

Lemma step_years (st st' : State) (raw : str) :
  step st raw = Ok st' -> years_case st (years st').
Proof. intros H. eapply step_case_years, step_inv, H. Qed.

Lemma flush_years (st st' : State) :
  flush_question st = Ok st' -> years_case st (years st').
Proof. intros H. apply flush_case_years, flush_inv, H. Qed.

(** ** Records of the result *)

Lemma flush_appends (st st' : State) (year qnum : str) :
  current_year st = Some year -> current_qnum st = Some qnum ->
  flush_question st = Ok st' ->
  exists n, py_int qnum = Ok n /\ st' = after_flush st year n.
Proof.
  intros Y Q. unfold flush_question. rewrite Q, Y.
  destruct (py_int qnum) as [n|e]; simpl; [|discriminate].
  intros H; injection H as <-. eauto.
Qed.

Lemma after_flush_questions (st : State) (year : str) (n : N) :
  questions_of year (years (after_flush st year n))
  = questions_of year (years st) ++ [make_record st year n].
Proof. simpl. rewrite questions_of_append, str_eqb_refl. reflexivity. Qed.

(** Every record of every year satisfies [P]. *)
Definition years_all (P : str -> Question -> Prop) (ys : Years) : Prop :=
  forall y qs q, PyDict.get y ys = Some qs -> In q qs -> P y q.

Lemma years_all_append (P : str -> Question -> Prop) year q (ys : Years) :
  years_all P ys -> P year q -> years_all P (append_question year q ys).
Proof.
  intros A Hq y qs q' G Hin.
  destruct (str_eqb year y) eqn:E.
  - apply str_eqb_eq in E; subst y. rewrite get_append_same in G.
    injection G as <-. apply in_app_or in Hin as [Hin | [<- | []]]; [|exact Hq].
    unfold PyDict.get_default in Hin.
    destruct (PyDict.get year ys) as [l|] eqn:G; [eapply A; eauto | destruct Hin].
  - apply str_eqb_neq in E. rewrite (get_append_other _ _ q ys E) in G. eapply A; eauto.
Qed.

Section Records.
Variable P : str -> Question -> Prop.
Hypothesis P_record : forall st year n, P year (make_record st year n).

Lemma years_case_all (st : State) (ys' : Years) :
  years_case st ys' -> years_all P (years st) -> years_all P ys'.
Proof.
  intros [| qnum year n Q Y E] A; [exact A|].
  apply years_all_append; [exact A | apply P_record].
Qed.

Lemma run_records (lines : list str) (st st' : State) :
  years_all P (years st) -> run st lines = Ok st' -> years_all P (years st').
Proof.
  apply (run_invariant (fun s => years_all P (years s))).
  intros s raw s' A H. eapply years_case_all; [eapply step_years; eauto | exact A].
Qed.

Lemma parse_text_records (text : str) (ys : Years) :
  parse_text text = Ok ys -> years_all P ys.
Proof.
  unfold parse_text.
  destruct (run init_state (splitlines text)) as [st|e] eqn:R; simpl; [|discriminate].
  destruct (flush_question st) as [st'|e] eqn:F; simpl; [|discriminate].
  intros H; injection H as <-.
  eapply years_case_all; [eapply flush_years; eauto|].
  eapply run_records; [|exact R]. intros y qs q G. discriminate.
Qed.
End Records.

(** ** The lists of [years] only grow, at their end *)

Lemma keys_append_present (year : str) (q : Question) (ys : Years) :
  In year (PyDict.keys ys) ->
  PyDict.keys (append_question year q ys) = PyDict.keys ys.
Proof.
  intros Hin. unfold append_question, PyDict.setdefault.
  destruct (PyDict.get year ys) eqn:G.
  - apply DictFacts.keys_set_present; exact Hin.
  - apply DictFacts.get_none_iff in G. contradiction.
Qed.

Lemma years_case_extends (st : State) (ys' : Years) (y : str) :
  years_case st ys' ->
  exists more, questions_of y ys' = questions_of y (years st) ++ more.
Proof.
  intros [| qnum year n Q Y E].
  - exists []. rewrite List.app_nil_r. reflexivity.
  - rewrite questions_of_append. destruct (str_eqb year y); eauto.
    exists []. rewrite List.app_nil_r. reflexivity.
Qed.

Lemma run_extends (y : str) (lines : list str) (st st' : State) :
  run st lines = Ok st' ->
  exists more, questions_of y (years st') = questions_of y (years st) ++ more.
Proof.
  intros R.
  apply (run_invariant
           (fun s => exists more,
                questions_of y (years s) = questions_of y (years st) ++ more))
    with (lines := lines) (st := st); [| | exact R].
  - intros s raw s' [more E] H.
    destruct (years_case_extends s (years s') y (step_years _ _ _ H)) as [more' E'].
    exists (more ++ more'). rewrite E', E, List.app_assoc. reflexivity.
  - exists []. rewrite List.app_nil_r. reflexivity.
Qed.

Lemma years_case_NoDup (st : State) (ys' : Years) :
  years_case st ys' -> NoDup (PyDict.keys (years st)) -> NoDup (PyDict.keys ys').
Proof.
  intros [| qnum year n Q Y E] ND; [exact ND | apply NoDup_keys_append; exact ND].
Qed.

(** ** The stem *)

Lemma blank_fully_blank (ln : str) : blank ln = StemSpec.fully_blank ln.
Proof.
  unfold blank, StemSpec.fully_blank.
  destruct (forallb isspace ln) eqn:W.
  - apply strip_nil_iff in W. rewrite W. reflexivity.
  - destruct (strip ln) eqn:E; [|reflexivity].
    apply strip_nil_iff in E. congruence.
Qed.

Lemma strip_eqb_nil (ln : str) : str_eqb (strip ln) [] = blank ln.
Proof. apply str_eqb_nil_r. Qed.

Lemma pop_blank_front_trim (lines : list str) :
  pop_blank_front lines = StemSpec.trim_leading lines.
Proof.
  induction lines as [|ln rest IH]; simpl; [reflexivity|].
  rewrite blank_fully_blank, IH. reflexivity.
Qed.

Lemma pop_blank_back_trim (lines : list str) :
  pop_blank_back lines = StemSpec.trim_trailing lines.
Proof.
  unfold pop_blank_back, StemSpec.trim_trailing.
  rewrite pop_blank_front_trim. reflexivity.
Qed.

(** No line of the list has whitespace at its end. *)
Definition rstripped (lines : list str) : Prop :=
  Forall (fun ln => rstrip ln = ln) lines.

Lemma rstripped_blank_nil (ln : str) :
  rstrip ln = ln -> StemSpec.fully_blank ln = true -> ln = [].
Proof. apply rstripped_space_nil. Qed.

Lemma rstripped_trim_leading (lines : list str) :
  rstripped lines -> rstripped (StemSpec.trim_leading lines).
Proof.
  induction 1 as [|ln rest H F IH]; simpl; [constructor|].
  destruct (StemSpec.fully_blank ln); [exact IH | constructor; assumption].
Qed.

Lemma rstripped_trim_trailing (lines : list str) :
  rstripped lines -> rstripped (StemSpec.trim_trailing lines).
Proof.
  intros H. unfold StemSpec.trim_trailing.
  apply Forall_rev, rstripped_trim_leading, Forall_rev, H.
Qed.

(** The list without its first line when that line is blank. *)
Definition drop_head_blank (lines : list str) : list str :=
  match lines with
  | ln :: rest => if StemSpec.fully_blank ln then rest else lines
  | [] => []
  end.

Lemma collapse_head_nonblank (ln : str) (rest : list str) :
  StemSpec.fully_blank ln = false ->
  StemSpec.collapse_runs (ln :: rest) = ln :: StemSpec.collapse_runs rest.
Proof.
  intros H. simpl. rewrite H. destruct rest; reflexivity.
Qed.

Lemma collapse_head_blank (rest : list str) :
  forall ln, rstripped (ln :: rest) -> StemSpec.fully_blank ln = true ->
    exists tl, StemSpec.collapse_runs (ln :: rest) = [] :: tl.
Proof.
  induction rest as [|next rest IH]; intros ln R B.
  - inversion R as [|? ? Hln _]; subst.
    rewrite (rstripped_blank_nil ln Hln B). simpl. eauto.
  - inversion R as [|? ? Hln R']; subst.
    change (StemSpec.collapse_runs (ln :: next :: rest))
      with (if StemSpec.fully_blank ln && StemSpec.fully_blank next
            then StemSpec.collapse_runs (next :: rest)
            else ln :: StemSpec.collapse_runs (next :: rest)).
    rewrite B. destruct (StemSpec.fully_blank next) eqn:Bn; simpl andb; cbv iota.
    + apply IH; assumption.
    + rewrite (rstripped_blank_nil ln Hln B). eauto.
Qed.

(** On lines without trailing whitespace the third loop of
    [finalize_question_text] collapses the runs of blank lines. *)
Lemma squeeze_collapse (lines : list str) :
  rstripped lines ->
  squeeze false lines = StemSpec.collapse_runs lines
  /\ squeeze true lines = drop_head_blank (StemSpec.collapse_runs lines).
Proof.
  induction 1 as [|ln rest Hln R [IH1 IH2]]; [split; reflexivity|].
  assert (S : forall p, squeeze p (ln :: rest)
                        = if StemSpec.fully_blank ln
                          then (if p then squeeze true rest else [] :: squeeze true rest)
                          else ln :: squeeze false rest).
  { intros p. simpl. rewrite strip_eqb_nil, blank_fully_blank, Hln. reflexivity. }
  rewrite !S. destruct (StemSpec.fully_blank ln) eqn:B.
  - destruct rest as [|next rest'].
    + rewrite (rstripped_blank_nil ln Hln B). split; reflexivity.
    + change (StemSpec.collapse_runs (ln :: next :: rest'))
        with (if StemSpec.fully_blank ln && StemSpec.fully_blank next
              then StemSpec.collapse_runs (next :: rest')
              else ln :: StemSpec.collapse_runs (next :: rest')).
      rewrite B, IH2. destruct (StemSpec.fully_blank next) eqn:Bn; simpl andb; cbv iota.
      * destruct (collapse_head_blank rest' next R Bn) as [tl E].
        rewrite E. simpl. split; reflexivity.
      * rewrite (collapse_head_nonblank next rest' Bn).
        rewrite (rstripped_blank_nil ln Hln B). simpl. rewrite Bn. split; reflexivity.
  - rewrite (collapse_head_nonblank ln rest B), IH1. simpl. rewrite B.
    split; reflexivity.
Qed.

(** [finalize_question_text] is the stem of the specification on the lines
    the parser collects. *)
Lemma finalize_refines (lines : list str) :
  rstripped lines -> finalize_question_text lines = StemSpec.stem lines.
Proof.
  intros R. unfold finalize_question_text, finalize_out, StemSpec.stem.
  rewrite pop_blank_front_trim, pop_blank_back_trim.
  f_equal. apply squeeze_collapse.
  apply rstripped_trim_trailing, rstripped_trim_leading, R.
Qed.

Lemma flush_case_rstripped (st st' : State) :
  flush_case st st' -> rstripped (q_lines st) -> rstripped (q_lines st').
Proof. intros [H | qnum year n Q Y E] R; [exact R | constructor]. Qed.

Lemma rstripped_snoc (lines : list str) (ln : str) :
  rstripped lines -> rstrip ln = ln -> rstripped (lines ++ [ln]).
Proof. intros R H. apply Forall_app. split; [exact R | constructor; [exact H | constructor]]. Qed.

Lemma continuation_q_lines (line : str) (st : State) :
  q_lines (continuation line st) = q_lines st
  \/ q_lines (continuation line st) = q_lines st ++ [line].
Proof.
  unfold continuation.
  destruct (in_options st && opt_truthy (current_opt st)); [|right; reflexivity].
  destruct (current_opt st); [|left; reflexivity].
  destruct (str_truthy (strip line)); left; reflexivity.
Qed.

Lemma step_case_rstripped (st st' : State) (line : str) :
  rstrip line = line -> step_case st line st' ->
  rstripped (q_lines st) -> rstripped (q_lines st').
Proof.
  intros L C R. destruct C; simpl.
  - eapply flush_case_rstripped; eauto.
  - pose proof (flush_case_rstripped _ _ H2 R) as R1.
    destruct (str_truthy (strip (group_or_empty g2))); [|exact R1].
    apply rstripped_snoc; [exact R1 | apply rstrip_strip].
  - apply rstripped_snoc; assumption.
  - exact R.
  - destruct (continuation_q_lines line st) as [-> | ->];
      [exact R | apply rstripped_snoc; assumption].
  - exact R.
Qed.

Lemma run_rstripped (lines : list str) (st : State) :
  run init_state lines = Ok st -> rstripped (q_lines st).
Proof.
  apply (run_invariant (fun s => rstripped (q_lines s))); [|constructor].
  intros s raw s' R H. apply step_inv in H.
  eapply step_case_rstripped; [apply rstrip_idem | exact H | exact R].
Qed.

(** A line that is not blank stays where it is in the stem. *)
Lemma pop_blank_front_stop (pre post : list str) (line : str) :
  blank line = false ->
  pop_blank_front (pre ++ line :: post) = pop_blank_front pre ++ line :: post.
Proof.
  intros B. induction pre as [|ln pre IH]; simpl; [rewrite B; reflexivity|].
  destruct (blank ln); [exact IH | reflexivity].
Qed.

Lemma pop_blank_back_stop (pre post : list str) (line : str) :
  blank line = false ->
  pop_blank_back (pre ++ line :: post) = pre ++ line :: pop_blank_back post.
Proof.
  intros B. unfold pop_blank_back.
  rewrite rev_app_distr. simpl. rewrite <- List.app_assoc. simpl.
  rewrite (pop_blank_front_stop _ _ _ B), rev_app_distr. simpl.
  rewrite rev_involutive, <- List.app_assoc. reflexivity.
Qed.

Lemma squeeze_stop (pre post : list str) (line : str) :
  blank line = false ->
  forall p, squeeze p (pre ++ line :: post)
            = squeeze p pre ++ rstrip line :: squeeze false post.
Proof.
  intros B. induction pre as [|ln pre IH]; intros p; simpl.
  - rewrite strip_eqb_nil, B. reflexivity.
  - destruct (str_eqb (strip ln) []); [destruct p|]; simpl; rewrite IH; reflexivity.
Qed.


(** ** The four states of the parser

    In a state the parser can reach, a question is open only under a year,
    [in_options] tells whether [options] has an entry, and nothing is
    collected while no question is open. *)

Definition state_inv (st : State) : Prop :=
  (current_qnum st <> None -> opt_truthy (current_year st) = true)
  /\ in_options st = PyDict.truthy (options st)
  /\ (current_qnum st = None -> options st = [] /\ q_lines st = []).

Lemma truthy_set {V : Type} (k : str) (v : V) (d : PyDict.dict V) :
  PyDict.truthy (PyDict.set k v d) = true.
Proof.
  destruct d as [|[k' v'] d]; simpl; [reflexivity|].
  destruct (str_eqb k' k); reflexivity.
Qed.

Lemma flush_case_inv (st st' : State) :
  flush_case st st' -> state_inv st -> state_inv st'.
Proof.
  intros [H | qnum year n Q Y E] I; [exact I|].
  repeat split; simpl; congruence.
Qed.

Lemma flush_case_closed (st st' : State) :
  flush_case st st' -> state_inv st ->
  opt_truthy (current_year st) = true ->
  current_qnum st' = None /\ options st' = [] /\ q_lines st' = []
  /\ current_year st' = current_year st.
Proof.
  intros [[H | H] | qnum year n Q Y E] [I1 [I2 I3]] T.
  - destruct (I3 H) as [-> ->]. auto.
  - rewrite H in T. discriminate.
  - simpl. auto.
Qed.

Lemma step_case_inv (st st' : State) (line : str) :
  step_case st line st' -> state_inv st -> state_inv st'.
Proof.
  intros C I. destruct C.
  - pose proof (flush_case_inv _ _ H0 I) as [J1 [J2 J3]].
    split; [|split]; simpl; try assumption.
    intros _. destruct (YEAR_group1 _ _ H) as [L _].
    destruct year; [discriminate L | reflexivity].
  - destruct (flush_case_closed _ _ H2 I H) as [Q [O [L Y]]].
    split; [|split]; simpl.
    + intros _. rewrite Y. exact H.
    + rewrite O. reflexivity.
    + discriminate.
  - destruct I as [I1 [I2 I3]].
    split; [|split]; simpl; try assumption.
    intros Q. rewrite Q in H1. discriminate.
  - destruct I as [I1 [I2 I3]].
    split; [|split]; simpl; try assumption.
    + unfold place_option. rewrite truthy_set. reflexivity.
    + intros Q. rewrite Q in H0. discriminate.
  - destruct I as [I1 [I2 I3]].
    assert (N : current_qnum st = None -> False).
    { intros Q. rewrite Q in H0. discriminate. }
    unfold continuation.
    destruct (in_options st && opt_truthy (current_opt st)) eqn:A.
    + destruct (current_opt st) as [letter|]; [|split; [|split]; assumption].
      destruct (str_truthy (strip line)); [|split; [|split]; assumption].
      apply andb_true_iff in A as [A _].
      split; [|split]; simpl; try assumption.
      * rewrite truthy_set. exact A.
      * intros Q. destruct (N Q).
    + split; [|split]; simpl; try assumption.
      intros Q. destruct (N Q).
  - exact I.
Qed.

Lemma init_state_inv : state_inv init_state.
Proof. repeat split; simpl; auto; congruence. Qed.

Lemma run_state_inv (lines : list str) (st : State) :
  run init_state lines = Ok st -> state_inv st.
Proof.
  apply (run_invariant state_inv); [|apply init_state_inv].
  intros s raw s' I H. eapply step_case_inv; [apply step_inv; exact H | exact I].
Qed.

(** ** The numbers that are flushed

    A ghost trace next to the run: the year and the number of the question
    each step flushes, read off the states before and after. *)

(** What was flushed between the state [st] and the mapping [ys']: the open
    question of [st], when the list of its year has grown by one. *)
Definition flushed_by (st : State) (ys' : Years) : list (str * N) :=
  match current_year st, current_qnum st with
  | Some year, Some qnum =>
      if List.length (questions_of year ys')
         =? S (List.length (questions_of year (years st)))
      then match py_int qnum with Ok n => [(year, n)] | Raise _ => [] end
      else []
  | _, _ => []
  end.

(** The flushes of a run over [lines] and of the final flush. *)
Fixpoint run_trace (st : State) (lines : list str) : list (str * N) :=
  match lines with
  | [] =>
      match flush_question st with
      | Ok st' => flushed_by st (years st')
      | Raise _ => []
      end
  | raw :: rest =>
      match step st raw with
      | Ok st' => flushed_by st (years st') ++ run_trace st' rest
      | Raise _ => []
      end
  end.

(** The numbers flushed under the year [y], in order. *)
Definition numbers_of (y : str) (trace : list (str * N)) : list N :=
  map snd (filter (fun e => str_eqb (fst e) y) trace).

Definition id_of (year : str) (n : N) : str :=
  lit "POL-" ++ year ++ lit "-" ++ zero_pad 2 n.

Lemma id_of_inj (year : str) (n m : N) : id_of year n = id_of year m -> n = m.
Proof.
  unfold id_of. intros H.
  apply app_inv_head in H. apply app_inv_head in H. apply app_inv_head in H.
  eapply zero_pad_inj; exact H.
Qed.

Lemma numbers_of_app (y : str) (t1 t2 : list (str * N)) :
  numbers_of y (t1 ++ t2) = numbers_of y t1 ++ numbers_of y t2.
Proof. unfold numbers_of. rewrite filter_app, map_app. reflexivity. Qed.

Lemma years_case_trace (st : State) (ys' : Years) (y : str) :
  years_case st ys' ->
  map q_id (questions_of y ys')
  = map q_id (questions_of y (years st))
    ++ map (id_of y) (numbers_of y (flushed_by st ys')).
Proof.
  intros [| qnum year n Q Y E]; unfold flushed_by.
  - replace (numbers_of y _) with (@nil N); [rewrite List.app_nil_r; reflexivity|].
    destruct (current_year st) as [year|]; [|reflexivity].
    destruct (current_qnum st) as [qnum|]; [|reflexivity].
    destruct (Nat.eqb_spec (List.length (questions_of year (years st)))
                (S (List.length (questions_of year (years st))))) as [H|_];
      [lia | reflexivity].
  - rewrite Y, Q, E.
    rewrite (questions_of_append year year), str_eqb_refl, length_app.
    simpl List.length. rewrite Nat.add_1_r, Nat.eqb_refl.
    rewrite questions_of_append. unfold numbers_of. simpl.
    destruct (str_eqb year y) eqn:Ey; simpl.
    + apply str_eqb_eq in Ey. subst y. rewrite map_app. reflexivity.
    + rewrite List.app_nil_r. reflexivity.
Qed.

Lemma run_trace_ids (y : str) (lines : list str) :
  forall st st1 st2,
    run st lines = Ok st1 -> flush_question st1 = Ok st2 ->
    map q_id (questions_of y (years st2))
    = map q_id (questions_of y (years st))
      ++ map (id_of y) (numbers_of y (run_trace st lines)).
Proof.
  induction lines as [|raw rest IH]; simpl; intros st st1 st2 R F.
  - injection R as <-. rewrite F.
    apply years_case_trace, flush_years, F.
  - destruct (step st raw) as [st'|e] eqn:S; simpl in R; [|discriminate].
    rewrite (IH st' st1 st2 R F).
    rewrite (years_case_trace st (years st') y (step_years _ _ _ S)).
    rewrite numbers_of_app, map_app, List.app_assoc. reflexivity.
Qed.

Lemma NoDup_map_id_of (y : str) (ns : list N) :
  NoDup (map (id_of y) ns) <-> NoDup ns.
Proof.
  split; [apply NoDup_map_inv|].
  apply NoDup_map_NoDup_ForallPairs. intros n m _ _. apply id_of_inj.
Qed.

(** ** When a year has its entry *)

(** No list of the mapping is empty. *)
Definition lists_inhabited (ys : Years) : Prop :=
  forall y qs, PyDict.get y ys = Some qs -> qs <> [].

Lemma years_case_inhabited (st : State) (ys' : Years) :
  years_case st ys' -> lists_inhabited (years st) -> lists_inhabited ys'.
Proof.
  intros [| qnum year n Q Y E] I; [exact I|].
  intros y qs G. destruct (str_eqb year y) eqn:Ey.
  - apply str_eqb_eq in Ey. subst y. rewrite get_append_same in G.
    injection G as <-. intros H. apply app_eq_nil in H as [_ H]. discriminate H.
  - apply str_eqb_neq in Ey. rewrite (get_append_other _ _ _ _ Ey) in G.
    exact (I y qs G).
Qed.

Lemma run_inhabited (lines : list str) (st : State) :
  run init_state lines = Ok st -> lists_inhabited (years st).
Proof.
  apply (run_invariant (fun s => lists_inhabited (years s)));
    [|intros y qs G; discriminate G].
  intros s raw s' I H. exact (years_case_inhabited s _ (step_years _ _ _ H) I).
Qed.

Lemma keys_append_absent (year : str) (q : Question) (ys : Years) :
  ~ In year (PyDict.keys ys) ->
  PyDict.keys (append_question year q ys) = PyDict.keys ys ++ [year].
Proof.
  intros Hn. unfold append_question, PyDict.setdefault.
  destruct (PyDict.get year ys) eqn:G.
  - exfalso. apply Hn. apply DictFacts.get_some_in in G.
    change year with (fst (year, l)). apply in_map, G.
  - rewrite DictFacts.keys_set_present.
    + apply DictFacts.keys_set_absent, Hn.
    + rewrite (DictFacts.keys_set_absent _ _ _ _ Hn). apply in_or_app.
      right. left. reflexivity.
Qed.

(** The year [y] has an entry after the final flush exactly when the run
    has flushed a question under it. *)
Lemma entry_iff_flushed (lines : list str) (st1 st2 : State) (y : str) :
  run init_state lines = Ok st1 -> flush_question st1 = Ok st2 ->
  In y (PyDict.keys (years st2))
  <-> numbers_of y (run_trace init_state lines) <> [].
Proof.
  intros R F.
  pose proof (run_trace_ids y lines init_state st1 st2 R F) as T.
  change (map q_id (questions_of y (years init_state))) with (@nil str) in T.
  cbn [app] in T.
  assert (I : lists_inhabited (years st2)).
  { apply (years_case_inhabited st1 _ (flush_years _ _ F)).
    exact (run_inhabited lines st1 R). }
  split.
  - intros Hin E. rewrite E in T. cbn [map] in T.
    destruct (PyDict.get y (years st2)) as [qs|] eqn:G.
    + unfold questions_of, PyDict.get_default in T. rewrite G in T.
      apply (I y qs G). destruct qs; [reflexivity | discriminate T].
    + apply DictFacts.get_none_iff in G. contradiction.
  - intros NE. destruct (PyDict.get y (years st2)) as [qs|] eqn:G.
    + apply DictFacts.get_some_in in G.
      change y with (fst (y, qs)). apply in_map, G.
    + exfalso. apply NE. unfold questions_of, PyDict.get_default in T.
      rewrite G in T. cbn [map] in T.
      destruct (numbers_of y (run_trace init_state lines)); [reflexivity | discriminate T].
Qed.
End ConvertFacts.

(* ================================================================= *)
(** * The matchers agree with the patterns *)

Module RegexFacts.
Import Py PyFacts Regex Convert ConvertFacts.

(** ** Inversion of the parses *)

Lemma class_inv p s rest g :
  parses (Class p) s rest g -> exists c, s = [c] /\ p c = true /\ g = no_groups.
Proof. intros H. inversion H; subst. eauto. Qed.

Lemma seq_inv r1 r2 s rest g :
  parses (Seq r1 r2) s rest g ->
  exists s1 s2 g1 g2,
    s = s1 ++ s2 /\ g = merge g1 g2
    /\ parses r1 s1 (s2 ++ rest) g1 /\ parses r2 s2 rest g2.
Proof. intros H. inversion H; subst. eauto 10. Qed.

Lemma maybe_inv r s rest g :
  parses (Maybe r) s rest g ->
  (s = [] /\ g = no_groups) \/ parses r s rest g.
Proof. intros H. inversion H; subst; auto. Qed.

Lemma group_inv n r s rest g :
  parses (Group n r) s rest g ->
  exists g', g = with_group n s g' /\ parses r s rest g'.
Proof. intros H. inversion H; subst. eauto. Qed.

Lemma end_inv s rest g :
  parses EndOfString s rest g ->
  s = [] /\ g = no_groups /\ forallb isspace rest = true.
Proof.
  intros H. inversion H as [| | | | | | |? [-> | ->]]; subst; auto.
Qed.

(** No group is set. *)
Definition silent (g : groups) : Prop := forall n, g n = None.

Lemma star_class_inv p s rest g :
  parses (Star (Class p)) s rest g -> forallb p s = true /\ silent g.
Proof.
  intros H. remember (Star (Class p)) as r eqn:E.
  induction H as [| | | r s1 s2 rest g1 g2 H1 _ H2 IH2| | | |]; try discriminate.
  - split; [reflexivity | intros n; reflexivity].
  - injection E as ->.
    destruct (class_inv _ _ _ _ H1) as [c [-> [Hc ->]]].
    destruct (IH2 eq_refl) as [F S].
    split; [simpl; rewrite Hc, F; reflexivity|].
    intros n. unfold merge. rewrite (S n). reflexivity.
Qed.

Lemma star_class_intro p s rest :
  forallb p s = true -> exists g, parses (Star (Class p)) s rest g /\ silent g.
Proof.
  induction s as [|c s IH]; simpl; intros H.
  - exists no_groups. split; [constructor | intros n; reflexivity].
  - apply andb_true_iff in H as [Hc Hs]. destruct (IH Hs) as [g [P S]].
    exists (merge no_groups g). split.
    + apply (parses_star_more (Class p) [c] s rest no_groups g);
        [constructor; exact Hc | exact P].
    + intros n. unfold merge. rewrite (S n). reflexivity.
Qed.

(** ** The tail of a question start and of an option marker *)

Lemma not_LF_of_nonspace (c : Ascii.ascii) : isspace c = false -> is_LF c = false.
Proof.
  intros H. destruct (is_LF c) eqn:E; [|reflexivity].
  apply Ascii.eqb_eq in E. subst c. discriminate H.
Qed.

Lemma no_LF_dropwhile (p : Ascii.ascii -> bool) (x : str) :
  existsb is_LF x = false -> existsb is_LF (dropwhile p x) = false.
Proof.
  induction x as [|c x IH]; simpl; [auto|].
  intros H. apply orb_false_iff in H as [Hc Hx].
  destruct (p c); [apply IH, Hx | simpl; rewrite Hc, Hx; reflexivity].
Qed.

Lemma forallb_not_LF (x : str) :
  forallb (fun c => negb (is_LF c)) x = true -> existsb is_LF x = false.
Proof.
  induction x as [|c x IH]; simpl; [auto|].
  intros H. apply andb_true_iff in H as [Hc Hx].
  apply negb_true_iff in Hc. rewrite Hc, (IH Hx). reflexivity.
Qed.

Lemma not_LF_forallb (x : str) :
  existsb is_LF x = false -> forallb (fun c => negb (is_LF c)) x = true.
Proof.
  induction x as [|c x IH]; simpl; [auto|].
  intros H. apply orb_false_iff in H as [Hc Hx].
  rewrite Hc, (IH Hx). reflexivity.
Qed.


(** Proves an equation between two bracketings of one concatenation. *)
Ltac app_eq :=
  repeat (progress (cbn [app]; rewrite ?List.app_nil_r, <- ?List.app_assoc));
  reflexivity.

Ltac read_groups :=
  unfold merge, with_group, no_groups; simpl;
  repeat match goal with
         | S : silent ?g |- context [?g ?n] => rewrite (S n)
         end;
  simpl.

(** Every parse of the tail has, up to the whitespace around it, the
    group 2 of [tail_match]. *)
Lemma tail_sound (s rest : str) (g : groups) :
  parses TAIL s rest g ->
  exists g2,
    tail_match (s ++ rest) = Some g2
    /\ strip (group_or_empty (g 2)) = strip (group_or_empty g2)
    /\ g 1 = None.
Proof.
  unfold TAIL. intros H.
  destruct (seq_inv _ _ _ _ _ H) as [w1 [s1 [ga [gb [-> [-> [Hw1 H1]]]]]]].
  destruct (seq_inv _ _ _ _ _ H1) as [B [s2 [gc [gd [-> [-> [HB H2]]]]]]].
  destruct (seq_inv _ _ _ _ _ H2) as [w2 [e [ge [gf [-> [-> [Hw2 He]]]]]]].
  destruct (star_class_inv _ _ _ _ Hw1) as [Fw1 Sa].
  destruct (star_class_inv _ _ _ _ Hw2) as [Fw2 Se].
  destruct (end_inv _ _ _ He) as [-> [-> Fr]].
  clear H H1 H2 Hw1 Hw2 He.
  assert (Fb : forallb isspace (w2 ++ rest) = true).
  { rewrite forallb_app, Fw2, Fr. reflexivity. }
  replace ((w1 ++ B ++ w2 ++ []) ++ rest) with (w1 ++ B ++ (w2 ++ rest))
    by (rewrite List.app_nil_r, <- !List.app_assoc; reflexivity).
  set (b := w2 ++ rest) in *.
  unfold tail_match.
  destruct (maybe_inv _ _ _ _ HB) as [[-> ->] | HG].
  - exists None. cbn [app].
    assert (E : strip (w1 ++ b) = []).
    { apply strip_nil_iff. rewrite forallb_app, Fw1, Fb. reflexivity. }
    rewrite E. read_groups. auto.
  - destruct (group_inv _ _ _ _ _ HG) as [g' [-> HS]].
    destruct (seq_inv _ _ _ _ _ HS) as [x [l [gx [gl [-> [-> [Hx Hl]]]]]]].
    destruct (class_inv _ _ _ _ Hl) as [c [-> [Hc ->]]].
    destruct (star_class_inv _ _ _ _ Hx) as [Fx Sx].
    clear HB HG HS Hx Hl.
    apply negb_true_iff in Hc.
    destruct (lstrip_snoc_tight x c Hc) as [T E].
    destruct (dropwhile_split isspace (x ++ [c])) as [a [Ea Fa]].
    fold (lstrip (x ++ [c])) in Ea.
    assert (NE : str_truthy (lstrip x ++ [c]) = true) by (destruct (lstrip x); reflexivity).
    assert (NB : str_truthy (x ++ [c]) = true) by (destruct x; reflexivity).
    assert (NL : existsb is_LF (lstrip x ++ [c]) = false).
    { rewrite existsb_app. simpl. rewrite (not_LF_of_nonspace c Hc).
      unfold lstrip. rewrite (no_LF_dropwhile isspace x (forallb_not_LF x Fx)).
      reflexivity. }
    rewrite E in T, Ea.
    set (L := lstrip x ++ [c]) in *.
    assert (S1 : strip (w1 ++ (x ++ [c]) ++ b) = L).
    { rewrite Ea.
      replace (w1 ++ (a ++ L) ++ b) with ((w1 ++ a) ++ L ++ b)
        by (rewrite <- !List.app_assoc; reflexivity).
      apply strip_sandwich; [|exact Fb | exact T].
      rewrite forallb_app, Fw1, Fa. reflexivity. }
    assert (S2 : strip (x ++ [c]) = L).
    { rewrite Ea. rewrite <- (List.app_nil_r L) at 1.
      apply strip_sandwich; [exact Fa | reflexivity | exact T]. }
    exists (Some L).
    rewrite S1, NE, NL. split; [reflexivity|]. split.
    + read_groups. rewrite NB, NE, S2. symmetry. apply strip_tight, T.
    + read_groups. reflexivity.
Qed.

(** When [tail_match] succeeds, the tail has a parse with its group 2. *)
Lemma tail_complete (r : str) (g2 : option str) :
  tail_match r = Some g2 ->
  exists g, parses TAIL r [] g /\ g 2 = g2 /\ g 1 = None.
Proof.
  unfold tail_match. intros H.
  destruct (strip_decompose r) as [a [b [E [Fa Fb]]]].
  destruct (star_class_intro isspace b [] Fb) as [gb [Pb Sb]].
  assert (Pe : parses (Seq (Star space) EndOfString) (b ++ []) [] (merge gb no_groups)).
  { apply parses_seq; [exact Pb | apply parses_end; auto]. }
  rewrite List.app_nil_r in Pe.
  destruct (str_truthy (strip r)) eqn:T.
  - destruct (existsb is_LF (strip r)) eqn:NL; [discriminate|].
    injection H as <-.
    destruct (strip_is_tight r) as [_ R].
    apply rstrip_fixed_iff in R as [R | [x [c [Ex Hc]]]];
      [rewrite R in T; discriminate|].
    rewrite Ex in NL. rewrite existsb_app in NL.
    apply orb_false_iff in NL as [NLx _].
    destruct (star_class_intro (fun c => negb (is_LF c)) x ([c] ++ b ++ [])
                (not_LF_forallb x NLx)) as [gx [Px Sx]].
    destruct (star_class_intro isspace a ((strip r ++ b) ++ []) Fa) as [ga [Pa Sa]].
    assert (Pg : parses (Maybe (Group 2 (Seq (Star any) nonspace))) (strip r) (b ++ [])
                   (with_group 2 (strip r) (merge gx no_groups))).
    { apply parses_maybe, parses_group. rewrite Ex.
      apply parses_seq; [exact Px|]. apply parses_class. rewrite Hc. reflexivity. }
    exists (merge ga (merge (with_group 2 (strip r) (merge gx no_groups))
                        (merge gb no_groups))).
    split; [|split].
    + rewrite E at 1. unfold TAIL.
      apply parses_seq; [exact Pa|]. apply parses_seq; [exact Pg | exact Pe].
    + read_groups. reflexivity.
    + read_groups. reflexivity.
  - injection H as <-. apply str_truthy_false in T.
    rewrite T in E. simpl in E.
    destruct (star_class_intro isspace a (([] ++ b) ++ []) Fa) as [ga [Pa Sa]].
    exists (merge ga (merge no_groups (merge gb no_groups))).
    split; [|split].
    + rewrite E. unfold TAIL.
      apply (parses_seq _ _ a ([] ++ b)); [exact Pa|].
      apply (parses_seq _ _ [] b [] no_groups); [|exact Pe].
      apply parses_maybe_not.
    + read_groups. reflexivity.
    + read_groups. reflexivity.
Qed.

Lemma lstrip_digit_head (w : str) (d : Ascii.ascii) (t : str) :
  forallb isspace w = true -> isspace d = false -> lstrip (w ++ d :: t) = d :: t.
Proof.
  intros Fw Hd. rewrite (lstrip_app_space w _ Fw). unfold lstrip. simpl.
  rewrite Hd. reflexivity.
Qed.

(** X20: every parse of [YEAR_RE] has the group 1 of [YEAR_RE_match], which
    succeeds exactly when there is a parse. *)
Theorem YEAR_RE_agrees (line : str) :
  (forall g, matches YEAR_RE line g ->
             exists y, YEAR_RE_match line = Some y /\ g 1 = Some y)
  /\ (forall y, YEAR_RE_match line = Some y ->
                exists g, matches YEAR_RE line g /\ g 1 = Some y).
Proof.
  split.
  - intros g [s [rest [-> H]]]. unfold YEAR_RE in H.
    destruct (seq_inv _ _ _ _ _ H) as [w1 [s1 [ga [gb [-> [-> [Hw1 H1]]]]]]].
    destruct (seq_inv _ _ _ _ _ H1) as [D [s2 [gc [gd [-> [-> [HD H2]]]]]]].
    destruct (seq_inv _ _ _ _ _ H2) as [w2 [e [ge [gf [-> [-> [Hw2 He]]]]]]].
    destruct (star_class_inv _ _ _ _ Hw1) as [Fw1 Sa].
    destruct (star_class_inv _ _ _ _ Hw2) as [Fw2 Se].
    destruct (end_inv _ _ _ He) as [-> [-> Fr]].
    destruct (group_inv _ _ _ _ _ HD) as [g' [-> HS]].
    destruct (seq_inv _ _ _ _ _ HS) as [x1 [t1 [h1 [k1 [-> [-> [P1 Q1]]]]]]].
    destruct (seq_inv _ _ _ _ _ Q1) as [x2 [t2 [h2 [k2 [-> [-> [P2 Q2]]]]]]].
    destruct (seq_inv _ _ _ _ _ Q2) as [x3 [x4 [h3 [h4 [-> [-> [P3 P4]]]]]]].
    destruct (class_inv _ _ _ _ P1) as [c1 [-> [D1 ->]]].
    destruct (class_inv _ _ _ _ P2) as [c2 [-> [D2 ->]]].
    destruct (class_inv _ _ _ _ P3) as [c3 [-> [D3 ->]]].
    destruct (class_inv _ _ _ _ P4) as [c4 [-> [D4 ->]]].
    clear H H1 H2 Hw1 Hw2 He HD HS P1 P2 P3 P4 Q1 Q2.
    exists [c1; c2; c3; c4]. split; [|read_groups; reflexivity].
    unfold YEAR_RE_match.
    replace ((w1 ++ ([c1] ++ [c2] ++ [c3] ++ [c4]) ++ w2 ++ []) ++ rest)
      with (w1 ++ c1 :: [c2; c3; c4] ++ w2 ++ rest)
      by app_eq.
    rewrite (lstrip_digit_head w1 c1 _ Fw1 (digit_not_space c1 D1)).
    simpl. rewrite D1, D2, D3, D4, forallb_app, Fw2, Fr. reflexivity.
  - intros y H. unfold YEAR_RE_match in H.
    destruct (dropwhile_split isspace line) as [w1 [E Fw1]].
    fold (lstrip line) in E.
    rewrite <- (firstn_skipn 4 (lstrip line)) in E.
    remember (firstn 4 (lstrip line)) as D eqn:ED.
    remember (skipn 4 (lstrip line)) as w2 eqn:Ew.
    destruct (List.length D =? 4) eqn:L4; [|discriminate].
    destruct (forallb isdigit D) eqn:FD; [|discriminate].
    destruct (forallb isspace w2) eqn:FS; [|discriminate].
    simpl in H. injection H as <-.
    destruct D as [|c1 [|c2 [|c3 [|c4 [|c5 t]]]]]; try discriminate L4.
    simpl in FD. rewrite andb_true_r in FD.
    apply andb_true_iff in FD as [D1 FD]. apply andb_true_iff in FD as [D2 FD].
    apply andb_true_iff in FD as [D3 D4].
    destruct (star_class_intro isspace w1 (([c1; c2; c3; c4] ++ w2 ++ []) ++ []) Fw1)
      as [ga [Pa Sa]].
    destruct (star_class_intro isspace w2 ([] ++ []) FS) as [ge [Pe Se]].
    eexists. split.
    + exists line, []. split; [rewrite List.app_nil_r; reflexivity|].
      rewrite E at 1. unfold YEAR_RE.
      rewrite <- (List.app_nil_r w2) at 1.
      apply parses_seq; [exact Pa|].
      apply parses_seq.
      * apply parses_group.
        apply (parses_seq _ _ [c1] [c2; c3; c4]); [apply parses_class, D1|].
        apply (parses_seq _ _ [c2] [c3; c4]); [apply parses_class, D2|].
        apply (parses_seq _ _ [c3] [c4]); apply parses_class; assumption.
      * apply parses_seq; [exact Pe | apply parses_end; auto].
    + read_groups. reflexivity.
Qed.

Lemma char_class_inv (c0 : Ascii.ascii) s rest g :
  parses (char c0) s rest g -> s = [c0] /\ g = no_groups.
Proof.
  intros H. destruct (class_inv _ _ _ _ H) as [c [-> [Hc ->]]].
  apply Ascii.eqb_eq in Hc. subst c. auto.
Qed.

(** X21: every parse of [QSTART_RE] has the group 1 of [QSTART_RE_match] and,
    up to the whitespace around it, its group 2; the matcher succeeds exactly
    when there is a parse. *)
Theorem QSTART_RE_agrees (line : str) :
  (forall g, matches QSTART_RE line g ->
             exists g1 g2,
               QSTART_RE_match line = Some (g1, g2) /\ g 1 = Some g1
               /\ strip (group_or_empty (g 2)) = strip (group_or_empty g2))
  /\ (forall g1 g2, QSTART_RE_match line = Some (g1, g2) ->
                    exists g, matches QSTART_RE line g /\ g 1 = Some g1 /\ g 2 = g2).
Proof.
  split.
  - intros g [s [rest [-> H]]]. unfold QSTART_RE in H.
    destruct (seq_inv _ _ _ _ _ H) as [w1 [s1 [ga [gb [-> [-> [Hw1 H1]]]]]]].
    destruct (seq_inv _ _ _ _ _ H1) as [D [s2 [gc [gd [-> [-> [HD H2]]]]]]].
    destruct (seq_inv _ _ _ _ _ H2) as [p [t [gp [gt [-> [-> [Hp Ht]]]]]]].
    destruct (star_class_inv _ _ _ _ Hw1) as [Fw1 Sa].
    destruct (char_class_inv _ _ _ _ Hp) as [-> ->].
    destruct (group_inv _ _ _ _ _ HD) as [g' [-> HS]].
    destruct (seq_inv _ _ _ _ _ HS) as [x1 [ds [h1 [gs [-> [-> [P1 Ps]]]]]]].
    destruct (class_inv _ _ _ _ P1) as [d [-> [Dd ->]]].
    destruct (star_class_inv _ _ _ _ Ps) as [Fds Ss].
    destruct (tail_sound _ _ _ Ht) as [g2 [Tm [G2 G1]]].
    clear H H1 H2 Hw1 Hp HD HS P1 Ps Ht.
    exists (d :: ds), g2. unfold QSTART_RE_match.
    replace ((w1 ++ ([d] ++ ds) ++ ["."%char] ++ t) ++ rest)
      with (w1 ++ d :: ds ++ "."%char :: t ++ rest)
      by app_eq.
    rewrite (lstrip_digit_head w1 d _ Fw1 (digit_not_space d Dd)).
    change (d :: ds ++ "."%char :: t ++ rest)
      with ((d :: ds) ++ "."%char :: t ++ rest).
    rewrite span_digits_app; [| simpl; rewrite Dd, Fds; reflexivity | reflexivity].
    simpl. rewrite Tm.
    split; [reflexivity|]. split.
    + read_groups. rewrite G1. reflexivity.
    + read_groups. destruct (gt 2); exact G2.
  - intros g1 g2 H. unfold QSTART_RE_match in H.
    destruct (dropwhile_split isspace line) as [w1 [E Fw1]].
    fold (lstrip line) in E.
    destruct (span_digits (lstrip line)) as [D r] eqn:Sp.
    destruct (span_digits_spec _ _ _ Sp) as [El FD].
    destruct D as [|d ds]; [discriminate|].
    destruct r as [|c t]; [discriminate|].
    destruct (Ascii.eqb_spec c "."%char) as [-> | _]; [|discriminate].
    destruct (tail_match t) as [g2'|] eqn:Tm; [|discriminate].
    injection H as <- <-.
    destruct (tail_complete _ _ Tm) as [gt [Pt [G2 G1]]].
    simpl in FD. apply andb_true_iff in FD as [Dd Fds].
    destruct (star_class_intro isspace w1 (((d :: ds) ++ "."%char :: t) ++ []) Fw1)
      as [ga [Pa Sa]].
    destruct (star_class_intro isdigit ds (("."%char :: t) ++ []) Fds) as [gs [Ps Ss]].
    eexists. split; [|split].
    + exists line, []. split; [rewrite List.app_nil_r; reflexivity|].
      rewrite E, El at 1. unfold QSTART_RE.
      apply parses_seq; [exact Pa|].
      apply parses_seq.
      * apply parses_group.
        apply (parses_seq _ _ [d] ds); [apply parses_class, Dd | exact Ps].
      * apply (parses_seq _ _ ["."%char] t);
          [apply parses_class; reflexivity | exact Pt].
    + read_groups. rewrite G1. reflexivity.
    + read_groups. rewrite G2. destruct g2'; reflexivity.
Qed.

(** X22: every parse of [OPT_RE] has the group 1 of [OPT_RE_match] and, up
    to the whitespace around it, its group 2; the matcher succeeds exactly
    when there is a parse. *)
Theorem OPT_RE_agrees (line : str) :
  (forall g, matches OPT_RE line g ->
             exists g1 g2,
               OPT_RE_match line = Some (g1, g2) /\ g 1 = Some g1
               /\ strip (group_or_empty (g 2)) = strip (group_or_empty g2))
  /\ (forall g1 g2, OPT_RE_match line = Some (g1, g2) ->
                    exists g, matches OPT_RE line g /\ g 1 = Some g1 /\ g 2 = g2).
Proof.
  split.
  - intros g [s [rest [-> H]]]. unfold OPT_RE in H.
    destruct (seq_inv _ _ _ _ _ H) as [w1 [s1 [ga [gb [-> [-> [Hw1 H1]]]]]]].
    destruct (seq_inv _ _ _ _ _ H1) as [o [s2 [go [gd [-> [-> [Ho H2]]]]]]].
    destruct (seq_inv _ _ _ _ _ H2) as [l [s3 [gl [ge [-> [-> [Hl H3]]]]]]].
    destruct (seq_inv _ _ _ _ _ H3) as [p [t [gp [gt [-> [-> [Hp Ht]]]]]]].
    destruct (star_class_inv _ _ _ _ Hw1) as [Fw1 Sa].
    destruct (group_inv _ _ _ _ _ Hl) as [g' [-> Hc]].
    destruct (class_inv _ _ _ _ Hc) as [c [-> [Rc ->]]].
    destruct (class_inv _ _ _ _ Hp) as [d [-> [Rd ->]]].
    destruct (tail_sound _ _ _ Ht) as [g2 [Tm [G2 G1]]].
    assert (Sc : isspace c = false).
    { unfold isspace, in_range in *. code_cases. }
    assert (Nc : Ascii.eqb c "("%char = false).
    { apply Ascii.eqb_neq. intros ->. discriminate Rc. }
    exists [c], g2. unfold OPT_RE_match.
    destruct (maybe_inv _ _ _ _ Ho) as [[-> ->] | Hb].
    + replace ((w1 ++ [] ++ [c] ++ [d] ++ t) ++ rest)
        with (w1 ++ c :: d :: t ++ rest)
        by app_eq.
      rewrite (lstrip_digit_head w1 c _ Fw1 Sc). rewrite Nc, Rc, Rd. simpl.
      rewrite Tm. split; [reflexivity|]. split.
      * read_groups. rewrite G1. reflexivity.
      * read_groups. destruct (gt 2); exact G2.
    + destruct (char_class_inv _ _ _ _ Hb) as [-> ->].
      replace ((w1 ++ ["("%char] ++ [c] ++ [d] ++ t) ++ rest)
        with (w1 ++ "("%char :: c :: d :: t ++ rest)
        by app_eq.
      rewrite (lstrip_digit_head w1 "("%char _ Fw1 eq_refl).
      rewrite Ascii.eqb_refl, Rc, Rd. simpl.
      rewrite Tm. split; [reflexivity|]. split.
      * read_groups. rewrite G1. reflexivity.
      * read_groups. destruct (gt 2); exact G2.
  - intros g1 g2 H. unfold OPT_RE_match in H.
    destruct (dropwhile_split isspace line) as [w1 [E Fw1]].
    fold (lstrip line) in E.
    assert (K : forall (o s' : str),
               lstrip line = o ++ s' ->
               parses (Maybe (char "("%char)) o (s' ++ []) no_groups ->
               match s' with
               | c :: d :: rest =>
                   if in_range 97 100 c && (Ascii.eqb d ")" || Ascii.eqb d ".")
                   then match tail_match rest with
                        | Some g2 => Some ([c], g2)
                        | None => None
                        end
                   else None
               | _ => None
               end = Some (g1, g2) ->
               exists g, matches OPT_RE line g /\ g 1 = Some g1 /\ g 2 = g2).
    { intros o s' El Po H'.
      destruct s' as [|c [|d t]]; try discriminate.
      destruct (in_range 97 100 c) eqn:Rc; [|discriminate].
      destruct (Ascii.eqb d ")" || Ascii.eqb d ".") eqn:Rd; [|discriminate].
      destruct (tail_match t) as [g2'|] eqn:Tm; [|discriminate].
      simpl in H'. injection H' as <- <-.
      destruct (tail_complete _ _ Tm) as [gt [Pt [G2 G1]]].
      destruct (star_class_intro isspace w1 ((o ++ c :: d :: t) ++ []) Fw1)
        as [ga [Pa Sa]].
      eexists. split; [|split].
      - exists line, []. split; [rewrite List.app_nil_r; reflexivity|].
        rewrite E, El at 1. unfold OPT_RE.
        apply parses_seq; [exact Pa|].
        apply parses_seq; [exact Po|].
        apply (parses_seq _ _ [c] (d :: t));
          [apply parses_group, parses_class, Rc|].
        apply (parses_seq _ _ [d] t); [apply parses_class, Rd | exact Pt].
      - read_groups. rewrite G1. reflexivity.
      - read_groups. rewrite G2. destruct g2'; reflexivity. }
    destruct (lstrip line) as [|c s'] eqn:El.
    + discriminate.
    + destruct (Ascii.eqb_spec c "("%char) as [-> | Nc].
      * apply (K ["("%char] s' eq_refl); [|exact H].
        apply parses_maybe, parses_class. reflexivity.
      * apply (K [] (c :: s') eq_refl); [|exact H].
        apply parses_maybe_not.
Qed.
End RegexFacts.

(* ================================================================= *)
(** * Properties of the converter *)

Module ConvertProps.
Import Py PyFacts Convert ConvertFacts.

(** The lines of a text, joined by LF. *)
Definition text_of (lines : list string) : str := join [LF] (map lit lines).

(** The state in which question [qnum] of [year] is open, with the stem lines
    [stem] collected and no option marker seen. *)
Definition question_open (year qnum : str) (stem : list str) (ys : Years) : State :=
  {| years := ys; current_year := Some year; current_qnum := Some qnum;
     q_lines := stem; options := []; current_opt := None; in_options := false |}.






(** The four entries [A. ], [B. ], [C. ], [D. ], each followed by its text. *)
Definition four_options (q : Question) : Prop :=
  exists ta tb tc td,
    q_options q = [lit "A. " ++ ta; lit "B. " ++ tb; lit "C. " ++ tc; lit "D. " ++ td].

Lemma render_option_prefix (opts : PyDict.dict str) (letter : str) :
  exists t, render_option opts letter = upper letter ++ lit ". " ++ t.
Proof.
  unfold render_option.
  destruct (str_truthy (normalize_inline (PyDict.get_default letter [] opts))).
  - eauto.
  - exists []. rewrite List.app_nil_r. reflexivity.
Qed.

Lemma make_record_four_options (st : State) (year : str) (n : N) :
  four_options (make_record st year n).
Proof.
  unfold four_options, make_record, letters. cbn [q_options map].
  destruct (render_option_prefix (options st) (lit "a")) as [ta ->].
  destruct (render_option_prefix (options st) (lit "b")) as [tb ->].
  destruct (render_option_prefix (options st) (lit "c")) as [tc ->].
  destruct (render_option_prefix (options st) (lit "d")) as [td ->].
  exists ta, tb, tc, td. reflexivity.
Qed.

Lemma render_option_absent (opts : PyDict.dict str) (letter : str) :
  PyDict.get letter opts = None ->
  render_option opts letter = upper letter ++ lit ". ".
Proof.
  intros G. unfold render_option, PyDict.get_default. rewrite G. reflexivity.
Qed.

(** C5: every record [parse_text] emits has exactly four options, which begin
    with [A. ], [B. ], [C. ] and [D. ] in this order; and the record a flush
    appends has, for a letter with no entry in [options], the bare prefix
    with its trailing space at the letter's position. *)
Theorem options_always_four :
  (forall text ys y qs q,
      parse_text text = Ok ys -> PyDict.get y ys = Some qs -> In q qs ->
      four_options q)
  /\
  (forall st st' year qnum,
      current_year st = Some year -> current_qnum st = Some qnum ->
      flush_question st = Ok st' ->
      exists q,
        questions_of year (years st') = questions_of year (years st) ++ [q]
        /\ forall i letter,
            nth_error letters i = Some letter ->
            PyDict.get letter (options st) = None ->
            nth_error (q_options q) i = Some (upper letter ++ lit ". ")).
Proof.
  split.
  - intros text ys y qs q H G Hin.
    exact (parse_text_records (fun _ => four_options)
             make_record_four_options text ys H y qs q G Hin).
  - intros st st' year qnum Y Q F.
    destruct (flush_appends _ _ _ _ Y Q F) as [n [_ ->]].
    exists (make_record st year n). split; [apply after_flush_questions|].
    intros i letter Hi G. cbn [make_record q_options].
    rewrite nth_error_map, Hi. cbn [option_map].
    rewrite (render_option_absent _ _ G). reflexivity.
Qed.

(** A paper with one question, whose options (a) and (c) are given. *)
Definition two_option_text : str :=
  text_of ["2020"; "1. Q"; "(a) w"; "(c) y"]%string.

Lemma options_always_four_witness :
  four_options
    {| q_id := lit "POL-2020-01"; q_question := lit "Q";
       q_options := [lit "A. w"; lit "B. "; lit "C. y"; lit "D. "];
       q_answer := []; q_explanation := []; q_difficulty := lit "M" |}.
Proof.
  apply (proj1 options_always_four two_option_text _ (lit "2020") _ _
           eq_refl eq_refl (or_introl eq_refl)).
Defined.


(** The claim that the identifiers of a year's list are pairwise distinct. *)
Definition ids_unique (text : str) : Prop :=
  forall ys y qs,
    parse_text text = Ok ys -> PyDict.get y ys = Some qs -> NoDup (map q_id qs).

(** A paper that numbers two questions of one year alike. *)
Definition repeated_number_text : str :=
  text_of ["2020"; "1. First"; "(a) x"; "1. Second"]%string.

(** C3, as stated, fails: both records of [repeated_number_text] get the
    identifier [POL-2020-01]. *)
Lemma ids_unique_counterexample : ~ ids_unique repeated_number_text.
Proof.
  intros H.
  destruct (parse_text repeated_number_text) as [ys|e] eqn:E;
    [|vm_compute in E; discriminate E].
  specialize (H ys (lit "2020")).
  vm_compute in E. injection E as <-.
  specialize (H _ eq_refl eq_refl).
  inversion H as [|a l Hn _]. apply Hn. left. reflexivity.
Qed.

(** C3, amended: the identifiers of the list of a year [y] are, in order,
    [POL-y-NN] for the numbers [int(current_qnum)] of the questions flushed
    under [y], [NN] being the number padded with zeros to two digits at
    least; they are pairwise distinct exactly when these numbers are. *)
Theorem ids_follow_numbers (text : str) (ys : Years) (y : str) (qs : list Question) :
  parse_text text = Ok ys ->
  PyDict.get y ys = Some qs ->
  let numbers := numbers_of y (run_trace init_state (splitlines text)) in
  map q_id qs = map (fun n => lit "POL-" ++ y ++ lit "-" ++ zero_pad 2 n) numbers
  /\ (NoDup (map q_id qs) <-> NoDup numbers)
  /\ (forall n, 2 <= List.length (zero_pad 2 n)).
Proof.
  intros H G numbers.
  assert (E : map q_id qs = map (id_of y) numbers).
  { unfold parse_text in H.
    destruct (run init_state (splitlines text)) as [st1|e] eqn:R; simpl in H; [|discriminate].
    destruct (flush_question st1) as [st2|e] eqn:F; simpl in H; [|discriminate].
    injection H as <-.
    pose proof (run_trace_ids y (splitlines text) init_state st1 st2 R F) as T.
    assert (Q : questions_of y (years st2) = qs).
    { unfold questions_of, PyDict.get_default. rewrite G. reflexivity. }
    rewrite Q in T. exact T. }
  split; [exact E|]. split; [|apply zero_pad_length].
  rewrite E. apply NoDup_map_id_of.
Qed.

(** The two records of [repeated_number_text]. *)
Definition repeated_number_records : list Question :=
  [{| q_id := lit "POL-2020-01"; q_question := lit "First";
      q_options := [lit "A. x"; lit "B. "; lit "C. "; lit "D. "];
      q_answer := []; q_explanation := []; q_difficulty := lit "M" |};
   {| q_id := lit "POL-2020-01"; q_question := lit "Second";
      q_options := [lit "A. "; lit "B. "; lit "C. "; lit "D. "];
      q_answer := []; q_explanation := []; q_difficulty := lit "M" |}].

Lemma ids_follow_numbers_witness :
  NoDup (map q_id repeated_number_records) <-> NoDup [1%N; 1%N].
Proof.
  refine (proj1 (proj2 (ids_follow_numbers repeated_number_text
                          [(lit "2020", repeated_number_records)]
                          (lit "2020") repeated_number_records _ _)));
    vm_compute; reflexivity.
Defined.

(** The heading of the year [y] occurs more than once in the text. *)
Definition heading_twice (text y : str) : Prop :=
  exists l1 raw1 l2 raw2 l3,
    splitlines text = l1 ++ raw1 :: l2 ++ raw2 :: l3
    /\ YEAR_RE_match (rstrip raw1) = Some y
    /\ YEAR_RE_match (rstrip raw2) = Some y.

(** The claim that the mapping then has exactly one entry for [y]. *)
Definition one_entry (text y : str) : Prop :=
  forall ys, parse_text text = Ok ys ->
    List.length (filter (str_eqb y) (PyDict.keys ys)) = 1.

(** Two headings of one year and no question. *)
Definition two_headings_text : str := text_of ["2020"; "2020"]%string.

(** C10, as stated, fails: an entry is made by the flush of a question, not
    by a heading; two headings with no question leave the mapping empty. *)
Lemma one_entry_counterexample :
  heading_twice two_headings_text (lit "2020")
  /\ parse_text two_headings_text = Ok []
  /\ ~ one_entry two_headings_text (lit "2020").
Proof.
  split; [|split].
  - exists [], (lit "2020"), [], (lit "2020"), []. repeat split.
  - reflexivity.
  - intros H. specialize (H [] eq_refl). discriminate H.
Qed.

(** C10, amended: the mapping [parse_text] returns has at most one entry
    per year key, and a year has its entry exactly when a question was
    flushed under it, so no list is empty; a flush appends the record of
    the open question at the end of the current year's list, leaves the
    other lists alone, and adds the year's entry, after the others, only
    when the year has none; and the list of a year after any prefix of the
    lines is a prefix of that year's final list. *)
Theorem repeated_year_one_entry :
  (forall text ys,
      parse_text text = Ok ys ->
      NoDup (PyDict.keys ys)
      /\ (forall y, In y (PyDict.keys ys)
                    <-> numbers_of y (run_trace init_state (splitlines text)) <> [])
      /\ (forall y qs, PyDict.get y ys = Some qs -> qs <> []))
  /\
  (forall st st' year qnum,
      current_year st = Some year -> current_qnum st = Some qnum ->
      flush_question st = Ok st' ->
      exists n,
        py_int qnum = Ok n
        /\ questions_of year (years st')
           = questions_of year (years st) ++ [make_record st year n]
        /\ (forall y, y <> year ->
                      questions_of y (years st') = questions_of y (years st))
        /\ (In year (PyDict.keys (years st)) ->
            PyDict.keys (years st') = PyDict.keys (years st))
        /\ (~ In year (PyDict.keys (years st)) ->
            PyDict.keys (years st') = PyDict.keys (years st) ++ [year]))
  /\
  (forall text l1 l2 st1 ys y,
      splitlines text = l1 ++ l2 -> run init_state l1 = Ok st1 ->
      parse_text text = Ok ys ->
      exists more, questions_of y ys = questions_of y (years st1) ++ more).
Proof.
  split; [|split].
  - intros text ys. unfold parse_text.
    destruct (run init_state (splitlines text)) as [st|e] eqn:R; simpl; [|discriminate].
    destruct (flush_question st) as [st'|e] eqn:F; simpl; [|discriminate].
    intros H; injection H as <-. split; [|split].
    + apply (years_case_NoDup st _ (flush_years _ _ F)).
      apply (run_invariant (fun s => NoDup (PyDict.keys (years s))))
        with (lines := splitlines text) (st := init_state); [| constructor | exact R].
      intros s raw s' ND H. exact (years_case_NoDup s _ (step_years _ _ _ H) ND).
    + intros y. exact (entry_iff_flushed _ st st' y R F).
    + apply (years_case_inhabited st _ (flush_years _ _ F)).
      exact (run_inhabited _ st R).
  - intros st st' year qnum Y Q F.
    destruct (flush_appends _ _ _ _ Y Q F) as [n [E ->]].
    exists n. split; [exact E|].
    split; [apply after_flush_questions | split; [|split]].
    + intros y N. simpl. rewrite questions_of_append.
      destruct (str_eqb year y) eqn:Ey; [|reflexivity].
      apply str_eqb_eq in Ey. congruence.
    + intros Hin. simpl. apply keys_append_present; exact Hin.
    + intros Hn. simpl. apply keys_append_absent; exact Hn.
  - intros text l1 l2 st1 ys y S R1. unfold parse_text. rewrite S, run_app, R1. simpl.
    destruct (run st1 l2) as [st2|e] eqn:R2; simpl; [|discriminate].
    destruct (flush_question st2) as [st3|e] eqn:F; simpl; [|discriminate].
    intros H; injection H as <-.
    destruct (run_extends y l2 st1 st2 R2) as [m1 E1].
    destruct (years_case_extends st2 (years st3) y (flush_years _ _ F)) as [m2 E2].
    exists (m1 ++ m2). rewrite E2, E1, List.app_assoc. reflexivity.
Qed.

(** A paper in which the heading 2020 comes back after 2021. *)
Definition repeated_year_text : str :=
  text_of ["2020"; "1. A"; "2021"; "1. B"; "2020"; "2. C"]%string.

Lemma repeated_year_one_entry_witness :
  NoDup [lit "2020"; lit "2021"]
  /\ numbers_of (lit "2020") (run_trace init_state (splitlines repeated_year_text))
     <> [].
Proof.
  destruct (proj1 repeated_year_one_entry repeated_year_text
              [(lit "2020",
                [make_record (question_open (lit "2020") (lit "1") [lit "A"] [])
                   (lit "2020") 1;
                 make_record (question_open (lit "2020") (lit "2") [lit "C"] [])
                   (lit "2020") 2]);
               (lit "2021",
                [make_record (question_open (lit "2021") (lit "1") [lit "B"] [])
                   (lit "2021") 1])]
              ltac:(vm_compute; reflexivity)) as [ND [E _]].
  split; [exact ND|]. apply E. left. reflexivity.
Defined.

(** The stem lines of the specification's example, and their stem. *)
Definition pointer_lines : list str :=
  map lit [""; "Consider the following:"; ""; "1. Pointer A"; "2. Pointer B"; ""]%string.

Definition pointer_stem : str :=
  lit "Consider the following:" ++ [LF; LF]
  ++ lit "1. Pointer A" ++ [LF] ++ lit "2. Pointer B".

(** C6: when a question is flushed after any run of the parser, the stem of
    the appended record is the specification's stem of the collected lines:
    leading and trailing blank lines removed, every run of blank lines
    collapsed to one, joined with LF; and the example lines finalize to the
    example stem. *)
Theorem stem_on_flush :
  (forall raws st st' year qnum,
      run init_state raws = Ok st ->
      current_year st = Some year -> current_qnum st = Some qnum ->
      flush_question st = Ok st' ->
      exists q,
        questions_of year (years st') = questions_of year (years st) ++ [q]
        /\ q_question q = StemSpec.stem (q_lines st))
  /\ finalize_question_text pointer_lines = pointer_stem.
Proof.
  split; [|reflexivity].
  intros raws st st' year qnum R Y Q F.
  destruct (flush_appends _ _ _ _ Y Q F) as [n [_ ->]].
  exists (make_record st year n). split; [apply after_flush_questions|].
  simpl. apply finalize_refines. eapply run_rstripped; exact R.
Qed.

(** The state after the year 2020 and question 1 with the example lines. *)
Definition pointer_state : State :=
  question_open (lit "2020") (lit "1")
    (map lit ["Consider the following:"; ""; "1. Pointer A"; "2. Pointer B"; ""]%string)
    [].

Lemma stem_on_flush_witness :
  exists q,
    questions_of (lit "2020") (years (after_flush pointer_state (lit "2020") 1))
    = questions_of (lit "2020") (years pointer_state) ++ [q]
    /\ q_question q = StemSpec.stem (q_lines pointer_state).
Proof.
  apply (proj1 stem_on_flush
           (map lit ["2020"; "1. Consider the following:"; ""; "1. Pointer A";
                     "2. Pointer B"; ""]%string)
           pointer_state _ (lit "2020") (lit "1"));
    vm_compute; reflexivity.
Defined.



(** C4: in a state the parser reaches with a question open and no option
    marker seen for it, the marker lines [(a) cats] and [(a) dogs] leave
    [cats] in slot a and [dogs] in slot b, and the record that a flush then
    appends has the options [A. cats] and [B. dogs]: the slot of the second
    marker being taken, its text goes to the first free slot in the order
    a, b, c, d instead of replacing the first text. *)
Theorem duplicate_label_moves_on
  (raws : list str) (st : State) (year qnum : str) :
  run init_state raws = Ok st ->
  current_year st = Some year ->
  current_qnum st = Some qnum ->
  in_options st = false ->
  (exists st1 st2,
      step st (lit "(a) cats") = Ok st1
      /\ step st1 (lit "(a) dogs") = Ok st2
      /\ options st2 = [(lit "a", lit "cats"); (lit "b", lit "dogs")]
      /\ forall st3,
           flush_question st2 = Ok st3 ->
           exists q,
             questions_of year (years st3) = questions_of year (years st) ++ [q]
             /\ q_options q = [lit "A. cats"; lit "B. dogs"; lit "C. "; lit "D. "])
  /\ (forall opts letter text fallback,
         slot_free opts letter = false ->
         find (slot_free opts) letters = Some fallback ->
         place_option letter text opts = PyDict.set fallback text opts).
Proof.
  intros R Y Q O. split.
  - destruct (run_state_inv raws st R) as [I1 [I2 _]].
    assert (T : opt_truthy (current_year st) = true).
    { apply I1. rewrite Q. discriminate. }
    assert (O' : options st = []).
    { rewrite O in I2. destruct (options st); [reflexivity | discriminate]. }
    destruct st as [ys cy cq ql opts co io]. simpl in *. subst.
    destruct year as [|c year]; [discriminate|].
    eexists _, _.
    split; [reflexivity|]. split; [reflexivity|]. split; [reflexivity|].
    intros st3 F.
    apply flush_appends with (year := c :: year) (qnum := qnum) in F;
      [|reflexivity | reflexivity].
    destruct F as [n [_ ->]].
    eexists. split; [rewrite after_flush_questions; reflexivity | reflexivity].
  - intros opts letter text fallback F Hf. unfold place_option.
    rewrite F, Hf. reflexivity.
Qed.

Lemma duplicate_label_moves_on_witness :
  exists q, q_options q = [lit "A. cats"; lit "B. dogs"; lit "C. "; lit "D. "].
Proof.
  destruct (proj1 (duplicate_label_moves_on
                     (map lit ["2020"; "1. Q"]%string)
                     (question_open (lit "2020") (lit "1") [lit "Q"] [])
                     (lit "2020") (lit "1") eq_refl eq_refl eq_refl eq_refl))
    as [st1 [st2 [S1 [S2 [_ H]]]]].
  vm_compute in S1. injection S1 as <-.
  vm_compute in S2. injection S2 as <-.
  destruct (H _ eq_refl) as [q [_ Hq]].
  exists q. exact Hq.
Defined.

(** A paper whose first question has the four options and then a fifth
    marker, labelled (a) again. *)
Definition fifth_marker_text : str :=
  text_of ["2020"; "1. Q"; "(a) w"; "(b) x"; "(c) y"; "(d) z"; "(a) v"]%string.

Definition four_marker_text : str :=
  text_of ["2020"; "1. Q"; "(a) w"; "(b) x"; "(c) y"; "(d) z"]%string.

Definition one_record (opts : list string) : Years :=
  [(lit "2020",
    [{| q_id := lit "POL-2020-01"; q_question := lit "Q";
        q_options := map lit opts;
        q_answer := []; q_explanation := []; q_difficulty := lit "M" |}])].

(** C1 does not hold of the code: with the four slots filled, the text of a
    fifth marker replaces the text of the slot the marker names.  In
    [place_option] the search for a free slot finds none, [letter] keeps its
    value and the assignment [options[letter] = text_val] is carried out. *)
Theorem fifth_marker_overwrites :
  parse_text four_marker_text = Ok (one_record ["A. w"; "B. x"; "C. y"; "D. z"]%string)
  /\ parse_text fifth_marker_text = Ok (one_record ["A. v"; "B. x"; "C. y"; "D. z"]%string)
  /\ place_option (lit "a") (lit "v")
       [(lit "a", lit "w"); (lit "b", lit "x"); (lit "c", lit "y"); (lit "d", lit "z")]
     = [(lit "a", lit "v"); (lit "b", lit "x"); (lit "c", lit "y"); (lit "d", lit "z")].
Proof. repeat split; vm_compute; reflexivity. Qed.
End ConvertProps.

(* ================================================================= *)
(** * Facts about the re-indexer *)

Module IdCorrectorFacts.
Import Py PyFacts IdCorrector.

(** ** The order of strings and the sort *)

Lemma str_compare_antisym (s t : str) :
  str_compare s t = CompOpp (str_compare t s).
Proof.
  revert t. induction s as [|c s IH]; intros [|d t]; simpl; try reflexivity.
  rewrite (Nat.compare_antisym (code c) (code d)).
  destruct (Nat.compare (code c) (code d)); simpl; [apply IH | reflexivity..].
Qed.

Lemma str_leb_total (s t : str) : str_leb s t = true \/ str_leb t s = true.
Proof.
  unfold str_leb. rewrite (str_compare_antisym t s).
  destruct (str_compare s t); simpl; auto.
Qed.

Lemma str_leb_trans (s t u : str) :
  str_leb s t = true -> str_leb t u = true -> str_leb s u = true.
Proof.
  unfold str_leb. revert t u.
  induction s as [|c s IH]; intros [|d t] [|e u]; simpl; try congruence.
  destruct (Nat.compare_spec (code c) (code d)) as [E1|L1|G1];
    destruct (Nat.compare_spec (code d) (code e)) as [E2|L2|G2];
    try congruence; intros H1 H2.
  - rewrite E1, E2, Nat.compare_refl. eapply IH; eauto.
  - rewrite E1. apply Nat.compare_lt_iff in L2. rewrite L2. reflexivity.
  - rewrite <- E2. apply Nat.compare_lt_iff in L1. rewrite L1. reflexivity.
  - assert (L : code c < code e) by lia.
    apply Nat.compare_lt_iff in L. rewrite L. reflexivity.
Qed.

(** [a] comes before [b] in a descending list. *)
Definition desc (a b : str) : Prop := str_leb b a = true.

Lemma insert_desc_perm (k : str) (l : list str) :
  Permutation (insert_desc k l) (k :: l).
Proof.
  induction l as [|x l IH]; simpl; [apply Permutation_refl|].
  destruct (str_leb x k); [apply Permutation_refl|].
  eapply Permutation_trans; [apply perm_skip, IH | apply perm_swap].
Qed.

Lemma sorted_desc_perm (l : list str) : Permutation (sorted_desc l) l.
Proof.
  induction l as [|k l IH]; simpl; [constructor|].
  eapply Permutation_trans; [apply insert_desc_perm | apply perm_skip, IH].
Qed.

Lemma insert_desc_sorted (k : str) (l : list str) :
  StronglySorted desc l -> StronglySorted desc (insert_desc k l).
Proof.
  induction 1 as [|x l S IH F]; simpl.
  - constructor; constructor.
  - destruct (str_leb x k) eqn:E.
    + constructor; [constructor; assumption|].
      constructor; [exact E|].
      eapply Forall_impl; [|exact F]. intros y Hy. unfold desc in *.
      eapply str_leb_trans; eauto.
    + constructor; [exact IH|].
      eapply Permutation_Forall; [apply Permutation_sym, insert_desc_perm|].
      constructor; [|exact F].
      unfold desc. destruct (str_leb_total x k); congruence.
Qed.

Lemma sorted_desc_sorted (l : list str) : StronglySorted desc (sorted_desc l).
Proof.
  induction l as [|k l IH]; simpl; [constructor | apply insert_desc_sorted, IH].
Qed.

(** ** The inner loop *)

(** What the loop does to one question when the counter is [k]. *)
Definition with_id (year : str) (k : N) (q : Question) : Question :=
  PyDict.set (lit "id") (JStr (new_id year k)) q.

Lemma reindex_list_counter (year : str) (qs : list Question) :
  forall c, snd (reindex_list year c qs) = (c + N.of_nat (List.length qs))%N.
Proof.
  induction qs as [|q qs IH]; intros c; simpl.
  - lia.
  - specialize (IH (c + 1)%N).
    destruct (reindex_list year (c + 1) qs) as [rest' c']. simpl in *. lia.
Qed.

Lemma reindex_list_nth (year : str) (qs : list Question) :
  forall c j,
    nth_error (fst (reindex_list year c qs)) j
    = option_map (with_id year (c + N.of_nat j)) (nth_error qs j).
Proof.
  induction qs as [|q qs IH]; intros c j; simpl.
  - destruct j; reflexivity.
  - specialize (IH (c + 1)%N).
    destruct (reindex_list year (c + 1) qs) as [rest' c']. simpl in *.
    destruct j as [|j]; simpl.
    + rewrite N.add_0_r. reflexivity.
    + rewrite IH. do 2 f_equal. lia.
Qed.

(** A question before and after the loop: the same but for the key [id]. *)
Definition same_but_id (q q' : Question) : Prop :=
  (forall field, field <> lit "id" -> PyDict.get field q' = PyDict.get field q)
  /\ PyDict.keys q' = if PyDict.contains (lit "id") q
                      then PyDict.keys q
                      else PyDict.keys q ++ [lit "id"].

Lemma reindex_list_frame (year : str) (qs : list Question) :
  forall c, Forall2 same_but_id qs (fst (reindex_list year c qs)).
Proof.
  induction qs as [|q qs IH]; intros c; simpl; [constructor|].
  specialize (IH (c + 1)%N).
  destruct (reindex_list year (c + 1) qs) as [rest' c']. simpl in *.
  constructor; [|exact IH]. split.
  - intros field N. apply DictFacts.get_set_other.
    intros E. apply N. symmetry. exact E.
  - apply DictFacts.keys_set.
Qed.

(** ** The outer loop *)

(** The lists of the given years, in this order. *)
Definition lists_of (ys : Years) (order : list str) : list (list Question) :=
  map (fun y => PyDict.get_default y [] ys) order.

(** The number of questions under the first [i] years of [order]. *)
Definition count_before (ys : Years) (order : list str) (i : nat) : N :=
  N.of_nat (List.length (List.concat (lists_of ys (firstn i order)))).

Lemma lists_of_ext (ys ys' : Years) (order : list str) :
  (forall y, In y order -> PyDict.get y ys' = PyDict.get y ys) ->
  lists_of ys' order = lists_of ys order.
Proof.
  intros H. apply map_ext_in. intros y Hy.
  unfold PyDict.get_default. rewrite (H y Hy). reflexivity.
Qed.

Lemma in_firstn {A : Type} (n : nat) (l : list A) (x : A) :
  In x (firstn n l) -> In x l.
Proof.
  revert l. induction n as [|n IH]; intros [|a l]; simpl; try tauto.
  intros [H | H]; [left; exact H | right; apply IH; exact H].
Qed.

Lemma in_keys_get {V : Type} (k : str) (d : PyDict.dict V) :
  In k (PyDict.keys d) -> exists v, PyDict.get k d = Some v.
Proof.
  intros H. destruct (PyDict.get k d) eqn:G; [eauto|].
  apply DictFacts.get_none_iff in G. contradiction.
Qed.

Lemma reindex_years_spec (order : list str) :
  forall (ys : Years) (c : N),
    NoDup order ->
    (forall y, In y order -> In y (PyDict.keys ys)) ->
    exists ys',
      reindex_years order ys c
      = Ok (ys', (c + count_before ys order (List.length order))%N)
      /\ PyDict.keys ys' = PyDict.keys ys
      /\ (forall y, ~ In y order -> PyDict.get y ys' = PyDict.get y ys)
      /\ (forall i y,
             nth_error order i = Some y ->
             PyDict.get y ys'
             = Some (fst (reindex_list y (c + count_before ys order i)
                            (PyDict.get_default y [] ys)))).
Proof.
  induction order as [|year rest IH]; intros ys c ND Hin.
  - exists ys. simpl. unfold count_before. simpl. rewrite N.add_0_r.
    repeat split; auto. intros [|i] y; discriminate.
  - inversion ND as [|? ? Hn ND']; subst.
    destruct (in_keys_get year ys (Hin year (or_introl eq_refl))) as [ql G].
    simpl. rewrite G.
    pose proof (reindex_list_counter year ql c) as Hc.
    destruct (reindex_list year c ql) as [ql' c'] eqn:RL. simpl in Hc.
    set (ys1 := PyDict.set year ql' ys).
    assert (K1 : PyDict.keys ys1 = PyDict.keys ys).
    { apply DictFacts.keys_set_present. apply Hin. left; reflexivity. }
    assert (G1 : forall y, y <> year -> PyDict.get y ys1 = PyDict.get y ys).
    { intros y N. apply DictFacts.get_set_other. congruence. }
    assert (Gr : forall y, In y rest -> PyDict.get y ys1 = PyDict.get y ys).
    { intros y Hy. apply G1. intros ->. contradiction. }
    destruct (IH ys1 c' ND') as [ys' [R [K [Out Nth]]]].
    { intros y Hy. rewrite K1. apply Hin. right; exact Hy. }
    assert (Cb : forall i, count_before ys (year :: rest) (S i)
                           = (N.of_nat (List.length ql) + count_before ys rest i)%N).
    { intros i. unfold count_before. simpl.
      unfold PyDict.get_default at 1. rewrite G, length_app. lia. }
    assert (C1 : forall i, count_before ys1 rest i = count_before ys rest i).
    { intros i. unfold count_before. rewrite (lists_of_ext ys ys1); [reflexivity|].
      intros y Hy. apply Gr. eapply in_firstn; eauto. }
    exists ys'. split; [|split; [|split]].
    + rewrite R. do 2 f_equal. simpl List.length. rewrite Cb, C1. lia.
    + congruence.
    + intros y Hy. rewrite Out by (intros H; apply Hy; right; exact H).
      apply G1. intros ->. apply Hy. left; reflexivity.
    + intros [|i] y Hi; simpl in Hi.
      * injection Hi as <-. rewrite (Out year Hn).
        unfold ys1. rewrite DictFacts.get_set_same.
        unfold count_before. simpl. rewrite N.add_0_r.
        unfold PyDict.get_default. rewrite G, RL. reflexivity.
      * rewrite (Nth i y Hi), Cb, C1.
        assert (Hy : In y rest) by (eapply nth_error_In; eauto).
        unfold PyDict.get_default. rewrite (Gr y Hy).
        do 3 f_equal. lia.
Qed.

Lemma reindex_spec (ys : Years) :
  NoDup (PyDict.keys ys) ->
  let order := sorted_desc (PyDict.keys ys) in
  exists ys',
    reindex ys = Ok (ys', (1 + count_before ys order (List.length order))%N)
    /\ PyDict.keys ys' = PyDict.keys ys
    /\ (forall i y,
           nth_error order i = Some y ->
           PyDict.get y ys'
           = Some (fst (reindex_list y (1 + count_before ys order i)
                          (PyDict.get_default y [] ys)))).
Proof.
  intros ND order.
  destruct (reindex_years_spec order ys 1%N) as [ys' [R [K [_ Nth]]]].
  - eapply Permutation_NoDup; [apply Permutation_sym, sorted_desc_perm | exact ND].
  - intros y Hy. eapply Permutation_in; [apply sorted_desc_perm | exact Hy].
  - exists ys'. auto.
Qed.


(** ** Keys that are years *)

(** [digits_value] from an accumulator. *)
Definition value_from (acc : N) (s : str) : N :=
  fold_left (fun acc c => (10 * acc + digit_value c)%N) s acc.

Lemma value_from_split (s : str) :
  forall acc, value_from acc s
              = (acc * 10 ^ N.of_nat (List.length s) + value_from 0 s)%N.
Proof.
  unfold value_from.
  induction s as [|c s IH]; intros acc; cbn [fold_left List.length].
  - simpl. lia.
  - rewrite (IH (10 * acc + digit_value c)%N), (IH (10 * 0 + digit_value c)%N).
    rewrite Nat2N.inj_succ, N.pow_succ_r'. nia.
Qed.

Lemma digits_value_cons (c : Ascii.ascii) (s : str) :
  digits_value (c :: s)
  = (digit_value c * 10 ^ N.of_nat (List.length s) + digits_value s)%N.
Proof.
  change (digits_value (c :: s)) with (value_from (10 * 0 + digit_value c) s).
  rewrite value_from_split, N.mul_0_r, N.add_0_l. reflexivity.
Qed.

Lemma digit_value_bound (c : Ascii.ascii) : isdigit c = true -> (digit_value c < 10)%N.
Proof. unfold isdigit, in_range, digit_value. intros H. code_cases. Qed.

Lemma digits_value_bound (s : str) :
  forallb isdigit s = true -> (digits_value s < 10 ^ N.of_nat (List.length s))%N.
Proof.
  induction s as [|c s IH]; intros H.
  - reflexivity.
  - simpl in H. apply andb_true_iff in H as [Hc Hs].
    rewrite digits_value_cons. cbn [List.length].
    rewrite Nat2N.inj_succ, N.pow_succ_r'.
    pose proof (digit_value_bound c Hc). pose proof (IH Hs). nia.
Qed.

(** On strings of digits of one length, such as years, the order of the
    strings is the order of the numbers. *)
Lemma str_compare_digits (s : str) :
  forall t, List.length s = List.length t ->
    forallb isdigit s = true -> forallb isdigit t = true ->
    str_compare s t = N.compare (digits_value s) (digits_value t).
Proof.
  induction s as [|c s IH]; intros [|d t] L Fs Ft; try discriminate L.
  - reflexivity.
  - simpl in L. injection L as L.
    simpl in Fs, Ft.
    apply andb_true_iff in Fs as [Hc Fs]. apply andb_true_iff in Ft as [Hd Ft].
    rewrite !digits_value_cons, <- L. simpl str_compare.
    pose proof (digits_value_bound s Fs) as Bs.
    pose proof (digits_value_bound t Ft) as Bt. rewrite <- L in Bt.
    assert (Vc : digit_value c = N.of_nat (code c - 48)) by reflexivity.
    assert (Vd : digit_value d = N.of_nat (code d - 48)) by reflexivity.
    assert (Rc : 48 <= code c) by (unfold isdigit, in_range in Hc; code_cases).
    assert (Rd : 48 <= code d) by (unfold isdigit, in_range in Hd; code_cases).
    set (P := (10 ^ N.of_nat (List.length s))%N) in *.
    destruct (Nat.compare_spec (code c) (code d)) as [E|Lt|Gt].
    + rewrite (IH t L Fs Ft). rewrite Vc, Vd, E.
      destruct (N.compare_spec (digits_value s) (digits_value t)) as [E'|L'|G'];
        symmetry.
      * apply N.compare_eq_iff. lia.
      * apply N.compare_lt_iff. lia.
      * apply N.compare_gt_iff. lia.
    + symmetry. apply N.compare_lt_iff.
      assert (digit_value c + 1 <= digit_value d)%N by lia. nia.
    + symmetry. apply N.compare_gt_iff.
      assert (digit_value d + 1 <= digit_value c)%N by lia. nia.
Qed.

Lemma str_leb_digits (s t : str) :
  List.length s = List.length t ->
  forallb isdigit s = true -> forallb isdigit t = true ->
  (str_leb s t = true <-> (digits_value s <= digits_value t)%N).
Proof.
  intros L Fs Ft. unfold str_leb. rewrite (str_compare_digits s t L Fs Ft).
  unfold N.le. destruct (N.compare (digits_value s) (digits_value t));
    split; congruence.
Qed.
End IdCorrectorFacts.

(* ================================================================= *)
(** * Properties of the re-indexer *)

Module IdCorrectorProps.
Import Py PyFacts IdCorrector IdCorrectorFacts.

(** C8: the years are visited in descending order of their keys, and the
    question at place [j] of the list of the [i]-th year visited is written
    back with, under its key [id], the identifier made of [ENVI], the year
    and the number of questions visited before it plus one, padded with
    zeros to three digits at least, its other fields as they were: one
    counter from 1 on, never reset; the mapping with 2020: [q1, q2] and
    2019: [q3] comes back with ENVI-2020-001, ENVI-2020-002 and
    ENVI-2019-003 under [id].  The order of the keys is the order of
    strings, which on digit strings of one length, as years are, is the
    order of the numbers. *)
Theorem reindex_numbers_globally :
  (forall ys : Years,
      NoDup (PyDict.keys ys) ->
      let order := sorted_desc (PyDict.keys ys) in
      exists ys' total,
        reindex ys = Ok (ys', total)
        /\ Permutation order (PyDict.keys ys)
        /\ StronglySorted (fun a b => str_leb b a = true) order
        /\ (forall i year qs j q,
               nth_error order i = Some year ->
               PyDict.get year ys = Some qs ->
               nth_error qs j = Some q ->
               exists qs' q',
                 PyDict.get year ys' = Some qs'
                 /\ nth_error qs' j = Some q'
                 /\ PyDict.get (lit "id") q'
                    = Some (JStr (lit "ENVI-" ++ year ++ lit "-"
                                  ++ zero_pad 3 (1 + count_before ys order i
                                                 + N.of_nat j)))
                 /\ (forall field, field <> lit "id" ->
                                   PyDict.get field q' = PyDict.get field q)
                 /\ q' = PyDict.set (lit "id")
                           (JStr (lit "ENVI-" ++ year ++ lit "-"
                                  ++ zero_pad 3 (1 + count_before ys order i
                                                 + N.of_nat j)))
                           q)
        /\ (forall n, 3 <= List.length (zero_pad 3 n)))
  /\
  (forall q1 q2 q3 : Question,
      exists q1' q2' q3',
        reindex [(lit "2020", [q1; q2]); (lit "2019", [q3])]
        = Ok ([(lit "2020", [q1'; q2']); (lit "2019", [q3'])], 4%N)
        /\ PyDict.get (lit "id") q1' = Some (JStr (lit "ENVI-2020-001"))
        /\ PyDict.get (lit "id") q2' = Some (JStr (lit "ENVI-2020-002"))
        /\ PyDict.get (lit "id") q3' = Some (JStr (lit "ENVI-2019-003")))
  /\
  reindex [(lit "2019", [[(lit "id", JStr (lit "POL-2019-07"));
                          (lit "question", JStr (lit "c"))]]);
           (lit "2020", [[(lit "id", JStr (lit "POL-2020-01"));
                          (lit "question", JStr (lit "a"))];
                         [(lit "question", JStr (lit "b"))]])]
  = Ok ([(lit "2019", [[(lit "id", JStr (lit "ENVI-2019-003"));
                        (lit "question", JStr (lit "c"))]]);
         (lit "2020", [[(lit "id", JStr (lit "ENVI-2020-001"));
                        (lit "question", JStr (lit "a"))];
                       [(lit "question", JStr (lit "b"));
                        (lit "id", JStr (lit "ENVI-2020-002"))]])],
        4%N)
  /\
  (forall a b : str,
      List.length a = List.length b ->
      forallb isdigit a = true -> forallb isdigit b = true ->
      (str_leb a b = true <-> (digits_value a <= digits_value b)%N)).
Proof.
  split; [|split; [|split; [reflexivity | exact str_leb_digits]]].
  - intros ys ND order.
    destruct (reindex_spec ys ND) as [ys' [R [K Nth]]].
    exists ys', (1 + count_before ys order (List.length order))%N.
    split; [exact R|]. split; [apply sorted_desc_perm|].
    split; [apply sorted_desc_sorted|]. split; [|apply zero_pad_length].
    intros i year qs j q Hi G Hj.
    eexists _, _. split; [apply (Nth i year Hi)|].
    split; [rewrite reindex_list_nth; unfold PyDict.get_default;
            rewrite G, Hj; reflexivity|].
    unfold with_id, new_id. split; [apply DictFacts.get_set_same|].
    split; [|reflexivity].
    intros field N. apply DictFacts.get_set_other. congruence.
  - intros q1 q2 q3.
    exists (PyDict.set (lit "id") (JStr (lit "ENVI-2020-001")) q1),
           (PyDict.set (lit "id") (JStr (lit "ENVI-2020-002")) q2),
           (PyDict.set (lit "id") (JStr (lit "ENVI-2019-003")) q3).
    split; [reflexivity|].
    repeat split; apply DictFacts.get_set_same.
Qed.

(** A question object with its text and an old identifier. *)
Definition sample_question (text : string) : Question :=
  [(lit "id", JStr (lit "POL-2020-01")); (lit "question", JStr (lit text))].

Definition sample_years : Years :=
  [(lit "2019", [sample_question "c"]);
   (lit "2020", [sample_question "a"; sample_question "b"])].

Lemma sample_years_NoDup : NoDup (PyDict.keys sample_years).
Proof.
  repeat constructor; simpl; intros H;
    repeat (destruct H as [H | H]; try discriminate H); exact H.
Qed.

Lemma reindex_numbers_globally_witness :
  exists ys' total qs' q',
    reindex sample_years = Ok (ys', total)
    /\ PyDict.get (lit "2019") ys' = Some qs'
    /\ nth_error qs' 0 = Some q'
    /\ PyDict.get (lit "id") q' = Some (JStr (lit "ENVI-2019-003")).
Proof.
  destruct (proj1 reindex_numbers_globally sample_years sample_years_NoDup)
    as [ys' [total [R [_ [_ [H _]]]]]].
  destruct (H 1 (lit "2019") [sample_question "c"] 0 (sample_question "c")
              eq_refl eq_refl eq_refl) as [qs' [q' [G [Hn [Hid _]]]]].
  exists ys', total, qs', q'.
  split; [exact R|]. split; [exact G|]. split; [exact Hn | exact Hid].
Defined.

(** C9: the re-indexer returns a mapping with the same year keys, in which
    the list of every year has the same questions in the same order, each
    the same but for its key [id]. *)
Theorem reindex_changes_ids_only (ys : Years) :
  NoDup (PyDict.keys ys) ->
  exists ys' total,
    reindex ys = Ok (ys', total)
    /\ PyDict.keys ys' = PyDict.keys ys
    /\ forall year qs,
        PyDict.get year ys = Some qs ->
        exists qs',
          PyDict.get year ys' = Some qs'
          /\ Forall2 same_but_id qs qs'.
Proof.
  intros ND.
  destruct (reindex_spec ys ND) as [ys' [R [K Nth]]].
  eexists ys', _. split; [exact R|]. split; [exact K|].
  intros year qs G.
  assert (Hin : In year (sorted_desc (PyDict.keys ys))).
  { eapply Permutation_in; [apply Permutation_sym, sorted_desc_perm|].
    apply DictFacts.get_some_in in G.
    change year with (fst (year, qs)). apply in_map. exact G. }
  apply In_nth_error in Hin as [i Hi].
  eexists. split; [apply (Nth i year Hi)|].
  unfold PyDict.get_default. rewrite G. apply reindex_list_frame.
Qed.

Lemma reindex_changes_ids_only_witness :
  exists ys' total,
    reindex sample_years = Ok (ys', total)
    /\ PyDict.keys ys' = PyDict.keys sample_years.
Proof.
  destruct (reindex_changes_ids_only sample_years sample_years_NoDup)
    as [ys' [total [R [K _]]]].
  exists ys', total. split; [exact R | exact K].
Defined.

End IdCorrectorProps.

(* ================================================================= *)
(** * Facts about the text utilities *)

Module TextFacts.
Import Py PyFacts Convert ConvertFacts.

(** ** [smart_quotes_to_ascii] *)

(** What the seven replacements make of one code point. *)
Definition plain (c : N) : N :=
  if ((c =? 0x2018) || (c =? 0x2019))%N then 39%N
  else if ((c =? 0x201C) || (c =? 0x201D))%N then 34%N
  else if ((c =? 0x2013) || (c =? 0x2014))%N then 45%N
  else if (c =? 0xA0)%N then 32%N
  else c.

(** The code points that are keys of [repl]. *)
Definition typographic (c : N) : bool :=
  existsb (fun kv => (c =? fst kv)%N) SmartQuotes.repl.

(** Splits on whether [c] is one of the keys of [repl]. *)
Ltac key_cases c :=
  destruct (N.eqb_spec c 0x2018) as [->|?]; [reflexivity|];
  destruct (N.eqb_spec c 0x2019) as [->|?]; [reflexivity|];
  destruct (N.eqb_spec c 0x201C) as [->|?]; [reflexivity|];
  destruct (N.eqb_spec c 0x201D) as [->|?]; [reflexivity|];
  destruct (N.eqb_spec c 0x2013) as [->|?]; [reflexivity|];
  destruct (N.eqb_spec c 0x2014) as [->|?]; [reflexivity|];
  destruct (N.eqb_spec c 0xA0) as [->|?]; [reflexivity|].

Lemma smart_quotes_map (s : SmartQuotes.ustr) :
  SmartQuotes.smart_quotes_to_ascii s = map plain s.
Proof.
  unfold SmartQuotes.smart_quotes_to_ascii, SmartQuotes.repl.
  cbn [fold_left fst snd]. unfold SmartQuotes.replace_char.
  rewrite !map_map. apply map_ext. intros c. key_cases c.
  symmetry. unfold plain.
  repeat match goal with
         | H : c <> ?k |- _ => apply N.eqb_neq in H; rewrite H; clear H
         end.
  reflexivity.
Qed.

Lemma plain_not_typographic (c : N) : typographic (plain c) = false.
Proof.
  key_cases c. unfold plain, typographic, SmartQuotes.repl. cbn [existsb fst].
  repeat match goal with
         | H : c <> ?k |- _ => apply N.eqb_neq in H; rewrite ?H
         end.
  cbn. repeat match goal with H : _ = false |- _ => rewrite H end. reflexivity.
Qed.

Lemma plain_fixed (c : N) : typographic c = false -> plain c = c.
Proof.
  unfold typographic, SmartQuotes.repl. cbn [existsb fst]. intros H.
  repeat (apply orb_false_iff in H; destruct H as [? H]).
  unfold plain.
  repeat match goal with E : (c =? _)%N = false |- _ => rewrite E; clear E end.
  reflexivity.
Qed.

Lemma plain_idem (c : N) : plain (plain c) = plain c.
Proof. apply plain_fixed, plain_not_typographic. Qed.


(** On the code points 0..255 only the no-break space is replaced. *)
Lemma smart_quotes_latin1 (s : str) :
  Docx.smart_quotes_str s
  = map (fun c => if code c =? 160 then SP else c) s.
Proof.
  unfold Docx.smart_quotes_str. rewrite smart_quotes_map, !map_map.
  apply map_ext. intros c.
  destruct c as [[] [] [] [] [] [] [] []]; reflexivity.
Qed.

(** ** [normalize_inline] *)

(** Every whitespace character of the string is a space that follows a
    character that is not whitespace; [prev] tells that whitespace came
    just before the string. *)
Fixpoint spaced (prev : bool) (s : str) : bool :=
  match s with
  | [] => true
  | c :: s' =>
      if isspace c
      then negb prev && Ascii.eqb c SP && spaced true s'
      else spaced false s'
  end.

Lemma spaced_weaken (s : str) : spaced true s = true -> spaced false s = true.
Proof.
  destruct s as [|c s]; simpl; [auto|].
  destruct (isspace c); [discriminate | auto].
Qed.

Lemma sub_ws_runs_spaced (s : str) :
  forall b, spaced b (sub_ws_runs b s) = true.
Proof.
  induction s as [|c s IH]; intros b; simpl; [reflexivity|].
  destruct (isspace c) eqn:Hc.
  - destruct b; [apply IH|]. simpl. apply IH.
  - simpl. rewrite Hc. apply IH.
Qed.

Lemma sub_ws_runs_fixed (s : str) :
  forall b, spaced b s = true -> sub_ws_runs b s = s.
Proof.
  induction s as [|c s IH]; intros b; simpl; [reflexivity|].
  destruct (isspace c) eqn:Hc.
  - intros H. apply andb_true_iff in H as [H Hs]. apply andb_true_iff in H as [Hb He].
    apply negb_true_iff in Hb. subst b. apply Ascii.eqb_eq in He. subst c.
    rewrite (IH true Hs). reflexivity.
  - intros H. rewrite (IH false H). reflexivity.
Qed.

Lemma spaced_dropwhile (s : str) :
  forall b, spaced b s = true -> spaced false (dropwhile isspace s) = true.
Proof.
  induction s as [|c s IH]; intros b; simpl; [reflexivity|].
  destruct (isspace c) eqn:Hc.
  - intros H. apply andb_true_iff in H as [_ Hs]. apply (IH true Hs).
  - intros H. simpl. rewrite Hc. exact H.
Qed.

Lemma spaced_app_l (s t : str) :
  forall b, spaced b (s ++ t) = true -> spaced b s = true.
Proof.
  induction s as [|c s IH]; intros b; simpl; [reflexivity|].
  destruct (isspace c).
  - intros H. apply andb_true_iff in H as [H Hs]. rewrite H. apply (IH true Hs).
  - apply IH.
Qed.

Lemma spaced_strip (s : str) : forall b, spaced b s = true -> spaced false (strip s) = true.
Proof.
  intros b H. pose proof (spaced_dropwhile s b H) as L.
  fold (lstrip s) in L. unfold strip, rstrip.
  destruct (dropwhile_split isspace (rev (lstrip s))) as [w [E _]].
  apply (f_equal (@rev _)) in E. rewrite rev_involutive, rev_app_distr in E.
  rewrite E in L. apply (spaced_app_l _ _ false L).
Qed.

Lemma normalize_inline_spaced (s : str) : spaced false (normalize_inline s) = true.
Proof. apply (spaced_strip _ false), sub_ws_runs_spaced. Qed.

Lemma normalize_inline_idem (s : str) :
  normalize_inline (normalize_inline s) = normalize_inline s.
Proof.
  unfold normalize_inline at 1.
  rewrite (sub_ws_runs_fixed _ false (normalize_inline_spaced s)).
  apply strip_idem.
Qed.

(** A spaced string has no line boundary. *)
Lemma spaced_no_linebreak (s : str) :
  forall b, spaced b s = true -> existsb islinebreak s = false.
Proof.
  induction s as [|c s IH]; intros b; simpl; [reflexivity|].
  destruct (isspace c) eqn:Hc.
  - intros H. apply andb_true_iff in H as [H Hs]. apply andb_true_iff in H as [_ He].
    apply Ascii.eqb_eq in He. subst c. simpl. apply (IH true Hs).
  - intros H. rewrite (IH false H), orb_false_r.
    destruct (islinebreak c) eqn:Lc; [|reflexivity].
    apply linebreak_is_space in Lc. congruence.
Qed.

End TextFacts.

Module StemFacts.
Import Py PyFacts Convert ConvertFacts.

(** ** [finalize_question_text] on any lines *)

(** The lines are as the third loop leaves them: a blank line is empty and
    follows a line that is not blank, and no line ends in whitespace;
    [prev] tells that a blank line came just before. *)
Fixpoint settled (prev : bool) (lines : list str) : bool :=
  match lines with
  | [] => true
  | ln :: rest =>
      if blank ln
      then negb prev && str_eqb ln [] && settled true rest
      else str_eqb (rstrip ln) ln && settled false rest
  end.

Lemma blank_rstrip (ln : str) : blank (rstrip ln) = blank ln.
Proof.
  rewrite !blank_fully_blank. unfold StemSpec.fully_blank.
  destruct (forallb isspace ln) eqn:W.
  - apply rstrip_nil_iff in W. rewrite W. reflexivity.
  - destruct (forallb isspace (rstrip ln)) eqn:W'; [|reflexivity].
    apply rstrip_nil_iff in W'. rewrite rstrip_idem in W'.
    apply rstrip_nil_iff in W'. congruence.
Qed.

Lemma squeeze_settled (lines : list str) :
  forall p, settled p (squeeze p lines) = true.
Proof.
  induction lines as [|ln rest IH]; intros p; simpl; [reflexivity|].
  rewrite strip_eqb_nil. destruct (blank ln) eqn:B.
  - destruct p; [apply IH|]. simpl. apply IH.
  - simpl. rewrite blank_rstrip, B, rstrip_idem, str_eqb_refl. apply IH.
Qed.

Lemma squeeze_fixed (lines : list str) :
  forall p, settled p lines = true -> squeeze p lines = lines.
Proof.
  induction lines as [|ln rest IH]; intros p; simpl; [reflexivity|].
  rewrite strip_eqb_nil. destruct (blank ln) eqn:B; intros H.
  - apply andb_true_iff in H as [H Hs]. apply andb_true_iff in H as [Hp He].
    apply negb_true_iff in Hp. subst p. apply str_eqb_eq in He. subst ln.
    rewrite (IH true Hs). reflexivity.
  - apply andb_true_iff in H as [He Hs]. apply str_eqb_eq in He.
    rewrite He, (IH false Hs). reflexivity.
Qed.

(** The first and the last line, if any, are not blank. *)
Definition trimmed (lines : list str) : Prop :=
  pop_blank_front lines = lines /\ pop_blank_back lines = lines.

Lemma pop_blank_front_idem (lines : list str) :
  pop_blank_front (pop_blank_front lines) = pop_blank_front lines.
Proof.
  induction lines as [|ln rest IH]; simpl; [reflexivity|].
  destruct (blank ln) eqn:B; [exact IH | simpl; rewrite B; reflexivity].
Qed.

Lemma pop_blank_front_suffix (lines : list str) :
  exists pre, lines = pre ++ pop_blank_front lines /\ forallb blank pre = true.
Proof.
  induction lines as [|ln rest [pre [E F]]]; simpl.
  - exists []. auto.
  - destruct (blank ln) eqn:B.
    + exists (ln :: pre). simpl. rewrite B, F. split; [congruence | reflexivity].
    + exists []. auto.
Qed.

Lemma pop_blank_front_head (lines : list str) ln rest :
  pop_blank_front lines = ln :: rest -> blank ln = false.
Proof.
  induction lines as [|l ls IH]; simpl; [discriminate|].
  destruct (blank l) eqn:B; [exact IH|]. intros H; injection H as <- _. exact B.
Qed.

Lemma pop_blank_back_idem (lines : list str) :
  pop_blank_back (pop_blank_back lines) = pop_blank_back lines.
Proof.
  unfold pop_blank_back. rewrite rev_involutive, pop_blank_front_idem. reflexivity.
Qed.

(** Popping at the back leaves a first line that is not blank in place. *)
Lemma pop_blank_back_front (lines : list str) :
  pop_blank_front lines = lines ->
  pop_blank_front (pop_blank_back lines) = pop_blank_back lines.
Proof.
  intros H. destruct lines as [|ln rest]; [reflexivity|].
  pose proof (pop_blank_front_head _ _ _ H) as B.
  change (ln :: rest) with ([] ++ ln :: rest).
  rewrite (pop_blank_back_stop [] rest ln B). simpl. rewrite B. reflexivity.
Qed.

Lemma pop_both_trimmed (lines : list str) :
  trimmed (pop_blank_back (pop_blank_front lines)).
Proof.
  split; [|apply pop_blank_back_idem].
  apply pop_blank_back_front, pop_blank_front_idem.
Qed.

(** The third loop keeps the first and the last line in place when they are
    not blank. *)
Lemma squeeze_trimmed (lines : list str) :
  trimmed lines -> trimmed (squeeze false lines).
Proof.
  intros [F Bk]. split.
  - destruct lines as [|ln rest]; [reflexivity|].
    pose proof (pop_blank_front_head _ _ _ F) as B.
    simpl. rewrite strip_eqb_nil, B. simpl. rewrite blank_rstrip, B. reflexivity.
  - destruct (rev lines) as [|ln r] eqn:E.
    + apply (f_equal (@rev _)) in E. rewrite rev_involutive in E. subst lines.
      reflexivity.
    + assert (El : lines = rev r ++ [ln]).
      { apply (f_equal (@rev _)) in E. rewrite rev_involutive in E. exact E. }
      assert (B : blank ln = false).
      { unfold pop_blank_back in Bk. rewrite E in Bk.
        destruct (blank ln) eqn:B; [|reflexivity]. exfalso.
        simpl in Bk. rewrite B in Bk.
        apply (f_equal (@List.length _)) in Bk.
        rewrite El, length_rev, length_app in Bk. simpl in Bk.
        destruct (pop_blank_front_suffix r) as [pre [Ep _]].
        apply (f_equal (@List.length _)) in Ep. rewrite length_app in Ep.
        rewrite length_rev in Bk. lia. }
      rewrite El, (squeeze_stop _ _ _ B). simpl.
      assert (B' : blank (rstrip ln) = false) by (rewrite blank_rstrip; exact B).
      apply (pop_blank_back_stop (squeeze false (rev r)) [] (rstrip ln) B').
Qed.

Lemma finalize_out_settled (lines : list str) :
  settled false (finalize_out lines) = true /\ trimmed (finalize_out lines).
Proof.
  unfold finalize_out. split; [apply squeeze_settled|].
  apply squeeze_trimmed, pop_both_trimmed.
Qed.

Lemma finalize_out_idem (lines : list str) :
  finalize_out (finalize_out lines) = finalize_out lines.
Proof.
  destruct (finalize_out_settled lines) as [S [F B]].
  unfold finalize_out at 1. rewrite F, B. apply squeeze_fixed, S.
Qed.

End StemFacts.

Module LineFacts.
Import Py PyFacts Convert ConvertFacts.

(** ** [splitlines] on joined lines *)

(** No character of the line is a line boundary. *)
Definition one_line (l : str) : bool := negb (existsb islinebreak l).

Lemma splitlines_from_one_line (l : str) :
  one_line l = true ->
  forall acc s, splitlines_from acc (l ++ s) = splitlines_from (rev l ++ acc) s.
Proof.
  unfold one_line. induction l as [|c l IH]; intros H acc s; [reflexivity|].
  simpl in H. apply negb_true_iff, orb_false_iff in H as [Hc Hl].
  simpl. rewrite Hc, IH by (apply negb_true_iff; exact Hl).
  rewrite <- List.app_assoc. reflexivity.
Qed.

Lemma splitlines_from_LF (acc s : str) :
  splitlines_from acc (LF :: s) = rev acc :: splitlines_from [] s.
Proof. destruct s; reflexivity. Qed.


(** Lines without line boundaries, the last of which is not empty. *)
Definition proper_lines (lines : list str) : Prop :=
  Forall (fun l => one_line l = true) lines /\ last lines [LF] <> [].

Lemma splitlines_join_gen (sep : str) (lines : list str) :
  (forall acc s, splitlines_from acc (sep ++ s) = rev acc :: splitlines_from [] s) ->
  proper_lines lines ->
  splitlines (join sep lines) = lines.
Proof.
  intros Hsep [F L]. unfold splitlines.
  induction lines as [|l rest IH]; [reflexivity|].
  inversion F as [|? ? Hl F']; subst.
  destruct rest as [|l' rest'].
  - simpl. rewrite <- (List.app_nil_r l) at 1.
    rewrite (splitlines_from_one_line l Hl), List.app_nil_r. simpl.
    destruct (rev l) as [|c r] eqn:E.
    + apply (f_equal (@rev _)) in E. rewrite rev_involutive in E.
      simpl in E. subst l. exfalso. apply L. reflexivity.
    + rewrite <- E, rev_involutive. reflexivity.
  - change (join sep (l :: l' :: rest')) with (l ++ sep ++ join sep (l' :: rest')).
    rewrite (splitlines_from_one_line l Hl), List.app_nil_r, Hsep, rev_involutive.
    f_equal. apply IH; [exact F' | exact L].
Qed.

Lemma splitlines_join_LF (lines : list str) :
  proper_lines lines -> splitlines (join [LF] lines) = lines.
Proof. apply splitlines_join_gen. intros acc s. apply splitlines_from_LF. Qed.


(** ** Lines that match no pattern *)

Lemma lstrip_keep (c : Ascii.ascii) (s : str) :
  isspace c = false -> lstrip (c :: s) = c :: s.
Proof. intros H. unfold lstrip. simpl. rewrite H. reflexivity. Qed.

(** The first character of the line after its leading whitespace is a
    digit. *)
Definition starts_with_digit (line : str) : bool :=
  match lstrip line with c :: _ => isdigit c | [] => false end.

Lemma YEAR_starts_with_digit (line y : str) :
  YEAR_RE_match line = Some y -> starts_with_digit line = true.
Proof.
  unfold YEAR_RE_match, starts_with_digit.
  destruct (lstrip line) as [|c s]; [discriminate|].
  simpl firstn. destruct (firstn 3 s) as [|? ?]; simpl;
    destruct (isdigit c); simpl; try discriminate; auto;
    rewrite ?andb_false_r; discriminate.
Qed.

Lemma QSTART_starts_with_digit (line : str) m :
  QSTART_RE_match line = Some m -> starts_with_digit line = true.
Proof.
  unfold QSTART_RE_match, starts_with_digit.
  destruct (lstrip line) as [|c s]; [discriminate|].
  simpl. destruct (isdigit c); [reflexivity | discriminate].
Qed.

Lemma OPT_not_digit (line : str) m :
  OPT_RE_match line = Some m -> starts_with_digit line = false.
Proof.
  unfold OPT_RE_match, starts_with_digit.
  destruct (lstrip line) as [|c s]; [reflexivity|].
  destruct (Ascii.eqb_spec c "("%char) as [-> | N]; [reflexivity|].
  destruct s as [|d rest]; [discriminate|].
  destruct (in_range 97 100 c) eqn:R; [|discriminate].
  intros _. unfold isdigit, in_range in *. code_cases.
Qed.

(** A line that begins with a character that is neither whitespace, nor a
    digit, nor the parenthesis, nor one of the letters a to d. *)
Definition plain_start (c : Ascii.ascii) : bool :=
  negb (isspace c) && negb (isdigit c) && negb (Ascii.eqb c "(")
  && negb (in_range 97 100 c).

Lemma plain_start_no_match (c : Ascii.ascii) (s : str) :
  plain_start c = true ->
  YEAR_RE_match (c :: s) = None /\ QSTART_RE_match (c :: s) = None
  /\ OPT_RE_match (c :: s) = None.
Proof.
  unfold plain_start. intros H.
  apply andb_true_iff in H as [H Hr]. apply andb_true_iff in H as [H Hp].
  apply andb_true_iff in H as [Hs Hd].
  apply negb_true_iff in Hs, Hd, Hp, Hr.
  repeat split.
  - destruct (YEAR_RE_match (c :: s)) eqn:E; [|reflexivity].
    apply YEAR_starts_with_digit in E. unfold starts_with_digit in E.
    rewrite (lstrip_keep c s Hs) in E. congruence.
  - destruct (QSTART_RE_match (c :: s)) eqn:E; [|reflexivity].
    apply QSTART_starts_with_digit in E. unfold starts_with_digit in E.
    rewrite (lstrip_keep c s Hs) in E. congruence.
  - unfold OPT_RE_match. rewrite (lstrip_keep c s Hs), Hp.
    destruct s as [|d rest]; [reflexivity|]. rewrite Hr. reflexivity.
Qed.

End LineFacts.

Module ParserFacts.
Import Py PyFacts Convert ConvertFacts LineFacts.

(** ** Before the first year *)

Lemma step_before_year (st : State) (raw : str) :
  current_year st = None -> YEAR_RE_match (rstrip raw) = None ->
  step st raw = Ok st.
Proof. intros Y M. unfold step. rewrite M, Y. reflexivity. Qed.

Lemma run_before_year (lines : list str) (st : State) :
  current_year st = None ->
  Forall (fun raw => YEAR_RE_match (rstrip raw) = None) lines ->
  run st lines = Ok st.
Proof.
  intros Y F. induction F as [|raw rest M F IH]; [reflexivity|].
  simpl. rewrite (step_before_year st raw Y M). exact IH.
Qed.

(** ** Lines of the stem *)

(** A question is open under a year and no option marker was seen. *)
Definition in_stem (st : State) : Prop :=
  opt_truthy (current_year st) = true
  /\ current_qnum st <> None
  /\ options st = []
  /\ in_options st = false.

Lemma reachable_in_stem (raws : list str) (st : State) :
  run init_state raws = Ok st ->
  current_qnum st <> None -> in_options st = false -> in_stem st.
Proof.
  intros R Q O. destruct (run_state_inv raws st R) as [I1 [I2 _]].
  repeat split; auto.
  rewrite O in I2. destruct (options st); [reflexivity | discriminate].
Qed.

Lemma step_in_stem (st : State) (raw : str) :
  in_stem st ->
  YEAR_RE_match (rstrip raw) = None -> OPT_RE_match (rstrip raw) = None ->
  step st raw = Ok (append_q_line (rstrip raw) st).
Proof.
  intros [T [Q [O I]]] MY MO. unfold step. rewrite MY, T, O.
  destruct (current_qnum st) as [q|]; [|congruence]. simpl.
  destruct (QSTART_RE_match (rstrip raw)) as [[qn g2]|]; [reflexivity|].
  rewrite MO. unfold continuation. rewrite I. reflexivity.
Qed.

Lemma append_q_line_in_stem (ln : str) (st : State) :
  in_stem st -> in_stem (append_q_line ln st).
Proof. intros H. exact H. Qed.

(** The state with the lines [lns] added to the stem. *)
Definition with_stem_lines (lns : list str) (st : State) : State :=
  {| years := years st; current_year := current_year st;
     current_qnum := current_qnum st; q_lines := q_lines st ++ lns;
     options := options st; current_opt := current_opt st;
     in_options := in_options st |}.

Lemma with_stem_lines_nil (st : State) : with_stem_lines [] st = st.
Proof. destruct st. unfold with_stem_lines. simpl. rewrite List.app_nil_r. reflexivity. Qed.

Lemma with_stem_lines_cons (ln : str) (lns : list str) (st : State) :
  with_stem_lines lns (append_q_line ln st) = with_stem_lines (ln :: lns) st.
Proof.
  unfold with_stem_lines, append_q_line. simpl.
  rewrite <- List.app_assoc. reflexivity.
Qed.

Lemma run_in_stem (lines : list str) :
  forall st,
    in_stem st ->
    Forall (fun raw => YEAR_RE_match (rstrip raw) = None
                       /\ OPT_RE_match (rstrip raw) = None) lines ->
    run st lines = Ok (with_stem_lines (map rstrip lines) st).
Proof.
  induction lines as [|raw rest IH]; intros st S F.
  - simpl. rewrite with_stem_lines_nil. reflexivity.
  - inversion F as [|? ? [MY MO] F']; subst.
    simpl. rewrite (step_in_stem st raw S MY MO). simpl.
    rewrite (IH _ (append_q_line_in_stem _ st S) F').
    rewrite with_stem_lines_cons. reflexivity.
Qed.

(** ** The keys of the result *)

(** Four decimal digits. *)
Definition is_year (y : str) : Prop :=
  List.length y = 4 /\ forallb isdigit y = true.

Definition years_inv (st : State) : Prop :=
  (forall y, current_year st = Some y -> is_year y)
  /\ (forall y qs, PyDict.get y (years st) = Some qs -> is_year y /\ qs <> []).

Lemma years_case_keys (st : State) (ys' : Years) :
  years_case st ys' -> years_inv st ->
  forall y qs, PyDict.get y ys' = Some qs -> is_year y /\ qs <> [].
Proof.
  intros [| qnum year n Q Y E] [I1 I2] y qs G; [eauto|].
  destruct (str_eqb year y) eqn:Ey.
  - apply str_eqb_eq in Ey. subst y. rewrite get_append_same in G.
    injection G as <-. split; [apply I1; exact Y|].
    intros H. apply app_eq_nil in H as [_ H]. discriminate H.
  - apply str_eqb_neq in Ey. rewrite (get_append_other _ _ _ _ Ey) in G. eauto.
Qed.

Lemma flush_case_current_year (st st' : State) :
  flush_case st st' -> current_year st' = current_year st.
Proof. intros [H | qnum year n Q Y E]; reflexivity. Qed.

Lemma continuation_current_year (line : str) (st : State) :
  current_year (continuation line st) = current_year st.
Proof.
  unfold continuation.
  destruct (in_options st && opt_truthy (current_opt st)); [|reflexivity].
  destruct (current_opt st); [|reflexivity].
  destruct (str_truthy (strip line)); reflexivity.
Qed.

Lemma step_case_years_inv (st st' : State) (line : str) :
  step_case st line st' -> years_inv st -> years_inv st'.
Proof.
  intros C I. split.
  - destruct I as [I1 _]. destruct C; simpl; try exact I1.
    + intros y E. injection E as <-. apply (YEAR_group1 _ _ H).
    + rewrite (flush_case_current_year _ _ H2). exact I1.
    + rewrite continuation_current_year. exact I1.
  - apply (years_case_keys st _ (step_case_years _ _ _ C) I).
Qed.

Lemma run_years_inv (lines : list str) (st : State) :
  run init_state lines = Ok st -> years_inv st.
Proof.
  apply (run_invariant years_inv).
  - intros s raw s' I H. eapply step_case_years_inv; [apply step_inv; exact H | exact I].
  - split; simpl; intros; discriminate.
Qed.

(** ** One pattern at most *)

Lemma OPT_excludes_YEAR (line : str) m :
  OPT_RE_match line = Some m -> YEAR_RE_match line = None.
Proof.
  intros H. apply OPT_not_digit in H.
  destruct (YEAR_RE_match line) eqn:E; [|reflexivity].
  apply YEAR_starts_with_digit in E. congruence.
Qed.

Lemma OPT_excludes_QSTART (line : str) m :
  OPT_RE_match line = Some m -> QSTART_RE_match line = None.
Proof.
  intros H. apply OPT_not_digit in H.
  destruct (QSTART_RE_match line) eqn:E; [|reflexivity].
  apply QSTART_starts_with_digit in E. congruence.
Qed.

End ParserFacts.

Module DocxFacts.
Import Py PyFacts Convert ConvertFacts TextFacts StemFacts LineFacts Docx.

(** ** The lines of a table *)

Lemma one_line_app (s t : str) :
  one_line (s ++ t) = one_line s && one_line t.
Proof. unfold one_line. rewrite existsb_app, negb_orb. reflexivity. Qed.

Lemma one_line_join (sep : str) (parts : list str) :
  one_line sep = true -> Forall (fun p => one_line p = true) parts ->
  one_line (join sep parts) = true.
Proof.
  intros Hs F. induction F as [|p rest Hp F IH]; [reflexivity|].
  destruct rest as [|p' rest']; [exact Hp|].
  change (join sep (p :: p' :: rest')) with (p ++ sep ++ join sep (p' :: rest')).
  rewrite !one_line_app, Hp, Hs, IH. reflexivity.
Qed.

Lemma cell_text_spaced (c : cell) : spaced false (cell_text c) = true.
Proof. apply (normalize_inline_spaced (join (lit " ") (paragraph_texts c))). Qed.

Lemma cell_text_one_line (c : cell) : one_line (cell_text c) = true.
Proof.
  unfold one_line. rewrite (spaced_no_linebreak _ false (cell_text_spaced c)).
  reflexivity.
Qed.

Lemma table_line_one_line (r : list str) :
  Forall (fun p => one_line p = true) r -> one_line (table_line r) = true.
Proof.
  intros F. unfold table_line.
  rewrite !one_line_app, (one_line_join (lit " | ") r eq_refl F). reflexivity.
Qed.

Lemma pad_row_one_line (cols : nat) (r : list str) :
  Forall (fun p => one_line p = true) r ->
  Forall (fun p => one_line p = true) (pad_row cols r).
Proof.
  intros F. unfold pad_row. apply Forall_app. split; [exact F|].
  apply Forall_forall. intros p Hp. apply repeat_spec in Hp. subst p. reflexivity.
Qed.

Lemma cells_one_line (row : list cell) :
  Forall (fun p => one_line p = true) (map cell_text row).
Proof.
  apply Forall_forall. intros p Hp. apply in_map_iff in Hp as [c [<- _]].
  apply cell_text_one_line.
Qed.

Lemma dashes_one_line (cols : nat) :
  Forall (fun p => one_line p = true) (repeat (lit "---") cols).
Proof.
  apply Forall_forall. intros p Hp. apply repeat_spec in Hp. subst p. reflexivity.
Qed.

(** The line of a row begins with a pipe and ends with one. *)
Lemma table_line_shape (r : list str) :
  exists body, table_line r = "|"%char :: body ++ ["|"%char].
Proof.
  unfold table_line. exists (" "%char :: join (lit " | ") r ++ [" "%char]).
  simpl. rewrite <- List.app_assoc. reflexivity.
Qed.

(** The lines of the table with first row [row0] and other rows [rows]. *)
Definition rendered_lines (row0 : list cell) (rows : list (list cell)) : list str :=
  let cols := list_max (map (@List.length cell) (row0 :: rows)) in
  table_line (pad_row cols (map cell_text row0))
  :: table_line (repeat (lit "---") cols)
  :: map (fun r => table_line (pad_row cols (map cell_text r))) rows.

Lemma lengths_of_cells (tbl : table) :
  map (@List.length str) (map (map cell_text) tbl) = map (@List.length cell) tbl.
Proof.
  induction tbl as [|row tbl IH]; [reflexivity|].
  cbn [map]. rewrite IH, length_map. reflexivity.
Qed.

Lemma table_lines_rendered (row0 : list cell) (rows : list (list cell)) :
  table_lines (map (map cell_text) (row0 :: rows)) = rendered_lines row0 rows.
Proof.
  unfold table_lines, rendered_lines.
  rewrite lengths_of_cells.
  cbn [map]. rewrite !map_map. reflexivity.
Qed.

Lemma rendered_lines_proper (row0 : list cell) (rows : list (list cell)) :
  proper_lines (rendered_lines row0 rows)
  /\ Forall (fun l => exists body, l = "|"%char :: body ++ ["|"%char])
       (rendered_lines row0 rows).
Proof.
  assert (F : Forall (fun l => one_line l = true
                               /\ exists body, l = "|"%char :: body ++ ["|"%char])
                (rendered_lines row0 rows)).
  { unfold rendered_lines. repeat constructor.
    - apply table_line_one_line, pad_row_one_line, cells_one_line.
    - apply table_line_shape.
    - apply table_line_one_line, dashes_one_line.
    - apply table_line_shape.
    - apply Forall_forall. intros l Hl. apply in_map_iff in Hl as [r [<- _]].
      split; [apply table_line_one_line, pad_row_one_line, cells_one_line
             | apply table_line_shape]. }
  split; [split|].
  - eapply Forall_impl; [|exact F]. intros l [H _]. exact H.
  - assert (L : In (last (rendered_lines row0 rows) [LF]) (rendered_lines row0 rows)).
    { unfold rendered_lines.
      match goal with |- In (last ?l _) _ => destruct (exists_last (l := l)) as [l' [a E]] end.
      - discriminate.
      - rewrite E, last_last. apply in_or_app. right. left. reflexivity. }
    pose proof (proj1 (Forall_forall _ _) F _ L) as [_ [body E]].
    rewrite E. discriminate.
  - eapply Forall_impl; [|exact F]. intros l [_ H]. exact H.
Qed.

Lemma pad_row_length (cols : nat) (r : list str) :
  List.length r <= cols -> List.length (pad_row cols r) = cols.
Proof. intros H. unfold pad_row. rewrite length_app, repeat_length. lia. Qed.

Lemma list_max_ge (l : list nat) (n : nat) : In n l -> n <= list_max l.
Proof.
  intros H. pose proof (proj1 (list_max_le l (list_max l)) (Nat.le_refl _)) as F.
  apply (proj1 (Forall_forall _ _) F n H).
Qed.

(** ** A block of lines in the stem *)

Lemma squeeze_block (T : list str) :
  Forall (fun l => blank l = false) T -> T <> [] ->
  forall p pre post,
    squeeze p (pre ++ T ++ post) = squeeze p pre ++ map rstrip T ++ squeeze false post.
Proof.
  induction 1 as [|t T' B F IH]; intros NE p pre post; [congruence|].
  cbn [app map]. rewrite (squeeze_stop _ _ _ B). f_equal. f_equal.
  destruct T' as [|t' T'']; [reflexivity|].
  apply (IH ltac:(discriminate) false [] post).
Qed.

Lemma pop_blank_front_block (T pre post : list str) :
  Forall (fun l => blank l = false) T -> T <> [] ->
  pop_blank_front (pre ++ T ++ post) = pop_blank_front pre ++ T ++ post.
Proof.
  intros F NE. destruct T as [|t T']; [congruence|].
  inversion F as [|? ? B _]; subst.
  cbn [app]. apply pop_blank_front_stop, B.
Qed.

Lemma pop_blank_back_block (T pre post : list str) :
  Forall (fun l => blank l = false) T -> T <> [] ->
  pop_blank_back (pre ++ T ++ post) = pre ++ T ++ pop_blank_back post.
Proof.
  intros F NE. destruct (exists_last NE) as [T0 [t E]]. subst T.
  apply Forall_app in F as [_ F]. inversion F as [|? ? B _]; subst.
  replace (pre ++ (T0 ++ [t]) ++ post) with ((pre ++ T0) ++ t :: post)
    by (rewrite <- !List.app_assoc; reflexivity).
  rewrite (pop_blank_back_stop _ _ _ B), <- !List.app_assoc. reflexivity.
Qed.

Lemma finalize_out_block (T pre post : list str) :
  Forall (fun l => blank l = false) T -> Forall (fun l => rstrip l = l) T ->
  T <> [] ->
  exists before after, finalize_out (pre ++ T ++ post) = before ++ T ++ after.
Proof.
  intros B R NE. unfold finalize_out.
  rewrite (pop_blank_front_block T pre post B NE).
  rewrite (pop_blank_back_block T _ post B NE).
  rewrite (squeeze_block T B NE).
  assert (E : map rstrip T = T).
  { clear B NE. induction R as [|t T' Ht R IH]; [reflexivity|].
    simpl. rewrite Ht, IH. reflexivity. }
  rewrite E. eauto.
Qed.

Lemma join_app (sep : str) (A B : list str) :
  A <> [] -> B <> [] -> join sep (A ++ B) = join sep A ++ sep ++ join sep B.
Proof.
  intros NA NB. induction A as [|a A IH]; [congruence|].
  destruct A as [|a' A'].
  - destruct B; [congruence | reflexivity].
  - change (join sep ((a :: a' :: A') ++ B))
      with (a ++ sep ++ join sep ((a' :: A') ++ B)).
    rewrite IH by discriminate.
    change (join sep (a :: a' :: A')) with (a ++ sep ++ join sep (a' :: A')).
    rewrite <- !List.app_assoc. reflexivity.
Qed.

Lemma join_block (sep : str) (A T B : list str) :
  T <> [] -> exists x y, join sep (A ++ T ++ B) = x ++ join sep T ++ y.
Proof.
  intros NT.
  assert (R : exists y, join sep (T ++ B) = join sep T ++ y).
  { destruct B as [|b B'].
    - exists []. rewrite !List.app_nil_r. reflexivity.
    - exists (sep ++ join sep (b :: B')). apply join_app; [exact NT | discriminate]. }
  destruct R as [y Ey]. destruct A as [|a A'].
  - exists [], y. exact Ey.
  - exists (join sep (a :: A') ++ sep), y.
    rewrite join_app, Ey; [| discriminate | destruct T; [congruence | discriminate]].
    rewrite <- !List.app_assoc. reflexivity.
Qed.

(** ** The text of a document *)

(** No run of line feeds is longer than two; [run] counts the line feeds
    just before the string. *)
Fixpoint short_runs (run : nat) (s : str) : bool :=
  match s with
  | [] => true
  | c :: s' =>
      if is_LF c then (run <? 2) && short_runs (S run) s' else short_runs 0 s'
  end.

Lemma sub_newlines_short (s : str) : forall run, short_runs run (sub_newlines run s) = true.
Proof.
  induction s as [|c s IH]; intros run; simpl; [reflexivity|].
  destruct (is_LF c) eqn:L.
  - destruct (run <? 2) eqn:R; [|apply IH]. simpl. rewrite L, R. apply IH.
  - simpl. rewrite L. apply IH.
Qed.

Lemma short_runs_no_triple (x y : str) :
  forall run, short_runs run (x ++ [LF; LF; LF] ++ y) = false.
Proof.
  induction x as [|c x IH]; intros run.
  - simpl. destruct run as [|[|run]]; reflexivity.
  - simpl. destruct (is_LF c); [rewrite IH; apply andb_false_r | apply IH].
Qed.

Lemma sub_newlines_keeps_absent (p : Ascii.ascii -> bool) (s : str) :
  existsb p s = false -> forall run, existsb p (sub_newlines run s) = false.
Proof.
  induction s as [|c s IH]; intros H run; simpl; [reflexivity|].
  simpl in H. apply orb_false_iff in H as [Hc Hs].
  destruct (is_LF c); [destruct (run <? 2)|]; cbn [existsb]; rewrite ?Hc;
    cbn [orb]; apply IH; exact Hs.
Qed.

(** A carriage return or a no-break space. *)
Definition cr_or_nbsp (c : Ascii.ascii) : bool :=
  Ascii.eqb c CR || (code c =? 160).

Lemma absent_app (p : Ascii.ascii -> bool) (s t : str) :
  existsb p s = false -> existsb p t = false -> existsb p (s ++ t) = false.
Proof. intros Hs Ht. rewrite existsb_app, Hs, Ht. reflexivity. Qed.

Lemma absent_join (p : Ascii.ascii -> bool) (sep : str) (parts : list str) :
  existsb p sep = false -> Forall (fun t => existsb p t = false) parts ->
  existsb p (join sep parts) = false.
Proof.
  intros Hs F. induction F as [|t rest Ht F IH]; [reflexivity|].
  destruct rest as [|t' rest']; [exact Ht|].
  change (join sep (t :: t' :: rest')) with (t ++ sep ++ join sep (t' :: rest')).
  repeat apply absent_app; assumption.
Qed.

Lemma spaced_no_cr_nbsp (s : str) :
  forall b, spaced b s = true -> existsb cr_or_nbsp s = false.
Proof.
  induction s as [|c s IH]; intros b; simpl; [reflexivity|].
  destruct (isspace c) eqn:Hc.
  - intros H. apply andb_true_iff in H as [H Hs]. apply andb_true_iff in H as [_ He].
    apply Ascii.eqb_eq in He. subst c. simpl. apply (IH true Hs).
  - intros H. rewrite (IH false H), orb_false_r.
    destruct (cr_or_nbsp c) eqn:K; [|reflexivity].
    unfold cr_or_nbsp in K. apply orb_true_iff in K as [K | K].
    + apply Ascii.eqb_eq in K. subst c. discriminate Hc.
    + unfold isspace in Hc. rewrite K in Hc. rewrite orb_true_r in Hc. discriminate Hc.
Qed.

Lemma paragraph_no_cr_nbsp (t : str) :
  existsb cr_or_nbsp (smart_quotes_str (cr_to_lf t)) = false.
Proof.
  rewrite smart_quotes_latin1. unfold cr_to_lf. rewrite map_map.
  induction t as [|c t IH]; [reflexivity|].
  cbn [map existsb]. rewrite IH, orb_false_r.
  destruct c as [[] [] [] [] [] [] [] []]; reflexivity.
Qed.

Lemma table_line_no_cr_nbsp (r : list str) :
  Forall (fun t => existsb cr_or_nbsp t = false) r ->
  existsb cr_or_nbsp (table_line r) = false.
Proof.
  intros F. unfold table_line.
  repeat apply absent_app; try reflexivity.
  apply absent_join; [reflexivity | exact F].
Qed.

Lemma table_no_cr_nbsp (tbl : table) :
  existsb cr_or_nbsp (table_to_markdown tbl) = false.
Proof.
  unfold table_to_markdown. destruct tbl as [|row0 rows]; [reflexivity|].
  cbn [map]. change (map cell_text row0 :: map (map cell_text) rows)
    with (map (map cell_text) (row0 :: rows)).
  rewrite table_lines_rendered.
  assert (C : forall row, Forall (fun t => existsb cr_or_nbsp t = false)
                            (map cell_text row)).
  { intros row. apply Forall_forall. intros t Ht.
    apply in_map_iff in Ht as [c [<- _]].
    apply (spaced_no_cr_nbsp _ false (cell_text_spaced c)). }
  assert (P : forall cols row, Forall (fun t => existsb cr_or_nbsp t = false)
                                 (pad_row cols (map cell_text row))).
  { intros cols row. unfold pad_row. apply Forall_app. split; [apply C|].
    apply Forall_forall. intros t Ht. apply repeat_spec in Ht. subst t. reflexivity. }
  apply absent_join; [reflexivity|]. unfold rendered_lines.
  repeat constructor.
  - apply table_line_no_cr_nbsp, P.
  - apply table_line_no_cr_nbsp. apply Forall_forall. intros t Ht.
    apply repeat_spec in Ht. subst t. reflexivity.
  - apply Forall_forall. intros l Hl. apply in_map_iff in Hl as [r [<- _]].
    apply table_line_no_cr_nbsp, P.
Qed.

Lemma block_texts_no_cr_nbsp (doc : list block) :
  Forall (fun t => existsb cr_or_nbsp t = false) (block_texts doc).
Proof.
  induction doc as [|[text | tbl] doc IH]; simpl; [constructor | |].
  - constructor; [apply paragraph_no_cr_nbsp | exact IH].
  - destruct (str_truthy (strip (table_to_markdown tbl))); [|exact IH].
    constructor; [apply table_no_cr_nbsp | exact IH].
Qed.

End DocxFacts.

Module ReindexFacts.
Import Py PyFacts IdCorrector IdCorrectorFacts.

(** ** The counter inside an identifier *)

Lemma string_of_uint_digits (d : Decimal.uint) :
  forallb isdigit (lit (NilEmpty.string_of_uint d)) = true.
Proof. induction d; simpl; auto. Qed.

Lemma decimal_digits (n : N) : forallb isdigit (decimal n) = true.
Proof.
  unfold decimal. generalize (N.to_uint n). intros d.
  destruct d; [reflexivity | ..]; apply (string_of_uint_digits (_ d)).
Qed.

Lemma zero_pad_digits (w : nat) (n : N) : forallb isdigit (zero_pad w n) = true.
Proof.
  unfold zero_pad. rewrite forallb_app, decimal_digits, andb_true_r.
  induction (w - List.length (decimal n)) as [|k IH]; [reflexivity | exact IH].
Qed.

(** The longest suffix of digits. *)
Fixpoint tail_digits (s : str) : str :=
  match s with
  | [] => []
  | _ :: s' => if forallb isdigit s then s else tail_digits s'
  end.

Lemma tail_digits_all (d : str) : forallb isdigit d = true -> tail_digits d = d.
Proof. intros H. destruct d as [|c d]; [reflexivity|]. cbn [tail_digits]. rewrite H. reflexivity. Qed.

Lemma tail_digits_after (pre : str) (c : Ascii.ascii) (d : str) :
  isdigit c = false -> forallb isdigit d = true ->
  tail_digits (pre ++ c :: d) = d.
Proof.
  intros Hc Hd. induction pre as [|x pre IH].
  - cbn [app tail_digits forallb]. rewrite Hc. cbn [andb]. apply tail_digits_all, Hd.
  - cbn [app tail_digits].
    replace (forallb isdigit (x :: pre ++ c :: d)) with false; [exact IH|].
    cbn [forallb]. rewrite forallb_app. cbn [forallb]. rewrite Hc.
    rewrite andb_false_r, andb_false_r. reflexivity.
Qed.

(** The number at the end of the identifier of a question. *)
Definition id_counter (id : option json) : option N :=
  match id with
  | Some (JStr s) => read_back (tail_digits s)
  | _ => None
  end.

Lemma new_id_counter (year : str) (n : N) :
  id_counter (Some (JStr (new_id year n))) = Some n.
Proof.
  unfold id_counter, new_id.
  replace (lit "ENVI-" ++ year ++ lit "-" ++ zero_pad 3 n)
    with ((lit "ENVI-" ++ year) ++ "-"%char :: zero_pad 3 n)
    by (rewrite <- List.app_assoc; reflexivity).
  rewrite tail_digits_after; [apply zero_pad_read_back | reflexivity | apply zero_pad_digits].
Qed.

(** Identifiers with different counters differ, whatever the years. *)
Lemma new_id_inj (y1 y2 : str) (n m : N) : new_id y1 n = new_id y2 m -> n = m.
Proof.
  intros H. apply (f_equal (fun s => id_counter (Some (JStr s)))) in H.
  rewrite !new_id_counter in H. congruence.
Qed.

(** ** The counters of a list of questions *)

(** [n] numbers from [c] on. *)
Fixpoint count_from (c : N) (n : nat) : list N :=
  match n with
  | O => []
  | S n' => c :: count_from (c + 1) n'
  end.

Lemma count_from_app (a b : nat) :
  forall c, count_from c (a + b) = count_from c a ++ count_from (c + N.of_nat a) b.
Proof.
  induction a as [|a IH]; intros c.
  - simpl. rewrite N.add_0_r. reflexivity.
  - cbn [Nat.add count_from app]. rewrite IH. do 3 f_equal. lia.
Qed.

Lemma count_from_ge (n : nat) : forall c k, In k (count_from c n) -> (c <= k)%N.
Proof.
  induction n as [|n IH]; intros c k; simpl; [tauto|].
  intros [<- | H]; [lia|]. apply IH in H. lia.
Qed.

Lemma count_from_NoDup (n : nat) : forall c, NoDup (count_from c n).
Proof.
  induction n as [|n IH]; intros c; simpl; constructor; [|apply IH].
  intros H. apply count_from_ge in H. lia.
Qed.

Lemma count_from_length (n : nat) : forall c, List.length (count_from c n) = n.
Proof. induction n as [|n IH]; intros c; simpl; [|rewrite IH]; reflexivity. Qed.

(** The identifier of a question. *)
Definition id_field (q : Question) : option json := PyDict.get (lit "id") q.

Lemma reindex_list_length (year : str) (qs : list Question) :
  forall c, List.length (fst (reindex_list year c qs)) = List.length qs.
Proof.
  induction qs as [|q qs IH]; intros c; [reflexivity|].
  simpl. specialize (IH (c + 1)%N).
  destruct (reindex_list year (c + 1) qs). simpl in *. rewrite IH. reflexivity.
Qed.

Lemma reindex_list_counters (year : str) (qs : list Question) :
  forall c, map (fun q => id_counter (id_field q)) (fst (reindex_list year c qs))
            = map Some (count_from c (List.length qs)).
Proof.
  induction qs as [|q qs IH]; intros c; [reflexivity|].
  simpl. specialize (IH (c + 1)%N).
  destruct (reindex_list year (c + 1) qs) as [qs' c']. simpl in *.
  rewrite IH. f_equal.
  unfold id_field. rewrite DictFacts.get_set_same. apply new_id_counter.
Qed.

(** Numbering a list that was numbered before gives the same as numbering
    the list itself: the old identifiers play no part. *)
Lemma set_set {V : Type} (k : str) (v w : V) (d : PyDict.dict V) :
  PyDict.set k v (PyDict.set k w d) = PyDict.set k v d.
Proof.
  induction d as [|[k' v'] d IH]; simpl.
  - rewrite str_eqb_refl. reflexivity.
  - destruct (str_eqb k' k) eqn:E; simpl; rewrite E; [reflexivity|].
    rewrite IH. reflexivity.
Qed.

Lemma reindex_list_again (year : str) (qs : list Question) :
  forall c c', fst (reindex_list year c (fst (reindex_list year c' qs)))
               = fst (reindex_list year c qs).
Proof.
  induction qs as [|q qs IH]; intros c c'; [reflexivity|].
  simpl. specialize (IH (c + 1)%N (c' + 1)%N).
  destruct (reindex_list year (c' + 1) qs) as [qs1 c1]. simpl in *.
  destruct (reindex_list year (c + 1) qs1) as [qs2 c2].
  destruct (reindex_list year (c + 1) qs) as [qs3 c3]. simpl in *.
  rewrite set_set, IH. reflexivity.
Qed.

(** ** All the questions of a mapping *)

Definition all_questions (ys : Years) : list Question := List.concat (map snd ys).

Lemma Permutation_concat {A : Type} (l l' : list (list A)) :
  Permutation l l' -> Permutation (List.concat l) (List.concat l').
Proof.
  induction 1; simpl.
  - constructor.
  - apply Permutation_app_head. assumption.
  - rewrite !List.app_assoc. apply Permutation_app_tail, Permutation_app_comm.
  - eapply perm_trans; eassumption.
Qed.

Lemma lists_of_keys (ys : Years) :
  NoDup (PyDict.keys ys) -> lists_of ys (PyDict.keys ys) = map snd ys.
Proof.
  unfold lists_of. induction ys as [|[k v] ys IH]; intros ND; [reflexivity|].
  inversion ND as [|? ? Hn ND']; subst. cbn [PyDict.keys map fst snd].
  f_equal.
  - unfold PyDict.get_default. simpl. rewrite str_eqb_refl. reflexivity.
  - rewrite <- (IH ND'). apply map_ext_in. intros y Hy.
    unfold PyDict.get_default. simpl.
    destruct (str_eqb k y) eqn:E; [|reflexivity].
    apply str_eqb_eq in E. subst y. contradiction.
Qed.

Lemma all_questions_perm (ys : Years) (order : list str) :
  NoDup (PyDict.keys ys) -> Permutation order (PyDict.keys ys) ->
  Permutation (List.concat (lists_of ys order)) (all_questions ys).
Proof.
  intros ND P. unfold all_questions. rewrite <- (lists_of_keys ys ND).
  apply Permutation_concat. unfold lists_of. apply Permutation_map, P.
Qed.

Lemma firstn_snoc {A : Type} (l : list A) (i : nat) (x : A) :
  nth_error l i = Some x -> firstn (S i) l = firstn i l ++ [x].
Proof.
  revert i. induction l as [|a l IH]; intros [|i] H; try discriminate.
  - injection H as ->. destruct l; reflexivity.
  - cbn [firstn app]. f_equal. apply IH, H.
Qed.

(** The lists of the years in the order of the visit, after the visit:
    their lengths are those of before and their counters go up from [c]. *)
Lemma visited_counters (ys ys' : Years) (order : list str) (c : N) :
  (forall i y, nth_error order i = Some y ->
               PyDict.get y ys'
               = Some (fst (reindex_list y (c + count_before ys order i)
                              (PyDict.get_default y [] ys)))) ->
  forall i, i <= List.length order ->
    map (fun q => id_counter (id_field q))
        (List.concat (lists_of ys' (firstn i order)))
    = map Some (count_from c (List.length (List.concat (lists_of ys (firstn i order))))).
Proof.
  intros Nth. induction i as [|i IH]; intros Hi; [reflexivity|].
  destruct (nth_error order i) as [y|] eqn:E;
    [|apply nth_error_None in E; lia].
  rewrite (firstn_snoc _ _ _ E). unfold lists_of in *.
  rewrite !map_app, !concat_app, map_app, length_app. cbn [map List.concat].
  rewrite !List.app_nil_r.
  rewrite IH by lia. rewrite count_from_app, map_app. f_equal.
  unfold PyDict.get_default at 1. rewrite (Nth i y E).
  rewrite reindex_list_counters. unfold count_before, lists_of. reflexivity.
Qed.

Lemma visited_lengths (ys ys' : Years) (order : list str) (c : N) :
  (forall i y, nth_error order i = Some y ->
               PyDict.get y ys'
               = Some (fst (reindex_list y (c + count_before ys order i)
                              (PyDict.get_default y [] ys)))) ->
  forall i, i <= List.length order ->
    count_before ys' order i = count_before ys order i.
Proof.
  intros Nth. induction i as [|i IH]; intros Hi; [reflexivity|].
  destruct (nth_error order i) as [y|] eqn:E;
    [|apply nth_error_None in E; lia].
  specialize (IH ltac:(lia)). unfold count_before in *.
  rewrite (firstn_snoc _ _ _ E). unfold lists_of in *.
  rewrite !map_app, !concat_app, !length_app. cbn [map List.concat].
  rewrite !List.app_nil_r.
  apply Nnat.Nat2N.inj in IH. rewrite IH. do 2 f_equal.
  unfold PyDict.get_default at 1. rewrite (Nth i y E).
  apply reindex_list_length.
Qed.

(** Two dictionaries with the same keys and the same values are one. *)
Lemma dict_ext {V : Type} (d d' : PyDict.dict V) :
  NoDup (PyDict.keys d) -> PyDict.keys d' = PyDict.keys d ->
  (forall k, In k (PyDict.keys d) -> PyDict.get k d' = PyDict.get k d) ->
  d' = d.
Proof.
  revert d'. induction d as [|[k v] d IH]; intros [|[k' v'] d'] ND K G;
    try discriminate; [reflexivity|].
  cbn [PyDict.keys map fst] in K. injection K as -> K.
  inversion ND as [|? ? Hn ND']; subst.
  pose proof (G k (or_introl eq_refl)) as Gk. simpl in Gk.
  rewrite str_eqb_refl in Gk. injection Gk as ->.
  f_equal. apply (IH d' ND' K). intros y Hy.
  specialize (G y (or_intror Hy)). simpl in G.
  destruct (str_eqb k y) eqn:E; [|exact G].
  apply str_eqb_eq in E. subst y. contradiction.
Qed.

Lemma firstn_whole {A : Type} (l : list A) : firstn (List.length l) l = l.
Proof. induction l as [|a l IH]; simpl; [|rewrite IH]; reflexivity. Qed.

Lemma NoDup_map_Some {A : Type} (l : list A) : NoDup l -> NoDup (map Some l).
Proof.
  induction 1 as [|a l Hn ND IH]; simpl; constructor; [|exact IH].
  intros H. apply in_map_iff in H as [x [E Hx]]. injection E as ->. contradiction.
Qed.

(** The run of [reindex] in one statement: the total, the keys, the number
    of questions, the counters in the order of the visit and the
    identifiers. *)
Lemma reindex_summary (ys : Years) :
  NoDup (PyDict.keys ys) ->
  exists ys',
    reindex ys = Ok (ys', (1 + N.of_nat (List.length (all_questions ys)))%N)
    /\ PyDict.keys ys' = PyDict.keys ys
    /\ List.length (all_questions ys') = List.length (all_questions ys)
    /\ map (fun q => id_counter (id_field q))
           (List.concat (lists_of ys' (sorted_desc (PyDict.keys ys))))
       = map Some (count_from 1 (List.length (all_questions ys)))
    /\ NoDup (map id_field (all_questions ys')).
Proof.
  intros ND. destruct (reindex_spec ys ND) as [ys' [R [K Nth]]].
  set (order := sorted_desc (PyDict.keys ys)) in *.
  assert (P : Permutation order (PyDict.keys ys)) by apply sorted_desc_perm.
  assert (ND' : NoDup (PyDict.keys ys')) by (rewrite K; exact ND).
  assert (P' : Permutation order (PyDict.keys ys')) by (rewrite K; exact P).
  assert (C : count_before ys order (List.length order)
              = N.of_nat (List.length (all_questions ys))).
  { unfold count_before. rewrite firstn_whole.
    rewrite (Permutation_length (all_questions_perm ys order ND P)). reflexivity. }
  pose proof (visited_lengths ys ys' order 1%N Nth (List.length order) (Nat.le_refl _)) as L.
  unfold count_before in L. rewrite firstn_whole in L. apply Nnat.Nat2N.inj in L.
  pose proof (visited_counters ys ys' order 1%N Nth (List.length order) (Nat.le_refl _)) as Cn.
  rewrite firstn_whole in Cn.
  rewrite (Permutation_length (all_questions_perm ys order ND P)) in Cn.
  exists ys'. split; [rewrite R, C; reflexivity|]. split; [exact K|].
  split; [|split; [exact Cn|]].
  - rewrite <- (Permutation_length (all_questions_perm ys order ND P)).
    rewrite <- (Permutation_length (all_questions_perm ys' order ND' P')).
    exact L.
  - apply (Permutation_NoDup
             (Permutation_map id_field (all_questions_perm ys' order ND' P'))).
    apply (NoDup_map_inv id_counter). rewrite map_map, Cn.
    apply NoDup_map_Some, count_from_NoDup.
Qed.

End ReindexFacts.

Module TextMoreFacts.
Import Py PyFacts Convert ConvertFacts TextFacts StemFacts.

(** ** The characters [normalize_inline] keeps *)

Definition not_space (c : Ascii.ascii) : bool := negb (isspace c).

Lemma filter_all_space (a : str) : forallb isspace a = true -> filter not_space a = [].
Proof.
  induction a as [|c a IH]; simpl; [reflexivity|].
  intros H. apply andb_true_iff in H as [Hc Ha].
  unfold not_space at 1. rewrite Hc. simpl. apply IH, Ha.
Qed.

Lemma filter_strip (s : str) : filter not_space (strip s) = filter not_space s.
Proof.
  destruct (strip_decompose s) as [a [b [E [Ha Hb]]]].
  rewrite E at 2. rewrite !filter_app, (filter_all_space a Ha), (filter_all_space b Hb).
  rewrite List.app_nil_r. reflexivity.
Qed.

Lemma filter_sub_ws_runs (s : str) :
  forall b, filter not_space (sub_ws_runs b s) = filter not_space s.
Proof.
  induction s as [|c s IH]; intros b; simpl; [reflexivity|].
  unfold not_space at 2. destruct (isspace c) eqn:Hc; simpl.
  - destruct b; simpl; apply IH.
  - unfold not_space at 1. rewrite Hc. simpl. f_equal. apply IH.
Qed.

(** ** The first and the last line of a stem *)

Lemma pop_blank_front_length (lines : list str) :
  List.length (pop_blank_front lines) <= List.length lines.
Proof.
  destruct (pop_blank_front_suffix lines) as [pre [E _]].
  rewrite E at 2. rewrite length_app. lia.
Qed.

Lemma pop_blank_back_last (pre : list str) (ln : str) :
  pop_blank_back (pre ++ [ln]) = pre ++ [ln] -> blank ln = false.
Proof.
  unfold pop_blank_back. rewrite rev_app_distr. cbn [rev app pop_blank_front].
  destruct (blank ln); [|reflexivity].
  intros H. apply (f_equal (@List.length str)) in H.
  rewrite length_rev, length_app in H. cbn [List.length] in H.
  pose proof (pop_blank_front_length (rev pre)) as L. rewrite length_rev in L. lia.
Qed.

(** ** The options of a record *)

(** An option of a record: the capital of its letter, a full stop, a space
    and a text with single spaces and nothing around. *)
Definition option_shape (letter o : str) : Prop :=
  exists t, o = upper letter ++ lit ". " ++ t
            /\ normalize_inline t = t.

Lemma render_option_shape (opts : PyDict.dict str) (letter : str) :
  option_shape letter (render_option opts letter).
Proof.
  unfold render_option, option_shape.
  set (t := normalize_inline (PyDict.get_default letter [] opts)).
  destruct (str_truthy t) eqn:T.
  - exists t. split; [reflexivity | apply normalize_inline_idem].
  - apply str_truthy_false in T. exists []. rewrite List.app_nil_r. split; reflexivity.
Qed.

Lemma make_record_option_shape (st : State) (year : str) (n : N) :
  Forall2 option_shape letters (q_options (make_record st year n)).
Proof.
  cbn [make_record q_options]. unfold letters. cbn [map].
  repeat constructor; apply render_option_shape.
Qed.

End TextMoreFacts.

(* ================================================================= *)
(** * Properties of the text utilities *)

Module TextProps.
Import Py PyFacts Convert ConvertFacts TextFacts StemFacts TextMoreFacts.

(** X1: [smart_quotes_to_ascii] replaces every curly quote, dash and no-break
    space by its plain character and leaves every other character alone, at
    its place; the result holds none of the seven characters, and the
    function changes nothing when applied again. *)
Theorem smart_quotes_replaced (s : SmartQuotes.ustr) :
  let r := SmartQuotes.smart_quotes_to_ascii s in
  r = map plain s
  /\ Forall (fun c => typographic c = false) r
  /\ (forall i c, nth_error s i = Some c -> typographic c = false ->
                  nth_error r i = Some c)
  /\ SmartQuotes.smart_quotes_to_ascii r = r.
Proof.
  intros r. subst r. rewrite !smart_quotes_map. split; [reflexivity|].
  split; [|split].
  - apply Forall_forall. intros c Hc. apply in_map_iff in Hc as [c0 [<- _]].
    apply plain_not_typographic.
  - intros i c Hi Hc. rewrite nth_error_map, Hi. simpl. rewrite (plain_fixed c Hc).
    reflexivity.
  - rewrite map_map. apply map_ext. intros c. apply plain_idem.
Qed.

(** X2: the result of [normalize_inline] has no whitespace at its ends, its
    only whitespace characters are single spaces between two other
    characters, it has the characters of the argument that are not
    whitespace, in their order, and normalizing it again changes nothing. *)
Theorem normalize_inline_normal (s : str) :
  let t := normalize_inline s in
  strip t = t
  /\ spaced false t = true
  /\ existsb islinebreak t = false
  /\ filter not_space t = filter not_space s
  /\ normalize_inline t = t.
Proof.
  intros t. subst t. split; [|split; [|split; [|split]]].
  - unfold normalize_inline. apply strip_idem.
  - apply normalize_inline_spaced.
  - apply (spaced_no_linebreak _ false), normalize_inline_spaced.
  - unfold normalize_inline. rewrite filter_strip. apply filter_sub_ws_runs.
  - apply normalize_inline_idem.
Qed.

(** X3: whatever the lines, the stem [finalize_question_text] builds is the
    lines of [out] joined by line feeds, where [out] neither begins nor ends
    with a blank line, has no two blank lines in a row, has its blank lines
    empty and its other lines without whitespace at their end; finalizing
    [out] again gives [out]. *)
Theorem stem_is_settled (lines : list str) :
  let out := finalize_out lines in
  finalize_question_text lines = join [LF] out
  /\ settled false out = true
  /\ (forall ln rest, out = ln :: rest -> blank ln = false)
  /\ (forall pre ln, out = pre ++ [ln] -> blank ln = false)
  /\ finalize_out out = out.
Proof.
  intros out. subst out.
  destruct (finalize_out_settled lines) as [S [Tf Tb]].
  split; [reflexivity|]. split; [exact S|]. split; [|split].
  - intros ln rest E. rewrite E in Tf. eapply pop_blank_front_head. exact Tf.
  - intros pre ln E. rewrite E in Tb. eapply pop_blank_back_last. exact Tb.
  - apply finalize_out_idem.
Qed.

(** X4: in every record [parse_text] emits, the option at the place of a
    letter is the capital letter, a full stop, a space and a normalized
    text: no line break, no whitespace at its ends, single spaces inside. *)
Theorem options_are_normalized (text : str) (ys : Years) (y : str)
  (qs : list Question) (q : Question) :
  parse_text text = Ok ys -> PyDict.get y ys = Some qs -> In q qs ->
  Forall2 (fun letter o =>
             exists t, o = upper letter ++ lit ". " ++ t
                       /\ strip t = t /\ spaced false t = true
                       /\ existsb islinebreak t = false)
          letters (q_options q).
Proof.
  intros H G Hin.
  pose proof (parse_text_records
                (fun _ q => Forall2 option_shape letters (q_options q))
                make_record_option_shape text ys H y qs q G Hin) as F.
  eapply Forall2_impl; [|exact F].
  intros letter o [t [E N]]. exists t. split; [exact E|].
  rewrite <- N. split; [|split].
  - unfold normalize_inline. apply strip_idem.
  - apply normalize_inline_spaced.
  - apply (spaced_no_linebreak _ false), normalize_inline_spaced.
Qed.

Lemma options_are_normalized_witness :
  Forall2 (fun letter o =>
             exists t, o = upper letter ++ lit ". " ++ t
                       /\ strip t = t /\ spaced false t = true
                       /\ existsb islinebreak t = false)
          letters (map lit ["A. w x"; "B. y z"; "C. "; "D. "]%string).
Proof.
  exact (options_are_normalized
           (join [LF] (map lit ["2020"; "1. Q"; "(a) w   x"; "(b) y"; " z "]%string))
           _ (lit "2020") _ _ eq_refl eq_refl (or_introl eq_refl)).
Defined.

End TextProps.

(* ================================================================= *)
(** * Properties of the patterns and of the text of a document *)

Module DocxProps.
Import Py PyFacts Convert ConvertFacts TextFacts StemFacts LineFacts ParserFacts.
Import Docx DocxFacts.

(** X5: no line matches two of the three patterns: a line that is a year
    heading is neither a question start nor an option marker, and so on; the
    order in which [parse_text] tries them decides nothing. *)
Theorem patterns_exclude_each_other (line : str) :
  (YEAR_RE_match line <> None ->
   QSTART_RE_match line = None /\ OPT_RE_match line = None)
  /\ (QSTART_RE_match line <> None ->
      YEAR_RE_match line = None /\ OPT_RE_match line = None)
  /\ (OPT_RE_match line <> None ->
      YEAR_RE_match line = None /\ QSTART_RE_match line = None).
Proof.
  destruct (YEAR_RE_match line) as [y|] eqn:Y;
    destruct (QSTART_RE_match line) as [q|] eqn:Q;
    destruct (OPT_RE_match line) as [o|] eqn:O;
    try (split; [|split]; intros H; try (exfalso; apply H; reflexivity);
         split; reflexivity).
  all: exfalso.
  - rewrite (YEAR_excludes_QSTART _ _ Y) in Q. discriminate.
  - rewrite (YEAR_excludes_QSTART _ _ Y) in Q. discriminate.
  - rewrite (OPT_excludes_YEAR _ _ O) in Y. discriminate.
  - rewrite (OPT_excludes_QSTART _ _ O) in Q. discriminate.
Qed.

(** X6: the text of a table with the rows [row0 :: rows] splits into one
    line for the first row, the line of dashes and one line for each other
    row, whatever the paragraphs of the cells hold; and every row is brought
    to the number of cells of the longest. *)
Theorem table_lines_of_rows (row0 : list cell) (rows : list (list cell)) :
  let md := table_to_markdown (row0 :: rows) in
  let cols := list_max (map (@List.length cell) (row0 :: rows)) in
  splitlines md
  = table_line (pad_row cols (map cell_text row0))
    :: table_line (repeat (lit "---") cols)
    :: map (fun r => table_line (pad_row cols (map cell_text r))) rows
  /\ List.length (splitlines md) = 2 + List.length rows
  /\ Forall (fun r => List.length (pad_row cols (map cell_text r)) = cols)
       (row0 :: rows).
Proof.
  intros md cols.
  assert (E : splitlines md = rendered_lines row0 rows).
  { subst md. unfold table_to_markdown. cbn [map].
    change (map cell_text row0 :: map (map cell_text) rows)
      with (map (map cell_text) (row0 :: rows)).
    rewrite table_lines_rendered.
    apply splitlines_join_LF, rendered_lines_proper. }
  split; [exact E|]. split.
  - rewrite E. unfold rendered_lines. cbn [List.length]. rewrite length_map. reflexivity.
  - apply Forall_forall. intros r Hr. apply pad_row_length.
    rewrite length_map. apply list_max_ge. apply in_map, Hr.
Qed.

(** X7: the lines of a table met while the stem of a question is being
    collected all go to the stem, as they are, and the record flushed from
    these lines has the text of the table, unbroken, inside its question. *)
Theorem table_kept_in_stem
  (raws : list str) (st : State) (row0 : list cell) (rows : list (list cell)) :
  run init_state raws = Ok st ->
  current_qnum st <> None ->
  in_options st = false ->
  let T := splitlines (table_to_markdown (row0 :: rows)) in
  run st T = Ok (with_stem_lines T st)
  /\ (forall st2 st3 year qnum more,
         q_lines st2 = q_lines st ++ T ++ more ->
         current_year st2 = Some year -> current_qnum st2 = Some qnum ->
         flush_question st2 = Ok st3 ->
         exists q x y,
           questions_of year (years st3) = questions_of year (years st2) ++ [q]
           /\ q_question q = x ++ table_to_markdown (row0 :: rows) ++ y).
Proof.
  intros R Q O T.
  assert (E : T = rendered_lines row0 rows).
  { subst T. unfold table_to_markdown. cbn [map].
    change (map cell_text row0 :: map (map cell_text) rows)
      with (map (map cell_text) (row0 :: rows)).
    rewrite table_lines_rendered.
    apply splitlines_join_LF, rendered_lines_proper. }
  assert (J : table_to_markdown (row0 :: rows) = join [LF] T).
  { rewrite E. unfold table_to_markdown. cbn [map].
    change (map cell_text row0 :: map (map cell_text) rows)
      with (map (map cell_text) (row0 :: rows)).
    rewrite table_lines_rendered. reflexivity. }
  destruct (rendered_lines_proper row0 rows) as [_ Sh]. rewrite <- E in Sh.
  assert (NE : T <> []) by (rewrite E; discriminate).
  assert (Fx : Forall (fun l => rstrip l = l) T).
  { eapply Forall_impl; [|exact Sh]. intros l [body ->].
    rewrite app_comm_cons. apply rstrip_snoc_keep. reflexivity. }
  assert (Bl : Forall (fun l => blank l = false) T).
  { eapply Forall_impl; [|exact Sh]. intros l [body ->].
    rewrite blank_fully_blank. reflexivity. }
  assert (Nm : Forall (fun raw => YEAR_RE_match (rstrip raw) = None
                                  /\ OPT_RE_match (rstrip raw) = None) T).
  { apply Forall_forall. intros l Hl.
    rewrite (proj1 (Forall_forall _ _) Fx l Hl).
    destruct (proj1 (Forall_forall _ _) Sh l Hl) as [body ->].
    destruct (plain_start_no_match "|"%char (body ++ ["|"%char]) eq_refl)
      as [Y [_ Op]].
    split; assumption. }
  split.
  - rewrite (run_in_stem T st (reachable_in_stem raws st R Q O) Nm).
    do 2 f_equal. clear - Fx. induction Fx as [|l T Hl F IH]; [reflexivity|].
    simpl. rewrite Hl, IH. reflexivity.
  - intros st2 st3 year qnum more L2 Y2 Q2 F.
    destruct (flush_appends _ _ _ _ Y2 Q2 F) as [n [_ ->]].
    destruct (finalize_out_block T (q_lines st) more Bl Fx NE) as [before [after Eo]].
    destruct (join_block [LF] before T after NE) as [x [y Ej]].
    exists (make_record st2 year n), x, y.
    split; [apply after_flush_questions|].
    cbn [make_record q_question]. unfold finalize_question_text.
    rewrite L2, Eo, Ej, J. reflexivity.
Qed.

(** A question of 2020 whose stem is being collected, and a table of two
    rows, the second shorter than the first. *)
Definition stem_open_lines : list str := map lit ["2020"; "1. Match the pairs"]%string.

Definition stem_open_state : State :=
  {| years := []; current_year := Some (lit "2020"); current_qnum := Some (lit "1");
     q_lines := [lit "Match the pairs"]; options := []; current_opt := None;
     in_options := false |}.

Definition pairs_table : table :=
  [[[Some (lit "List I")]; [Some (lit "List II")]]; [[Some (lit " 1. Lion ")]]].

Lemma table_kept_in_stem_witness :
  splitlines (table_to_markdown pairs_table)
  = map lit ["| List I | List II |"; "| --- | --- |"; "| 1. Lion |  |"]%string
  /\ run stem_open_state (splitlines (table_to_markdown pairs_table))
     = Ok (with_stem_lines (splitlines (table_to_markdown pairs_table))
             stem_open_state).
Proof.
  split; [reflexivity|].
  exact (proj1 (table_kept_in_stem stem_open_lines stem_open_state
                  [[Some (lit "List I")]; [Some (lit "List II")]]
                  [[[Some (lit " 1. Lion ")]]]
                  eq_refl ltac:(discriminate) eq_refl)).
Defined.

(** X8: the text [read_docx_text] builds from the paragraphs and tables of a
    document has no carriage return, no no-break space and no three line
    feeds in a row. *)
Theorem docx_text_is_clean (doc : list block) :
  let text := read_docx_text doc in
  existsb (fun c => Ascii.eqb c CR || (code c =? 160)) text = false
  /\ forall x y, text <> x ++ [LF; LF; LF] ++ y.
Proof.
  intros text. subst text. unfold read_docx_text. split.
  - apply (sub_newlines_keeps_absent cr_or_nbsp).
    apply absent_join; [reflexivity | apply block_texts_no_cr_nbsp].
  - intros x y E.
    pose proof (sub_newlines_short (join [LF] (block_texts doc)) 0) as S.
    rewrite E, short_runs_no_triple in S. discriminate.
Qed.

End DocxProps.

(* ================================================================= *)
(** * More properties of the parser *)

Module ParserProps.
Import Py PyFacts Convert ConvertFacts TextFacts StemFacts LineFacts ParserFacts.

(** The lines of a text, joined by line feeds. *)
Definition lines_text (lines : list string) : str := join [LF] (map lit lines).

(** X9: the lines before the first year heading leave no trace: the parser
    is after them in the state it starts in, so the text gives what its
    other lines give, and a text without a year heading gives the empty
    mapping, question starts and option markers or not. *)
Theorem lines_before_first_year (text : str) (pre rest : list str) :
  splitlines text = pre ++ rest ->
  Forall (fun raw => YEAR_RE_match (rstrip raw) = None) pre ->
  run init_state pre = Ok init_state
  /\ parse_text text
     = (st <- run init_state rest ;; st' <- flush_question st ;; Ok (years st'))
  /\ (rest = [] -> parse_text text = Ok []).
Proof.
  intros S F.
  assert (R : run init_state pre = Ok init_state)
    by (apply run_before_year; [reflexivity | exact F]).
  assert (P : parse_text text
              = (st <- run init_state rest ;; st' <- flush_question st ;; Ok (years st'))).
  { unfold parse_text. rewrite S, run_app, R. reflexivity. }
  split; [exact R|]. split; [exact P|].
  intros ->. rewrite P. reflexivity.
Qed.

Lemma lines_before_first_year_witness :
  parse_text (lines_text ["Polity"; "1. Which one?"; "(a) this"; "(b) that"]%string)
  = Ok [].
Proof.
  refine (proj2 (proj2 (lines_before_first_year
            (lines_text ["Polity"; "1. Which one?"; "(a) this"; "(b) that"]%string)
            (map lit ["Polity"; "1. Which one?"; "(a) this"; "(b) that"]%string)
            [] eq_refl _)) eq_refl).
  repeat constructor.
Defined.

(** X10: every key of the mapping [parse_text] returns is a string of four
    digits, the list under it is not empty, and each of its records has an
    empty answer, an empty explanation and the difficulty [M]. *)
Theorem year_keys_and_fixed_fields
  (text : str) (ys : Years) (y : str) (qs : list Question) :
  parse_text text = Ok ys -> PyDict.get y ys = Some qs ->
  List.length y = 4 /\ forallb isdigit y = true /\ qs <> []
  /\ forall q, In q qs ->
       q_answer q = [] /\ q_explanation q = [] /\ q_difficulty q = lit "M".
Proof.
  intros H G.
  assert (K : is_year y /\ qs <> []).
  { unfold parse_text in H.
    destruct (run init_state (splitlines text)) as [st|e] eqn:R; simpl in H; [|discriminate].
    destruct (flush_question st) as [st'|e] eqn:F; simpl in H; [|discriminate].
    injection H as <-.
    exact (years_case_keys st (years st') (flush_years _ _ F)
             (run_years_inv _ _ R) y qs G). }
  destruct K as [[L D] NE]. split; [exact L|]. split; [exact D|]. split; [exact NE|].
  intros q Hin.
  exact (parse_text_records
           (fun _ q => q_answer q = [] /\ q_explanation q = []
                       /\ q_difficulty q = lit "M")
           (fun st year n => conj eq_refl (conj eq_refl eq_refl))
           text ys H y qs q G Hin).
Qed.

Lemma year_keys_and_fixed_fields_witness :
  List.length (lit "2020") = 4.
Proof.
  exact (proj1 (year_keys_and_fixed_fields
                  (lines_text ["2020"; "1. Q"; "(a) w"]%string) _ (lit "2020") _
                  eq_refl eq_refl)).
Defined.

(** X11: while the stem of a question is being collected, lines that are
    neither year headings nor option markers, numbered or blank or plain,
    are all appended to the stem in their order, without the whitespace at
    their end, and nothing else of the state changes. *)
Theorem stem_lines_in_order (raws : list str) (st : State) (lines : list str) :
  run init_state raws = Ok st ->
  current_qnum st <> None ->
  in_options st = false ->
  Forall (fun raw => YEAR_RE_match (rstrip raw) = None
                     /\ OPT_RE_match (rstrip raw) = None) lines ->
  run st lines
  = Ok {| years := years st; current_year := current_year st;
          current_qnum := current_qnum st;
          q_lines := q_lines st ++ map rstrip lines;
          options := options st; current_opt := current_opt st;
          in_options := in_options st |}.
Proof.
  intros R Q O F.
  exact (run_in_stem lines st (reachable_in_stem raws st R Q O) F).
Qed.

Lemma stem_lines_in_order_witness :
  exists st,
    run init_state (map lit ["2020"; "1. Consider:"]%string) = Ok st
    /\ exists st',
         run st (map lit ["1. Lions roar.  "; ""; "2. Cats purr."; "Which hold?"]%string)
         = Ok st'
         /\ q_lines st'
            = map lit ["Consider:"; "1. Lions roar."; ""; "2. Cats purr."; "Which hold?"]%string.
Proof.
  eexists. split; [reflexivity|]. eexists. split.
  - refine (stem_lines_in_order (map lit ["2020"; "1. Consider:"]%string) _
              (map lit ["1. Lions roar.  "; ""; "2. Cats purr."; "Which hold?"]%string)
              eq_refl _ eq_refl _).
    + discriminate.
    + repeat constructor.
  - reflexivity.
Defined.

(** X12: when the text of a marker has moved to a free slot because the slot
    of its letter was taken, a continuation line that follows does not join
    the moved text: it is appended, after a space, to the text already in
    the slot of the marker's letter. *)
Theorem continuation_after_moved_marker
  (st : State) (line cont letter fallback : str) (g2 : option str) :
  opt_truthy (current_year st) = true ->
  current_qnum st <> None ->
  OPT_RE_match (rstrip line) = Some (letter, g2) ->
  slot_free (options st) letter = false ->
  find (slot_free (options st)) letters = Some fallback ->
  YEAR_RE_match (rstrip cont) = None ->
  QSTART_RE_match (rstrip cont) = None ->
  OPT_RE_match (rstrip cont) = None ->
  blank (rstrip cont) = false ->
  exists st1 st2,
    step st line = Ok st1
    /\ step st1 cont = Ok st2
    /\ fallback <> letter
    /\ options st1 = PyDict.set fallback (strip (group_or_empty g2)) (options st)
    /\ options st2
       = PyDict.set letter
           (strip (PyDict.get_default letter [] (options st)
                   ++ lit " " ++ strip (rstrip cont)))
           (options st1).
Proof.
  intros T Q M Taken Free Yc Qc Oc B.
  assert (Qn : is_none (current_qnum st) = false)
    by (destruct (current_qnum st); [reflexivity | congruence]).
  assert (NE : fallback <> letter).
  { intros ->. apply find_some in Free as [_ Free]. congruence. }
  exists (mark_option letter (strip (group_or_empty g2)) st). eexists.
  split; [|split; [|split; [exact NE|split]]].
  - unfold step. rewrite (OPT_excludes_YEAR _ _ M), T, (OPT_excludes_QSTART _ _ M).
    rewrite Qn, M. reflexivity.
  - unfold step. rewrite Yc. cbn [mark_option current_year current_qnum].
    rewrite T, Qc, Qn, Oc. reflexivity.
  - cbn [mark_option options]. unfold place_option. rewrite Taken, Free. reflexivity.
  - unfold continuation. cbn [mark_option in_options current_opt opt_truthy options].
    assert (Lt : str_truthy letter = true).
    { unfold OPT_RE_match in M.
      repeat match type of M with
             | context [match ?x with _ => _ end] => destruct x; try discriminate
             end; injection M as <- _; reflexivity. }
    rewrite Lt. cbn [andb].
    unfold blank in B. apply negb_false_iff in B. rewrite B.
    cbn [set_options options]. f_equal. f_equal. f_equal.
    unfold place_option. rewrite Taken, Free. cbn [negb].
    unfold PyDict.get_default. rewrite DictFacts.get_set_other by exact NE. reflexivity.
Qed.

(** A question of 2021 with the text [cats] in slot a. *)
Definition one_option_state : State :=
  {| years := []; current_year := Some (lit "2021"); current_qnum := Some (lit "7");
     q_lines := [lit "Which?"]; options := [(lit "a", lit "cats")];
     current_opt := Some (lit "a"); in_options := true |}.

Lemma continuation_after_moved_marker_witness :
  exists st1 st2,
    step one_option_state (lit "(a) dogs") = Ok st1
    /\ step st1 (lit "and mice") = Ok st2
    /\ options st2 = [(lit "a", lit "cats and mice"); (lit "b", lit "dogs")].
Proof.
  destruct (continuation_after_moved_marker one_option_state
              (lit "(a) dogs") (lit "and mice") (lit "a") (lit "b") (Some (lit "dogs"))
              eq_refl ltac:(discriminate) eq_refl eq_refl eq_refl
              eq_refl eq_refl eq_refl eq_refl)
    as [st1 [st2 [S1 [S2 [_ [O1 O2]]]]]].
  exists st1, st2. split; [exact S1|]. split; [exact S2|].
  rewrite O2, O1. reflexivity.
Defined.



End ParserProps.

(* ================================================================= *)
(** * Counting records and years *)

Module CountFacts.
Import Py PyFacts Convert ConvertFacts ParserFacts.

(** The number of records of a mapping. *)
Definition total (ys : Years) : nat := List.length (List.concat (map snd ys)).

(** One when a question is open. *)
Definition opened (st : State) : nat :=
  if is_none (current_qnum st) then 0 else 1.

(** The line is a question start. *)
Definition is_start (raw : str) : bool :=
  match QSTART_RE_match (rstrip raw) with Some _ => true | None => false end.

Lemma total_set (y : str) (v : list Question) (ys : Years) :
  total (PyDict.set y v ys) + List.length (PyDict.get_default y [] ys)
  = total ys + List.length v.
Proof.
  unfold total, PyDict.get_default.
  induction ys as [|[k w] ys IH]; simpl.
  - rewrite List.app_nil_r. lia.
  - destruct (str_eqb k y) eqn:E; simpl; rewrite !length_app; lia.
Qed.

Lemma total_append (y : str) (q : Question) (ys : Years) :
  total (append_question y q ys) = S (total ys).
Proof.
  unfold append_question, PyDict.setdefault.
  destruct (PyDict.get y ys) as [lst|] eqn:G; cbv beta iota.
  - pose proof (total_set y (lst ++ [q]) ys) as H.
    unfold PyDict.get_default in H. rewrite G, length_app in H.
    cbn [List.length] in H. lia.
  - pose proof (total_set y [] ys) as H1.
    unfold PyDict.get_default in H1. rewrite G in H1. cbn [List.length] in H1.
    pose proof (total_set y ([] ++ [q]) (PyDict.set y [] ys)) as H2.
    unfold PyDict.get_default in H2. rewrite DictFacts.get_set_same in H2.
    cbn [List.length app] in H2 |- *. lia.
Qed.

Lemma flush_case_count (st st' : State) :
  flush_case st st' ->
  total (years st') + opened st' = total (years st) + opened st.
Proof.
  intros [H | qnum year n Q Y E]; [reflexivity|].
  cbn [after_flush years]. rewrite total_append.
  unfold opened. cbn [after_flush current_qnum is_none]. rewrite Q. cbn [is_none]. lia.
Qed.

Lemma continuation_current_qnum (line : str) (st : State) :
  current_qnum (continuation line st) = current_qnum st.
Proof.
  unfold continuation.
  destruct (in_options st && opt_truthy (current_opt st)); [|reflexivity].
  destruct (current_opt st); [|reflexivity].
  destruct (str_truthy (strip line)); reflexivity.
Qed.

Lemma step_case_count (st st' : State) (line : str) :
  step_case st line st' ->
  total (years st') + opened st'
  <= total (years st) + opened st
     + (match QSTART_RE_match line with Some _ => 1 | None => 0 end).
Proof.
  intros C. destruct C as [year st1 Y F | qnum g2 st1 T M O F | m T M Q O
                          | letter g2 T Q M | T Q Y M O | D].
  - pose proof (flush_case_count st st1 F) as H.
    unfold opened in *. cbn [set_current_year years current_qnum]. lia.
  - pose proof (flush_case_count st st1 F) as H. rewrite M.
    unfold opened in *. cbn [open_question years current_qnum is_none]. lia.
  - cbn [append_q_line years]. unfold opened. cbn [append_q_line current_qnum]. lia.
  - cbn [mark_option years]. unfold opened. cbn [mark_option current_qnum]. lia.
  - unfold opened. rewrite continuation_years, continuation_current_qnum. lia.
  - lia.
Qed.

Lemma run_count (lines : list str) :
  forall st st',
    run st lines = Ok st' ->
    total (years st') + opened st'
    <= total (years st) + opened st + List.length (filter is_start lines).
Proof.
  induction lines as [|raw lines IH]; intros st st' R; simpl in R.
  - injection R as <-. simpl. lia.
  - destruct (step st raw) as [st1|e] eqn:S; simpl in R; [|discriminate].
    pose proof (step_case_count st st1 (rstrip raw) (step_inv _ _ _ S)) as H1.
    pose proof (IH st1 st' R) as H2.
    cbn [filter]. unfold is_start at 1.
    destruct (QSTART_RE_match (rstrip raw)); cbn [List.length]; lia.
Qed.

(** ** Where a year comes from *)

(** The year [y] is the current year or a key of [years]. *)
Definition knows (st : State) (y : str) : Prop :=
  current_year st = Some y \/ In y (PyDict.keys (years st)).

Lemma keys_append_in (year y : str) (q : Question) (ys : Years) :
  In y (PyDict.keys (append_question year q ys)) ->
  y = year \/ In y (PyDict.keys ys).
Proof.
  intros H. destruct (str_eqb year y) eqn:E.
  - apply str_eqb_eq in E. left. congruence.
  - apply str_eqb_neq in E. right.
    destruct (PyDict.get y ys) eqn:G.
    + apply DictFacts.get_some_in in G.
      change y with (fst (y, l)). apply in_map, G.
    + exfalso. rewrite <- (get_append_other year y q ys E) in G.
      apply DictFacts.get_none_iff in G. contradiction.
Qed.

Lemma flush_case_knows (st st' : State) (y : str) :
  flush_case st st' -> knows st' y -> knows st y.
Proof.
  intros [H | qnum year n Q Y E]; [auto|].
  intros [C | K]; [left; exact C|].
  cbn [after_flush years] in K. apply keys_append_in in K as [-> | K].
  - left. exact Y.
  - right. exact K.
Qed.

Lemma step_case_knows (st st' : State) (line y : str) :
  step_case st line st' -> knows st' y ->
  knows st y \/ YEAR_RE_match line = Some y.
Proof.
  intros C K. destruct C as [year st1 Y F | qnum g2 st1 T M O F | m T M Q O
                            | letter g2 T Q M | T Q Y M O | D].
  - destruct K as [C | K].
    + right. cbn [set_current_year current_year] in C. congruence.
    + left. apply (flush_case_knows st st1 y F). right. exact K.
  - left. apply (flush_case_knows st st1 y F). exact K.
  - left. exact K.
  - left. exact K.
  - left. unfold knows in *.
    rewrite continuation_years, continuation_current_year in K. exact K.
  - left. exact K.
Qed.

Lemma run_knows (lines : list str) :
  forall st st' y,
    run st lines = Ok st' -> knows st' y ->
    knows st y
    \/ exists raw, In raw lines /\ YEAR_RE_match (rstrip raw) = Some y.
Proof.
  induction lines as [|raw lines IH]; intros st st' y R K; simpl in R.
  - injection R as <-. left. exact K.
  - destruct (step st raw) as [st1|e] eqn:S; simpl in R; [|discriminate].
    destruct (IH st1 st' y R K) as [K1 | [r [Hin M]]].
    + destruct (step_case_knows st st1 (rstrip raw) y (step_inv _ _ _ S) K1)
        as [K0 | M].
      * left. exact K0.
      * right. exists raw. split; [left; reflexivity | exact M].
    + right. exists r. split; [right; exact Hin | exact M].
Qed.

End CountFacts.

Module CountProps.
Import Py PyFacts Convert ConvertFacts ParserFacts CountFacts.

(** X14: [parse_text] invents nothing: the records of all the years are at
    most as many as the lines of the text that are question starts, and
    every key of the mapping is the year of a heading line of the text. *)
Theorem no_record_without_its_lines (text : str) (ys : Years) :
  parse_text text = Ok ys ->
  List.length (List.concat (map snd ys))
  <= List.length (filter is_start (splitlines text))
  /\ forall y, In y (PyDict.keys ys) ->
       exists raw, In raw (splitlines text)
                   /\ YEAR_RE_match (rstrip raw) = Some y.
Proof.
  unfold parse_text.
  destruct (run init_state (splitlines text)) as [st|e] eqn:R; simpl; [|discriminate].
  destruct (flush_question st) as [st'|e] eqn:F; simpl; [|discriminate].
  intros H; injection H as <-.
  pose proof (flush_inv _ _ F) as Fc. split.
  - pose proof (run_count _ _ _ R) as H1.
    pose proof (flush_case_count _ _ Fc) as H2.
    change (total (years st') <= List.length (filter is_start (splitlines text))).
    cbn in H1. lia.
  - intros y Hy.
    assert (K : knows st y) by (apply (flush_case_knows st st' y Fc); right; exact Hy).
    destruct (run_knows _ _ _ y R K) as [[C | []] | H]; [discriminate C | exact H].
Qed.

Lemma no_record_without_its_lines_witness :
  List.length
    (List.concat
       (map snd
          [(lit "2020",
            [{| q_id := lit "POL-2020-01"; q_question := join [LF] [lit "Q"; lit "2. sub"];
                q_options := map lit ["A. w"; "B. "; "C. "; "D. "]%string;
                q_answer := []; q_explanation := []; q_difficulty := lit "M" |}])]))
  <= 2.
Proof.
  exact (proj1 (no_record_without_its_lines
                  (join [LF] (map lit ["2020"; "1. Q"; "2. sub"; "(a) w"]%string))
                  _ eq_refl)).
Defined.

End CountProps.

(* ================================================================= *)
(** * Whitespace that does not matter *)

Module SpaceFacts.
Import Py PyFacts Convert ConvertFacts LineFacts ParserFacts.

(** While options are read, an option is active. *)
Definition opt_inv (st : State) : Prop :=
  in_options st = true -> opt_truthy (current_opt st) = true.

Lemma OPT_letter (line letter : str) (g2 : option str) :
  OPT_RE_match line = Some (letter, g2) -> str_truthy letter = true.
Proof.
  unfold OPT_RE_match. intros M.
  repeat match type of M with
         | context [match ?x with _ => _ end] => destruct x; try discriminate
         end; injection M as <- _; reflexivity.
Qed.

Lemma flush_case_opt_inv (st st' : State) :
  flush_case st st' -> opt_inv st -> opt_inv st'.
Proof. intros [H | qnum year n Q Y E] I; [exact I | intros H; discriminate H]. Qed.

Lemma continuation_opt (line : str) (st : State) :
  in_options (continuation line st) = in_options st
  /\ current_opt (continuation line st) = current_opt st.
Proof.
  unfold continuation.
  destruct (in_options st && opt_truthy (current_opt st)); [|split; reflexivity].
  destruct (current_opt st) eqn:E; [|split; [reflexivity | exact E]].
  destruct (str_truthy (strip line)); split; try reflexivity; exact E.
Qed.

Lemma step_case_opt_inv (st st' : State) (line : str) :
  step_case st line st' -> opt_inv st -> opt_inv st'.
Proof.
  intros C I. destruct C as [year st1 Y F | qnum g2 st1 T M O F | m T M Q O
                            | letter g2 T Q M | T Q Y M O | D].
  - exact (flush_case_opt_inv st st1 F I).
  - intros H. discriminate H.
  - exact I.
  - intros _. exact (OPT_letter _ _ _ M).
  - unfold opt_inv. destruct (continuation_opt line st) as [-> ->]. exact I.
  - exact I.
Qed.

Lemma run_opt_inv (lines : list str) (st : State) :
  run init_state lines = Ok st -> opt_inv st.
Proof.
  apply (run_invariant opt_inv); [|intros H; discriminate H].
  intros s raw s' I H. eapply step_case_opt_inv; [apply step_inv; exact H | exact I].
Qed.

(** ** Whitespace before a marker *)

Lemma rstrip_after_space (w s : str) :
  forallb isspace s = false -> rstrip (w ++ s) = w ++ rstrip s.
Proof.
  intros H. unfold rstrip. rewrite rev_app_distr.
  destruct (dropwhile isspace (rev s)) as [|c r] eqn:D.
  - apply dropwhile_nil_iff in D. rewrite forallb_rev_eq in D. congruence.
  - pose proof (dropwhile_head isspace _ _ _ D) as Hc.
    destruct (dropwhile_split isspace (rev s)) as [pre [E Fp]].
    rewrite D in E. rewrite E, <- List.app_assoc.
    rewrite (dropwhile_app_all isspace pre _ Fp).
    cbn [app dropwhile]. rewrite Hc.
    change (c :: r ++ rev w) with ((c :: r) ++ rev w).
    rewrite rev_app_distr, rev_involutive. reflexivity.
Qed.

Lemma YEAR_after_space (w line : str) :
  forallb isspace w = true -> YEAR_RE_match (w ++ line) = YEAR_RE_match line.
Proof. intros W. unfold YEAR_RE_match. rewrite (lstrip_app_space w line W). reflexivity. Qed.

Lemma QSTART_after_space (w line : str) :
  forallb isspace w = true -> QSTART_RE_match (w ++ line) = QSTART_RE_match line.
Proof. intros W. unfold QSTART_RE_match. rewrite (lstrip_app_space w line W). reflexivity. Qed.

Lemma OPT_after_space (w line : str) :
  forallb isspace w = true -> OPT_RE_match (w ++ line) = OPT_RE_match line.
Proof. intros W. unfold OPT_RE_match. rewrite (lstrip_app_space w line W). reflexivity. Qed.

Lemma YEAR_not_blank (line y : str) :
  YEAR_RE_match line = Some y -> forallb isspace line = false.
Proof.
  intros M. destruct (forallb isspace line) eqn:B; [|reflexivity].
  unfold YEAR_RE_match in M. apply lstrip_nil_iff in B. rewrite B in M. discriminate M.
Qed.

Lemma OPT_not_blank (line : str) m :
  OPT_RE_match line = Some m -> forallb isspace line = false.
Proof.
  intros M. destruct (forallb isspace line) eqn:B; [|reflexivity].
  unfold OPT_RE_match in M. apply lstrip_nil_iff in B. rewrite B in M. discriminate M.
Qed.

End SpaceFacts.

Module SpaceProps.
Import Py PyFacts Convert ConvertFacts LineFacts ParserFacts SpaceFacts.

(** X25: a blank line is ignored wherever no stem is being collected:
    before the first year, between a year heading or a flushed question and
    the next question, and among the options of a question the state after
    the line is the state before it. *)
Theorem blank_line_ignored (raws : list str) (st : State) (raw : str) :
  run init_state raws = Ok st ->
  forallb isspace raw = true ->
  current_qnum st = None \/ in_options st = true ->
  step st raw = Ok st.
Proof.
  intros R B H.
  assert (E : rstrip raw = []) by (apply rstrip_nil_iff, B).
  unfold step. rewrite E.
  change (YEAR_RE_match []) with (@None str).
  change (QSTART_RE_match []) with (@None (str * option str)).
  change (OPT_RE_match []) with (@None (str * option str)).
  cbv beta iota zeta.
  assert (Q : (if opt_truthy (current_year st) then @None (str * option str) else None)
              = None) by (destruct (opt_truthy (current_year st)); reflexivity).
  rewrite Q.
  destruct H as [H | H].
  - rewrite H. cbn [is_none negb]. rewrite andb_false_r. reflexivity.
  - destruct (opt_truthy (current_year st) && negb (is_none (current_qnum st)));
      [|reflexivity].
    unfold continuation. rewrite H, (run_opt_inv raws st R H). cbn [andb].
    destruct (current_opt st); reflexivity.
Qed.

Lemma blank_line_ignored_witness :
  exists st,
    run init_state (map lit ["2020"; "1. Q"; "(a) w"]%string) = Ok st
    /\ step st (lit "   ") = Ok st.
Proof.
  eexists. split; [reflexivity|].
  refine (blank_line_ignored (map lit ["2020"; "1. Q"; "(a) w"]%string) _ (lit "   ")
            eq_refl eq_refl (or_intror eq_refl)).
Defined.

(** X26: whitespace after a line never matters, whatever the line and the
    state; and whitespace before a year heading, before an option marker or
    before a question start that opens a question does not either: the step
    on the line with the whitespace is the step on the line without. *)
Theorem whitespace_around_markers :
  (forall (st : State) (raw w' : str),
      forallb isspace w' = true ->
      step st (raw ++ w') = step st raw)
  /\
  (forall (st : State) (w raw w' : str),
      forallb isspace w = true ->
      forallb isspace w' = true ->
      (YEAR_RE_match (rstrip raw) <> None
       \/ OPT_RE_match (rstrip raw) <> None
       \/ (QSTART_RE_match (rstrip raw) <> None
           /\ is_none (current_qnum st) || PyDict.truthy (options st) = true)) ->
      step st (w ++ raw ++ w') = step st raw).
Proof.
  assert (After : forall (st : State) (raw w' : str),
             forallb isspace w' = true -> step st (raw ++ w') = step st raw).
  { intros st raw w' W'. unfold step.
    rewrite (rstrip_app_space raw w' W'). reflexivity. }
  split; [exact After|].
  intros st w raw w' W W' H.
  assert (T : rstrip (raw ++ w') = rstrip raw) by (apply rstrip_app_space, W').
  assert (NB : forallb isspace (rstrip raw) = false).
  { destruct H as [H | [H | [H _]]].
    - destruct (YEAR_RE_match (rstrip raw)) eqn:M; [|congruence].
      exact (YEAR_not_blank _ _ M).
    - destruct (OPT_RE_match (rstrip raw)) eqn:M; [|congruence].
      exact (OPT_not_blank _ _ M).
    - destruct (QSTART_RE_match (rstrip raw)) eqn:M; [|congruence].
      exact (QSTART_not_blank _ _ M). }
  assert (NB' : forallb isspace (raw ++ w') = false).
  { destruct (forallb isspace (raw ++ w')) eqn:B; [|reflexivity].
    apply rstrip_nil_iff in B. rewrite T in B. rewrite B in NB. discriminate NB. }
  assert (E : rstrip (w ++ raw ++ w') = w ++ rstrip raw)
    by (rewrite (rstrip_after_space w _ NB'), T; reflexivity).
  unfold step. rewrite E.
  rewrite (YEAR_after_space w _ W), (QSTART_after_space w _ W), (OPT_after_space w _ W).
  destruct (YEAR_RE_match (rstrip raw)) as [y|] eqn:Y; [reflexivity|].
  destruct H as [H | [H | [H O]]]; [congruence | |].
  - destruct (OPT_RE_match (rstrip raw)) as [m|] eqn:M; [|congruence].
    rewrite (OPT_excludes_QSTART _ _ M).
    destruct (opt_truthy (current_year st)); reflexivity.
  - destruct (QSTART_RE_match (rstrip raw)) as [[qnum g2]|] eqn:M; [|congruence].
    destruct (opt_truthy (current_year st)); [rewrite O; reflexivity|].
    reflexivity.
Qed.

Lemma whitespace_around_markers_witness :
  step init_state (lit "   2020  ") = step init_state (lit "2020").
Proof.
  refine (proj2 whitespace_around_markers init_state (lit "   ") (lit "2020") (lit "  ")
            eq_refl eq_refl (or_introl _)).
  discriminate.
Defined.

End SpaceProps.

(* ================================================================= *)
(** * A paper in the expected layout *)

Module PaperFacts.
Import Py PyFacts Convert ConvertFacts TextFacts StemFacts LineFacts ParserFacts.
Import DocxFacts.

(** A text as the parser keeps it whole: not empty, nothing around it, no
    whitespace but single spaces. *)
Definition clean (t : str) : Prop :=
  t <> [] /\ strip t = t /\ spaced false t = true.

(** A question in the layout of the papers: its number, the stem on the line
    of the number and the four options. *)
Record Item : Type := {
  number : str;
  stem : str;
  option_a : str;
  option_b : str;
  option_c : str;
  option_d : str
}.

(** The number is one that [int] converts: digits, and no more of them than
    its limit. *)
Definition well_formed (q : Item) : Prop :=
  number q <> [] /\ forallb isdigit (number q) = true
  /\ List.length (number q) <= int_max_str_digits
  /\ clean (stem q) /\ clean (option_a q) /\ clean (option_b q)
  /\ clean (option_c q) /\ clean (option_d q).

Definition marker_line (letter : string) (t : str) : str :=
  lit "(" ++ lit letter ++ lit ") " ++ t.

Definition item_lines (q : Item) : list str :=
  [number q ++ lit ". " ++ stem q;
   marker_line "a" (option_a q); marker_line "b" (option_b q);
   marker_line "c" (option_c q); marker_line "d" (option_d q)].

(** The lines of the years of a paper, each a heading and its questions. *)
Definition section_lines (sec : str * list Item) : list str :=
  fst sec :: List.concat (map item_lines (snd sec)).

Definition paper_lines (secs : list (str * list Item)) : list str :=
  List.concat (map section_lines secs).

(** The record expected for a question of the year [y]. *)
Definition record_of (y : str) (q : Item) : Question :=
  {| q_id := lit "POL-" ++ y ++ lit "-" ++ zero_pad 2 (digits_value (number q));
     q_question := stem q;
     q_options := [lit "A. " ++ option_a q; lit "B. " ++ option_b q;
                   lit "C. " ++ option_c q; lit "D. " ++ option_d q];
     q_answer := []; q_explanation := []; q_difficulty := lit "M" |}.

Definition add_section (ys : Years) (sec : str * list Item) : Years :=
  fold_left (fun ys q => append_question (fst sec) (record_of (fst sec) q) ys)
            (snd sec) ys.

Definition expected (secs : list (str * list Item)) : Years :=
  fold_left add_section secs [].

(** ** Clean texts *)

Lemma clean_tight (t : str) : clean t -> tight t.
Proof. intros [_ [S _]]. rewrite <- S. apply strip_is_tight. Qed.

Lemma clean_head (t : str) :
  clean t -> exists c t', t = c :: t' /\ isspace c = false.
Proof.
  intros C. destruct (clean_tight t C) as [L _]. destruct C as [NE _].
  destruct t as [|c t']; [congruence|].
  exists c, t'. split; [reflexivity | exact (lstrip_fixed_head c t' L)].
Qed.

Lemma clean_one_line (t : str) : clean t -> existsb islinebreak t = false.
Proof. intros [_ [_ S]]. exact (spaced_no_linebreak t false S). Qed.

Lemma no_linebreak_no_LF (t : str) :
  existsb islinebreak t = false -> existsb is_LF t = false.
Proof.
  induction t as [|c t IH]; [reflexivity|].
  simpl. intros H. apply orb_false_iff in H as [Hc Ht].
  rewrite (IH Ht), orb_false_r.
  destruct (is_LF c) eqn:E; [|reflexivity].
  unfold is_LF in E. apply Ascii.eqb_eq in E. subst c. discriminate Hc.
Qed.

Lemma clean_no_LF (t : str) : clean t -> existsb is_LF t = false.
Proof. intros C. apply no_linebreak_no_LF, clean_one_line, C. Qed.

Lemma clean_normal (t : str) : clean t -> normalize_inline t = t.
Proof.
  intros [_ [S Sp]]. unfold normalize_inline.
  rewrite (sub_ws_runs_fixed t false Sp). exact S.
Qed.

Lemma clean_truthy (t : str) : clean t -> str_truthy t = true.
Proof. intros [NE _]. destruct t; [congruence | reflexivity]. Qed.

Lemma clean_not_blank (t : str) : clean t -> blank t = false.
Proof.
  intros C. unfold blank. destruct C as [NE [S _]]. rewrite S.
  destruct t; [congruence | reflexivity].
Qed.

Lemma clean_rstrip (t : str) : clean t -> rstrip t = t.
Proof. intros C. exact (proj2 (clean_tight t C)). Qed.

(** What ends in a clean text has no whitespace at its end. *)
Lemma rstrip_before_clean (p t : str) : clean t -> rstrip (p ++ t) = p ++ t.
Proof.
  intros C. pose proof (clean_rstrip t C) as R.
  apply rstrip_fixed_iff in R as [E | [s' [c [E Hc]]]].
  - destruct C as [NE _]. congruence.
  - subst t. rewrite List.app_assoc. apply rstrip_snoc_keep, Hc.
Qed.

(** The tail of a marker or question-start line with the clean text [t]. *)
Lemma tail_match_clean (t : str) :
  clean t -> tail_match (SP :: t) = Some (Some t).
Proof.
  intros C. unfold tail_match.
  assert (E : strip (SP :: t) = t).
  { replace (SP :: t) with ([SP] ++ t ++ [])
      by (rewrite List.app_nil_r; reflexivity).
    apply strip_sandwich; [reflexivity | reflexivity | apply clean_tight, C]. }
  rewrite E, (clean_truthy t C), (clean_no_LF t C). reflexivity.
Qed.

(** ** The lines of a question and what they match *)

Definition digits (n : str) : Prop := n <> [] /\ forallb isdigit n = true.

Lemma digits_head (n : str) :
  digits n -> exists c n', n = c :: n' /\ isdigit c = true.
Proof.
  intros [NE D]. destruct n as [|c n']; [congruence|].
  simpl in D. apply andb_true_iff in D as [Hc _]. eauto.
Qed.

Lemma QSTART_item (n t : str) :
  digits n -> clean t ->
  QSTART_RE_match (n ++ lit ". " ++ t) = Some (n, Some t).
Proof.
  intros Dn C. destruct (digits_head n Dn) as [c [n' [E Hc]]].
  unfold QSTART_RE_match.
  assert (L : lstrip (n ++ lit ". " ++ t) = n ++ lit ". " ++ t).
  { rewrite E. cbn [app]. apply lstrip_keep, digit_not_space, Hc. }
  rewrite L.
  change (lit ". " ++ t) with ("."%char :: SP :: t).
  rewrite (span_digits_app n ("."%char :: SP :: t) (proj2 Dn) eq_refl).
  rewrite (tail_match_clean t C). rewrite E at 1. reflexivity.
Qed.

Lemma OPT_item (a : Ascii.ascii) (t : str) :
  in_range 97 100 a = true -> clean t ->
  OPT_RE_match ("("%char :: a :: ")"%char :: SP :: t) = Some ([a], Some t).
Proof.
  intros Ha C. unfold OPT_RE_match.
  rewrite (lstrip_keep "("%char _ eq_refl).
  cbv beta iota zeta. change (Ascii.eqb "(" "(") with true. cbv iota.
  rewrite Ha, (tail_match_clean t C). reflexivity.
Qed.

Lemma YEAR_heading (y : str) : is_year y -> YEAR_RE_match y = Some y.
Proof.
  intros [L D]. unfold YEAR_RE_match.
  destruct y as [|c1 [|c2 [|c3 [|c4 [|c5 y]]]]]; try discriminate L.
  assert (H1 : isdigit c1 = true)
    by (simpl in D; apply andb_true_iff in D as [H _]; exact H).
  rewrite (lstrip_keep c1 _ (digit_not_space c1 H1)).
  cbn [firstn skipn List.length Nat.eqb]. rewrite D. reflexivity.
Qed.

Lemma year_rstrip (y : str) : is_year y -> rstrip y = y.
Proof.
  intros [L D]. apply rstrip_fixed_iff. right.
  destruct y as [|c1 [|c2 [|c3 [|c4 [|c5 y]]]]]; try discriminate L.
  exists [c1; c2; c3], c4. split; [reflexivity|].
  apply digit_not_space. simpl in D.
  repeat (apply andb_true_iff in D as [? D]). assumption.
Qed.

Lemma year_truthy (y : str) : is_year y -> str_truthy y = true.
Proof. intros [L _]. destruct y; [discriminate L | reflexivity]. Qed.

(** ** The states between the questions *)

(** No question is open. *)
Definition closed (ys : Years) (oy : option str) : State :=
  {| years := ys; current_year := oy; current_qnum := None; q_lines := [];
     options := []; current_opt := None; in_options := false |}.

(** The question [q] of the year [y] is open with its four options read. *)
Definition loaded (ys : Years) (y : str) (q : Item) : State :=
  {| years := ys; current_year := Some y; current_qnum := Some (number q);
     q_lines := [stem q];
     options := [(lit "a", option_a q); (lit "b", option_b q);
                 (lit "c", option_c q); (lit "d", option_d q)];
     current_opt := Some (lit "d"); in_options := true |}.

(** A flush takes the state to [closed ys oy], and a question start would
    begin a new question. *)
Definition settles (st : State) (ys : Years) (oy : option str) : Prop :=
  flush_question st = Ok (closed ys oy)
  /\ current_year st = oy
  /\ is_none (current_qnum st) || PyDict.truthy (options st) = true.

Lemma closed_settles (ys : Years) (oy : option str) : settles (closed ys oy) ys oy.
Proof. repeat split. Qed.

Lemma finalize_clean (t : str) : clean t -> finalize_question_text [t] = t.
Proof.
  intros C. unfold finalize_question_text, finalize_out, pop_blank_back.
  cbn [pop_blank_front rev app]. rewrite (clean_not_blank t C).
  cbn [rev app pop_blank_front]. rewrite (clean_not_blank t C).
  cbn [rev app squeeze].
  pose proof (clean_rstrip t C) as R.
  destruct C as [NE [S Sp]]. rewrite S, R.
  destruct t as [|c t]; [congruence | reflexivity].
Qed.

Lemma render_clean (opts : PyDict.dict str) (letter t : str) :
  PyDict.get letter opts = Some t -> clean t ->
  render_option opts letter = upper letter ++ lit ". " ++ t.
Proof.
  intros G C. unfold render_option, PyDict.get_default. rewrite G.
  rewrite (clean_normal t C), (clean_truthy t C). reflexivity.
Qed.

Lemma make_record_loaded (ys : Years) (y : str) (q : Item) :
  well_formed q ->
  make_record (loaded ys y q) y (digits_value (number q)) = record_of y q.
Proof.
  intros [_ [_ [_ [Cs [Ca [Cb [Cc Cd]]]]]]]. unfold make_record, record_of.
  cbn [loaded q_lines options]. rewrite (finalize_clean _ Cs).
  unfold letters. cbn [map].
  set (opts := [(lit "a", option_a q); (lit "b", option_b q);
                (lit "c", option_c q); (lit "d", option_d q)]).
  rewrite (render_clean opts (lit "a") (option_a q) eq_refl Ca).
  rewrite (render_clean opts (lit "b") (option_b q) eq_refl Cb).
  rewrite (render_clean opts (lit "c") (option_c q) eq_refl Cc).
  rewrite (render_clean opts (lit "d") (option_d q) eq_refl Cd).
  reflexivity.
Qed.

Lemma loaded_settles (ys : Years) (y : str) (q : Item) :
  well_formed q ->
  settles (loaded ys y q) (append_question y (record_of y q) ys) (Some y).
Proof.
  intros W. split; [|split; reflexivity].
  unfold flush_question. cbn [loaded current_qnum current_year].
  destruct W as [NE [D [L W]]].
  assert (T : str_truthy (number q) = true)
    by (destruct (number q); [congruence | reflexivity]).
  rewrite (py_int_readable (number q) (conj T (conj D L))).
  cbn [bind]. unfold after_flush.
  rewrite (make_record_loaded ys y q (conj NE (conj D (conj L W)))). reflexivity.
Qed.

(** ** The steps on the lines of a paper *)

Lemma step_heading (st : State) (ys : Years) (oy : option str) (y : str) :
  settles st ys oy -> is_year y ->
  step st y = Ok (closed ys (Some y)).
Proof.
  intros [F _] Y. unfold step.
  rewrite (year_rstrip y Y), (YEAR_heading y Y), F. reflexivity.
Qed.

Lemma step_start (st : State) (ys : Years) (y : str) (q : Item) :
  settles st ys (Some y) -> is_year y -> well_formed q ->
  step st (number q ++ lit ". " ++ stem q)
  = Ok {| years := ys; current_year := Some y; current_qnum := Some (number q);
          q_lines := [stem q]; options := []; current_opt := None;
          in_options := false |}.
Proof.
  intros [F [Y O]] Hy [NE [D [_ [Cs _]]]].
  pose proof (QSTART_item (number q) (stem q) (conj NE D) Cs) as M.
  unfold step.
  replace (rstrip (number q ++ lit ". " ++ stem q)) with (number q ++ lit ". " ++ stem q).
  2:{ symmetry. rewrite List.app_assoc. apply rstrip_before_clean, Cs. }
  rewrite (QSTART_excludes_YEAR _ _ M), Y. cbn [opt_truthy].
  rewrite (year_truthy y Hy), M, O, F. cbn [bind].
  unfold open_question. cbn [closed years current_year q_lines options].
  cbn [group_or_empty]. rewrite (clean_truthy (stem q) Cs).
  rewrite (proj1 (proj2 Cs)), (clean_truthy (stem q) Cs). reflexivity.
Qed.

Lemma step_marker (st : State) (a : Ascii.ascii) (t : str) :
  opt_truthy (current_year st) = true -> current_qnum st <> None ->
  in_range 97 100 a = true -> clean t ->
  step st ("("%char :: a :: ")"%char :: SP :: t) = Ok (mark_option [a] t st).
Proof.
  intros Y Q Ha C.
  pose proof (OPT_item a t Ha C) as M.
  assert (Qn : is_none (current_qnum st) = false)
    by (destruct (current_qnum st); [reflexivity | congruence]).
  unfold step.
  replace (rstrip ("("%char :: a :: ")"%char :: SP :: t))
    with ("("%char :: a :: ")"%char :: SP :: t)
    by (symmetry; apply (rstrip_before_clean ["("%char; a; ")"%char; SP] t C)).
  rewrite (OPT_excludes_YEAR _ _ M), Y, (OPT_excludes_QSTART _ _ M), Qn, M.
  cbn [andb negb group_or_empty]. rewrite (clean_truthy t C), (proj1 (proj2 C)).
  reflexivity.
Qed.

Lemma run_item (st : State) (ys : Years) (y : str) (q : Item) :
  settles st ys (Some y) -> is_year y -> well_formed q ->
  run st (item_lines q) = Ok (loaded ys y q).
Proof.
  intros S Hy W. unfold item_lines. cbn [run].
  rewrite (step_start st ys y q S Hy W). cbn [bind].
  destruct W as [_ [_ [_ [_ [Ca [Cb [Cc Cd]]]]]]].
  assert (T : opt_truthy (Some y) = true) by exact (year_truthy y Hy).
  unfold marker_line.
  rewrite (step_marker _ "a" (option_a q)); [|exact T | discriminate | reflexivity | exact Ca].
  cbn [bind].
  rewrite (step_marker _ "b" (option_b q)); [|exact T | discriminate | reflexivity | exact Cb].
  cbn [bind].
  rewrite (step_marker _ "c" (option_c q)); [|exact T | discriminate | reflexivity | exact Cc].
  cbn [bind].
  rewrite (step_marker _ "d" (option_d q)); [|exact T | discriminate | reflexivity | exact Cd].
  reflexivity.
Qed.

Lemma run_items (y : str) (qs : list Item) :
  is_year y -> Forall well_formed qs ->
  forall st ys,
    settles st ys (Some y) ->
    exists st',
      run st (List.concat (map item_lines qs)) = Ok st'
      /\ settles st' (add_section ys (y, qs)) (Some y).
Proof.
  intros Hy F. induction F as [|q qs W F IH]; intros st ys S.
  - exists st. split; [reflexivity | exact S].
  - cbn [map List.concat]. rewrite run_app, (run_item st ys y q S Hy W). cbn [bind].
    destruct (IH (loaded ys y q) _ (loaded_settles ys y q W)) as [st' [R S']].
    exists st'. split; [exact R | exact S'].
Qed.

(** The years are headed by four digits and the questions are well formed. *)
Definition well_formed_paper (secs : list (str * list Item)) : Prop :=
  Forall (fun sec => is_year (fst sec) /\ Forall well_formed (snd sec)) secs.

Lemma run_paper (secs : list (str * list Item)) :
  well_formed_paper secs ->
  forall st ys oy,
    settles st ys oy ->
    exists st' oy',
      run st (paper_lines secs) = Ok st'
      /\ settles st' (fold_left add_section secs ys) oy'.
Proof.
  induction 1 as [|[y qs] secs [Hy W] F IH]; intros st ys oy S.
  - exists st, oy. split; [reflexivity | exact S].
  - cbn [fst snd] in Hy, W. unfold paper_lines. cbn [map List.concat].
    rewrite run_app. unfold section_lines at 1. cbn [fst snd run].
    rewrite (step_heading st ys oy y S Hy). cbn [bind].
    destruct (run_items y qs Hy W _ _ (closed_settles ys (Some y))) as [st1 [R1 S1]].
    rewrite R1. cbn [bind].
    destruct (IH st1 _ _ S1) as [st' [oy' [R S']]].
    exists st', oy'. split; [exact R | exact S'].
Qed.

(** ** The lines of a paper are the lines of its text *)

Lemma digits_one_line (n : str) : forallb isdigit n = true -> one_line n = true.
Proof.
  intros D. unfold one_line. apply negb_true_iff.
  induction n as [|c n IH]; [reflexivity|].
  simpl in *. apply andb_true_iff in D as [Hc D]. rewrite (IH D), orb_false_r.
  destruct (islinebreak c) eqn:E; [|reflexivity].
  apply linebreak_is_space in E. rewrite (digit_not_space c Hc) in E. discriminate.
Qed.

Lemma clean_is_one_line (t : str) : clean t -> one_line t = true.
Proof. intros C. unfold one_line. rewrite (clean_one_line t C). reflexivity. Qed.

Definition line_ok (l : str) : Prop := one_line l = true /\ l <> [].

Lemma marker_line_ok (letter : string) (t : str) :
  one_line (lit letter) = true -> clean t -> line_ok (marker_line letter t).
Proof.
  intros L C. split; [|discriminate].
  unfold marker_line. rewrite !one_line_app, L, (clean_is_one_line t C). reflexivity.
Qed.

Lemma item_lines_ok (q : Item) : well_formed q -> Forall line_ok (item_lines q).
Proof.
  intros [NE [D [_ [Cs [Ca [Cb [Cc Cd]]]]]]]. unfold item_lines.
  repeat constructor; try (apply marker_line_ok; [reflexivity | assumption]).
  - rewrite !one_line_app, (digits_one_line _ D), (clean_is_one_line _ Cs). reflexivity.
  - destruct (number q); [congruence | discriminate].
Qed.

Lemma paper_lines_ok (secs : list (str * list Item)) :
  well_formed_paper secs -> Forall line_ok (paper_lines secs).
Proof.
  induction 1 as [|[y qs] secs [[L D] W] F IH]; [constructor|].
  unfold paper_lines. cbn [map List.concat].
  apply Forall_app. split; [|exact IH].
  unfold section_lines. cbn [fst snd] in *.
  constructor.
  - split; [apply digits_one_line, D | destruct y; [discriminate L | discriminate]].
  - clear - W. induction W as [|q qs Wq W IH]; [constructor|].
    cbn [map List.concat]. apply Forall_app. split; [apply item_lines_ok, Wq | exact IH].
Qed.

Lemma lines_ok_proper (lines : list str) : Forall line_ok lines -> proper_lines lines.
Proof.
  intros F. split.
  - eapply Forall_impl; [|exact F]. intros l [H _]. exact H.
  - destruct lines as [|l lines]; [discriminate|].
    destruct (exists_last (l := l :: lines) ltac:(discriminate)) as [pre [x E]].
    rewrite E, last_last. rewrite E in F. apply Forall_app in F as [_ F].
    inversion F as [|? ? [_ NE] _]; subst. exact NE.
Qed.

End PaperFacts.

Module PaperProps.
Import Py PyFacts Convert ConvertFacts LineFacts ParserFacts PaperFacts.

(** X15: a paper in the expected layout is read as it is written.  When
    every year is headed by its four digits and every question is its
    number, of no more digits than [int] converts, a full stop and the stem
    on one line, followed by the lines [(a) ...] to [(d) ...], all texts
    being clean, [parse_text] returns, for every question in the order of
    the paper, the record with the identifier of its year and number, its
    stem and its four options under the year. *)
Theorem well_formed_paper_parsed (secs : list (str * list Item)) :
  well_formed_paper secs ->
  splitlines (join [LF] (paper_lines secs)) = paper_lines secs
  /\ parse_text (join [LF] (paper_lines secs)) = Ok (expected secs).
Proof.
  intros W.
  assert (S : splitlines (join [LF] (paper_lines secs)) = paper_lines secs)
    by (apply splitlines_join_LF, lines_ok_proper, paper_lines_ok, W).
  split; [exact S|].
  unfold parse_text. rewrite S.
  destruct (run_paper secs W init_state [] None (closed_settles [] None))
    as [st' [oy' [R [F _]]]].
  rewrite R. cbn [bind]. rewrite F. reflexivity.
Qed.

(** A paper of two years: two questions of 2021 and one of 2020. *)
Definition item (n s a b c d : string) : Item :=
  {| number := lit n; stem := lit s; option_a := lit a; option_b := lit b;
     option_c := lit c; option_d := lit d |}.

Definition sample_paper : list (str * list Item) :=
  [(lit "2021", [item "1" "Which is a right?" "Equality" "Taxes" "Both" "Neither";
                 item "12" "Who signs bills?" "The President" "The Speaker" "A judge" "Nobody"]);
   (lit "2020", [item "3" "How many houses?" "One" "Two" "Three" "Four"])].

Definition expected_record (id s a b c d : string) : Question :=
  {| q_id := lit id; q_question := lit s;
     q_options := [lit a; lit b; lit c; lit d];
     q_answer := []; q_explanation := []; q_difficulty := lit "M" |}.

Lemma well_formed_paper_parsed_witness :
  parse_text (join [LF] (paper_lines sample_paper))
  = Ok [(lit "2021",
         [expected_record "POL-2021-01" "Which is a right?"
                 "A. Equality" "B. Taxes" "C. Both" "D. Neither";
          expected_record "POL-2021-12" "Who signs bills?"
                 "A. The President" "B. The Speaker" "C. A judge" "D. Nobody"]);
        (lit "2020",
         [expected_record "POL-2020-03" "How many houses?" "A. One" "B. Two" "C. Three" "D. Four"])].
Proof.
  refine (eq_trans (proj2 (well_formed_paper_parsed sample_paper _)) eq_refl).
  unfold well_formed_paper, well_formed, clean, is_year.
  repeat match goal with
         | |- _ <= _ => apply Nat.leb_le; reflexivity
         | |- _ => constructor
         end; try discriminate.
Defined.

End PaperProps.

(* ================================================================= *)
(** * More properties of the re-indexer *)

Module ReindexProps.
Import Py PyFacts IdCorrector IdCorrectorFacts ReindexFacts.

(** X16: the counter ends at one more than the number of questions of all
    the years, so the total the program prints is the number of questions;
    and the mapping written out has as many questions as the one read. *)
Theorem reindex_counts_questions (ys : Years) :
  NoDup (PyDict.keys ys) ->
  exists ys',
    reindex ys = Ok (ys', (1 + N.of_nat (List.length (all_questions ys)))%N)
    /\ List.length (all_questions ys') = List.length (all_questions ys).
Proof.
  intros ND. destruct (reindex_summary ys ND) as [ys' [R [_ [L _]]]].
  exists ys'. split; [exact R | exact L].
Qed.

(** X17: after the re-indexing the identifiers of all the questions of all
    the years are pairwise distinct, whatever the identifiers were before,
    and the numbers at their ends are 1, 2, ... in the order of the visit. *)
Theorem reindexed_ids_distinct (ys : Years) :
  NoDup (PyDict.keys ys) ->
  exists ys' total,
    reindex ys = Ok (ys', total)
    /\ NoDup (map id_field (all_questions ys'))
    /\ map (fun q => id_counter (id_field q))
           (List.concat (lists_of ys' (sorted_desc (PyDict.keys ys))))
       = map Some (count_from 1 (List.length (all_questions ys))).
Proof.
  intros ND. destruct (reindex_summary ys ND) as [ys' [R [_ [_ [C N]]]]].
  eexists ys', _. split; [exact R|]. split; [exact N | exact C].
Qed.

(** X18: re-indexing what the re-indexer wrote changes nothing: the same
    mapping and the same total come out. *)
Theorem reindex_twice (ys ys' : Years) (total : N) :
  NoDup (PyDict.keys ys) ->
  reindex ys = Ok (ys', total) ->
  reindex ys' = Ok (ys', total).
Proof.
  intros ND R0. destruct (reindex_spec ys ND) as [ys1 [R [K Nth]]].
  rewrite R0 in R. injection R as <- ->.
  assert (ND' : NoDup (PyDict.keys ys')) by (rewrite K; exact ND).
  destruct (reindex_spec ys' ND') as [ys2 [R2 [K2 Nth2]]].
  rewrite K in R2, Nth2.
  set (order := sorted_desc (PyDict.keys ys)) in *.
  pose proof (visited_lengths ys ys' order 1%N Nth) as L.
  rewrite R2, (L _ (Nat.le_refl _)). do 2 f_equal.
  apply (dict_ext ys' ys2 ND' K2). intros k Hk.
  assert (Hin : In k order).
  { eapply Permutation_in; [apply Permutation_sym, sorted_desc_perm|].
    rewrite <- K. exact Hk. }
  apply In_nth_error in Hin as [i Hi].
  assert (Hlt : i <= List.length order).
  { apply Nat.lt_le_incl. apply nth_error_Some. rewrite Hi. discriminate. }
  rewrite (Nth2 i k Hi), (L i Hlt).
  unfold PyDict.get_default at 1. rewrite (Nth i k Hi).
  rewrite reindex_list_again. reflexivity.
Qed.

(** Two years whose questions carry old identifiers, one of them twice. *)
Definition old_question (id text : string) : Question :=
  [(lit "id", JStr (lit id)); (lit "question", JStr (lit text))].

Definition old_years : Years :=
  [(lit "2019", [old_question "POL-2019-01" "c"]);
   (lit "2020", [old_question "POL-2020-01" "a"; old_question "POL-2020-01" "b"])].

Lemma old_years_NoDup : NoDup (PyDict.keys old_years).
Proof.
  repeat constructor; simpl; intros H;
    repeat (destruct H as [H | H]; try discriminate H); exact H.
Qed.

Lemma reindex_counts_questions_witness :
  exists ys', reindex old_years = Ok (ys', 4%N).
Proof.
  destruct (reindex_counts_questions old_years old_years_NoDup) as [ys' [R _]].
  exists ys'. exact R.
Defined.

Lemma reindexed_ids_distinct_witness :
  exists ys' total,
    reindex old_years = Ok (ys', total)
    /\ NoDup (map id_field (all_questions ys')).
Proof.
  destruct (reindexed_ids_distinct old_years old_years_NoDup) as [ys' [total [R [N _]]]].
  exists ys', total. split; [exact R | exact N].
Defined.

Lemma reindex_twice_witness :
  reindex [(lit "2019", [old_question "ENVI-2019-003" "c"]);
           (lit "2020", [old_question "ENVI-2020-001" "a"; old_question "ENVI-2020-002" "b"])]
  = Ok ([(lit "2019", [old_question "ENVI-2019-003" "c"]);
         (lit "2020", [old_question "ENVI-2020-001" "a"; old_question "ENVI-2020-002" "b"])],
        4%N).
Proof.
  exact (reindex_twice old_years _ 4%N old_years_NoDup eq_refl).
Defined.

End ReindexProps.

(* ================================================================= *)
(** * The re-indexer on any JSON value *)

Module ReindexDataFacts.
Import Py PyFacts IdCorrector IdCorrectorFacts ReindexFacts ReindexData.

(** ** Values of the expected shape *)

(** The value of [data['years']] for a mapping from years to lists of
    question objects. *)
Definition years_value (ys : Years) : list (str * json) :=
  map (fun entry => (fst entry, JList (map JDict (snd entry)))) ys.

Lemma renumber_typed (year : str) (qs : list Question) :
  forall c,
    renumber year c (map JDict qs)
    = Done (map JDict (fst (reindex_list year c qs)), snd (reindex_list year c qs)).
Proof.
  induction qs as [|q qs IH]; intros c; [reflexivity|].
  cbn [map renumber reindex_list]. rewrite IH.
  destruct (reindex_list year (c + 1) qs) as [qs' c']. reflexivity.
Qed.

Lemma get_years_value (y : str) (ys : Years) :
  PyDict.get y (years_value ys)
  = option_map (fun qs => JList (map JDict qs)) (PyDict.get y ys).
Proof.
  induction ys as [|[k qs] ys IH]; [reflexivity|].
  cbn [years_value map fst snd PyDict.get]. destruct (str_eqb k y); [reflexivity | exact IH].
Qed.

Lemma set_years_value (y : str) (qs : list Question) (ys : Years) :
  PyDict.set y (JList (map JDict qs)) (years_value ys)
  = years_value (PyDict.set y qs ys).
Proof.
  induction ys as [|[k v] ys IH]; [reflexivity|].
  cbn [years_value map fst snd PyDict.set].
  destruct (str_eqb k y); cbn [map fst snd]; [reflexivity|].
  f_equal. exact IH.
Qed.

Lemma keys_years_value (ys : Years) : PyDict.keys (years_value ys) = PyDict.keys ys.
Proof. unfold years_value, PyDict.keys. rewrite map_map. reflexivity. Qed.

Lemma renumber_years_typed (order : list str) :
  forall (ys ys' : Years) (c total : N),
    reindex_years order ys c = Ok (ys', total) ->
    renumber_years order (years_value ys) c = Done (years_value ys', total).
Proof.
  induction order as [|year rest IH]; intros ys ys' c total R.
  - simpl in R. injection R as <- <-. reflexivity.
  - cbn [reindex_years] in R. cbn [renumber_years]. rewrite get_years_value.
    destruct (PyDict.get year ys) as [qs|]; [|discriminate R].
    cbn [option_map renumber_value]. rewrite renumber_typed.
    destruct (reindex_list year c qs) as [qs' c'].
    cbn [fst snd]. rewrite set_years_value. apply IH, R.
Qed.

(** ** Which values are gone through *)

Definition is_dict (v : json) : bool :=
  match v with JDict _ => true | _ => false end.

(** The value under a year can be gone through: a list of dictionaries, an
    empty dictionary or an empty string. *)
Definition value_ok (v : json) : bool :=
  match v with
  | JList items => forallb is_dict items
  | JDict [] => true
  | JStr [] => true
  | _ => false
  end.

Lemma renumber_outcome (year : str) (items : list json) :
  forall c,
    if forallb is_dict items
    then exists items',
        renumber year c items = Done (items', (c + N.of_nat (List.length items))%N)
        /\ List.length items' = List.length items
    else renumber year c items = Crashed TypeError.
Proof.
  induction items as [|v items IH]; intros c.
  - simpl. exists []. rewrite N.add_0_r. split; reflexivity.
  - cbn [forallb]. destruct v as [| b | l | s | its | question]; try reflexivity.
    cbn [is_dict andb renumber]. specialize (IH (c + 1)%N).
    destruct (forallb is_dict items).
    + destruct IH as [items' [-> L]]. eexists. split.
      * f_equal. f_equal. cbn [List.length]. lia.
      * cbn [List.length]. rewrite L. reflexivity.
    + rewrite IH. reflexivity.
Qed.

Lemma renumber_value_outcome (year : str) (c : N) (v : json) :
  if value_ok v
  then exists v' c', renumber_value year c v = Done (v', c')
  else renumber_value year c v = Crashed TypeError.
Proof.
  destruct v as [| b | l | s | items | entries]; try reflexivity.
  - destruct s; [|reflexivity]. simpl. eauto.
  - cbn [value_ok renumber_value].
    pose proof (renumber_outcome year items c) as H.
    destruct (forallb is_dict items).
    + destruct H as [items' [-> _]]. eauto.
    + rewrite H. reflexivity.
  - destruct entries; [|reflexivity]. simpl. eauto.
Qed.

(** The value under the year [y] can be gone through. *)
Definition ok_at (ys : list (str * json)) (y : str) : bool :=
  match PyDict.get y ys with Some v => value_ok v | None => false end.

Lemma forallb_ext_in {A : Type} (f g : A -> bool) (l : list A) :
  (forall x, In x l -> f x = g x) -> forallb f l = forallb g l.
Proof.
  induction l as [|a l IH]; intros H; [reflexivity|].
  simpl. rewrite (H a (or_introl eq_refl)), IH; [reflexivity|].
  intros x Hx. apply H. right. exact Hx.
Qed.

Lemma forallb_perm {A : Type} (f : A -> bool) (l l' : list A) :
  Permutation l l' -> forallb f l = forallb f l'.
Proof.
  induction 1; simpl; try congruence.
  - destruct (f x), (f y); reflexivity.
Qed.

Lemma ok_at_keys (ys : list (str * json)) :
  NoDup (PyDict.keys ys) ->
  forallb (ok_at ys) (PyDict.keys ys) = forallb (fun e => value_ok (snd e)) ys.
Proof.
  induction ys as [|[k v] ys IH]; intros ND; [reflexivity|].
  inversion ND as [|? ? Hn ND']; subst.
  cbn [PyDict.keys map fst snd forallb]. f_equal.
  - unfold ok_at. simpl. rewrite str_eqb_refl. reflexivity.
  - rewrite <- (IH ND'). apply forallb_ext_in. intros y Hy.
    unfold ok_at. simpl. destruct (str_eqb k y) eqn:E; [|reflexivity].
    apply str_eqb_eq in E. subst y. contradiction.
Qed.

Lemma renumber_years_outcome (order : list str) :
  NoDup order ->
  forall (ys : list (str * json)) (c : N),
    (forall y, In y order -> In y (PyDict.keys ys)) ->
    if forallb (ok_at ys) order
    then exists ys' total,
        renumber_years order ys c = Done (ys', total)
        /\ PyDict.keys ys' = PyDict.keys ys
    else renumber_years order ys c = Crashed TypeError.
Proof.
  induction 1 as [|year rest Hn ND IH]; intros ys c Hin.
  - simpl. eauto.
  - cbn [forallb renumber_years]. unfold ok_at at 1.
    destruct (in_keys_get year ys (Hin year (or_introl eq_refl))) as [v G].
    rewrite G. pose proof (renumber_value_outcome year c v) as V.
    destruct (value_ok v); [|rewrite V; reflexivity].
    destruct V as [v' [c' ->]]. cbn [andb].
    assert (K : PyDict.keys (PyDict.set year v' ys) = PyDict.keys ys).
    { apply DictFacts.keys_set_present, Hin. left. reflexivity. }
    assert (E : forallb (ok_at (PyDict.set year v' ys)) rest = forallb (ok_at ys) rest).
    { apply forallb_ext_in. intros y Hy. unfold ok_at.
      rewrite DictFacts.get_set_other; [reflexivity|].
      intros ->. contradiction. }
    specialize (IH (PyDict.set year v' ys) c').
    rewrite E, K in IH. apply IH.
    intros y Hy. apply Hin. right. exact Hy.
Qed.

End ReindexDataFacts.

Module ReindexDataProps.
Import Py PyFacts IdCorrector IdCorrectorFacts ReindexFacts ReindexData ReindexDataFacts.

(** X23: on data of the expected shape, a dictionary whose ['years'] maps
    years to lists of question objects, the run on the JSON value is the
    re-indexing of the mapping: it writes the data with the re-indexed
    mapping at the place of ['years'], the other keys as they were, and
    ends with the same counter. *)
Theorem reindex_data_typed (entries : list (str * json)) (ys : Years) :
  NoDup (PyDict.keys ys) ->
  PyDict.get (lit "years") entries = Some (JDict (years_value ys)) ->
  exists ys' total,
    reindex ys = Ok (ys', total)
    /\ reindex_data (JDict entries)
       = Done (JDict (PyDict.set (lit "years") (JDict (years_value ys')) entries),
               total)
    /\ forall key, key <> lit "years" ->
         PyDict.get key (PyDict.set (lit "years") (JDict (years_value ys')) entries)
         = PyDict.get key entries.
Proof.
  intros ND G. destruct (reindex_spec ys ND) as [ys' [R _]].
  eexists ys', _. split; [exact R|]. split.
  - unfold reindex_data. rewrite G, keys_years_value.
    unfold reindex in R. rewrite (renumber_years_typed _ _ _ _ _ R). reflexivity.
  - intros key N. apply DictFacts.get_set_other. congruence.
Qed.

(** The file of one year with one question, under the subject. *)
Definition sample_data : list (str * json) :=
  [(lit "subject", JStr (lit "Polity"));
   (lit "years",
    JDict [(lit "2020", JList [JDict [(lit "id", JStr (lit "POL-2020-01"))]])])].

Lemma reindex_data_typed_witness :
  reindex_data (JDict sample_data)
  = Done (JDict [(lit "subject", JStr (lit "Polity"));
                 (lit "years",
                  JDict [(lit "2020",
                          JList [JDict [(lit "id", JStr (lit "ENVI-2020-001"))]])])],
          2%N).
Proof.
  destruct (reindex_data_typed sample_data
              [(lit "2020", [[(lit "id", JStr (lit "POL-2020-01"))]])]
              ltac:(repeat constructor; simpl; tauto) eq_refl)
    as [ys' [total [R [D _]]]].
  injection R as <- <-. exact D.
Defined.

(** X24: what the run does with any JSON value.  A value that is no
    dictionary, or whose ['years'] is no dictionary, ends the program with
    an [AttributeError]; without the key ['years'] the data are written as
    they are and the total is 0; otherwise the run ends well exactly when
    every value under a year can be gone through (a list of dictionaries,
    an empty dictionary or an empty string), keeps the years, and ends with
    a [TypeError] if one cannot. *)
Theorem reindex_data_outcome :
  (forall data, is_dict data = false -> reindex_data data = Crashed AttributeError)
  /\ (forall entries,
        PyDict.get (lit "years") entries = None ->
        reindex_data (JDict entries) = Done (JDict entries, 1%N))
  /\ (forall entries v,
        PyDict.get (lit "years") entries = Some v -> is_dict v = false ->
        reindex_data (JDict entries) = Crashed AttributeError)
  /\ (forall entries ys,
        PyDict.get (lit "years") entries = Some (JDict ys) ->
        NoDup (PyDict.keys ys) ->
        if forallb (fun e => value_ok (snd e)) ys
        then exists ys' total,
            reindex_data (JDict entries)
            = Done (JDict (PyDict.set (lit "years") (JDict ys') entries), total)
            /\ PyDict.keys ys' = PyDict.keys ys
        else reindex_data (JDict entries) = Crashed TypeError).
Proof.
  split; [|split; [|split]].
  - intros [| b | l | s | items | entries] H; try reflexivity. discriminate H.
  - intros entries G. unfold reindex_data. rewrite G. reflexivity.
  - intros entries v G H. unfold reindex_data. rewrite G.
    destruct v; try reflexivity. discriminate H.
  - intros entries ys G ND. unfold reindex_data. rewrite G.
    assert (P : Permutation (sorted_desc (PyDict.keys ys)) (PyDict.keys ys))
      by apply sorted_desc_perm.
    pose proof (renumber_years_outcome (sorted_desc (PyDict.keys ys))
                  (Permutation_NoDup (Permutation_sym P) ND) ys 1%N
                  (fun y Hy => Permutation_in y P Hy)) as H.
    rewrite (forallb_perm _ _ _ P), (ok_at_keys ys ND) in H.
    destruct (forallb (fun e => value_ok (snd e)) ys).
    + destruct H as [ys' [total [-> K]]]. eauto.
    + rewrite H. reflexivity.
Qed.

End ReindexDataProps.

(* ================================================================= *)
(** * From the converter to the re-indexer *)

Module Pipeline.
Import Py PyFacts Main.

Lemma keys_years_json (ys : Convert.Years) :
  PyDict.keys (years_json ys) = PyDict.keys ys.
Proof.
  unfold years_json, PyDict.keys. rewrite map_map. reflexivity.
Qed.

Lemma all_questions_json (ys : Convert.Years) :
  List.length (ReindexFacts.all_questions (years_json ys))
  = List.length (List.concat (map snd ys)).
Proof.
  unfold ReindexFacts.all_questions, years_json. rewrite map_map. cbn [snd].
  induction ys as [|[y qs] ys IH]; [reflexivity|].
  cbn [map List.concat snd]. rewrite !length_app, length_map, IH. reflexivity.
Qed.

Lemma parse_text_keys_NoDup (text : str) (ys : Convert.Years) :
  Convert.parse_text text = Ok ys -> NoDup (PyDict.keys ys).
Proof.
  unfold Convert.parse_text.
  destruct (Convert.run Convert.init_state (splitlines text)) as [st|e] eqn:R;
    simpl; [|discriminate].
  destruct (Convert.flush_question st) as [st'|e] eqn:F; simpl; [|discriminate].
  intros H; injection H as <-.
  apply (ConvertFacts.years_case_NoDup st _ (ConvertFacts.flush_years _ _ F)).
  apply (ConvertFacts.run_invariant (fun s => NoDup (PyDict.keys (Convert.years s))))
    with (lines := splitlines text) (st := Convert.init_state); [| constructor | exact R].
  intros s raw s' ND H.
  exact (ConvertFacts.years_case_NoDup s _ (ConvertFacts.step_years _ _ _ H) ND).
Qed.

(** X19: the re-indexer accepts what the converter writes for any text: it
    raises nothing, keeps the years, counts the records, and gives them
    pairwise distinct identifiers, also where the converter had given two
    records one identifier. *)
Theorem converted_then_reindexed (text : str) (ys : Convert.Years) :
  Convert.parse_text text = Ok ys ->
  exists ys',
    IdCorrector.reindex (years_json ys)
    = Ok (ys', (1 + N.of_nat (List.length (List.concat (map snd ys))))%N)
    /\ PyDict.keys ys' = PyDict.keys ys
    /\ NoDup (map ReindexFacts.id_field (ReindexFacts.all_questions ys')).
Proof.
  intros H.
  assert (ND : NoDup (PyDict.keys (years_json ys)))
    by (rewrite keys_years_json; exact (parse_text_keys_NoDup text ys H)).
  destruct (ReindexFacts.reindex_summary (years_json ys) ND)
    as [ys' [R [K [_ [_ N]]]]].
  exists ys'. rewrite R, all_questions_json, K, keys_years_json.
  repeat split. exact N.
Qed.

Lemma converted_then_reindexed_witness :
  exists ys',
    IdCorrector.reindex
      (years_json
         [(lit "2020",
           [{| Convert.q_id := lit "POL-2020-01"; Convert.q_question := lit "First";
               Convert.q_options := map lit ["A. x"; "B. "; "C. "; "D. "]%string;
               Convert.q_answer := []; Convert.q_explanation := [];
               Convert.q_difficulty := lit "M" |};
            {| Convert.q_id := lit "POL-2020-01"; Convert.q_question := lit "Second";
               Convert.q_options := map lit ["A. "; "B. "; "C. "; "D. "]%string;
               Convert.q_answer := []; Convert.q_explanation := [];
               Convert.q_difficulty := lit "M" |}])])
    = Ok (ys', 3%N).
Proof.
  destruct (converted_then_reindexed
              (join [LF] (map lit ["2020"; "1. First"; "(a) x"; "1. Second"]%string))
              _ eq_refl) as [ys' [R _]].
  exists ys'. exact R.
Defined.

End Pipeline.
